(** * The real-time chat delivery core: wire protocol, storage, Hub and
      domain operations of the chat backend, embedded from the Go sources
      of package [chat] ([protocol.go], [room.go], the file of [Hub] and
      the file of [Client]) and of package [database] ([postgres.go],
      [migrations.go]). *)

From stdpp Require Import gmap strings list fin_maps pretty.
From Stdlib Require Import ZArith Lia Ascii.

Set Warnings "-register-all".

Open Scope string_scope.

(** ** JSON documents

    [encoding/json] is a library, not part of the repository: frames are
    modelled as JSON documents (the value a frame's text denotes), so
    [[]byte] results of [json.Marshal] are values of [json] and
    [json.Unmarshal] reads such a value.  Only integral numbers occur in
    the protocol. *)
Module Json.

Inductive json : Type :=
| JNull
| JBool (b : bool)
| JNum (n : Z)
| JStr (s : string)
| JArr (items : list json)
| JObj (fields : list (string * json)).

(** [json.RawMessage]: a delayed document; [None] is the nil slice. *)
Definition RawMessage : Type := option json.

(** Go's [int] on the 64-bit targets the server is built for. *)
Definition int_min : Z := - 2 ^ 63.
Definition int_max : Z := 2 ^ 63 - 1.
Definition is_int (n : Z) : bool := (int_min <=? n)%Z && (n <=? int_max)%Z.

(** Go strings are byte sequences, JSON strings are Unicode text: the
    encoder (and the decoder, on raw bytes) replaces every byte that
    starts no well-formed UTF-8 sequence by U+FFFD.  [rune_tail a r] is
    the number of continuation bytes of the sequence that starts with [a]
    and goes on in [r], when one does. *)
Definition between (lo hi : N) (a : ascii) : bool :=
  (lo <=? N_of_ascii a)%N && (N_of_ascii a <=? hi)%N.

Definition cont (a : ascii) : bool := between 128 191 a.

Definition rune_tail (a : ascii) (r : string) : option nat :=
  let b := N_of_ascii a in
  if (b <? 128)%N then Some 0%nat
  else if between 194 223 a then
    match r with
    | String c1 _ => if cont c1 then Some 1%nat else None
    | _ => None
    end
  else if between 224 239 a then
    match r with
    | String c1 (String c2 _) =>
        let lo := if (b =? 224)%N then 160%N else 128%N in
        let hi := if (b =? 237)%N then 159%N else 191%N in
        if between lo hi c1 && cont c2 then Some 2%nat else None
    | _ => None
    end
  else if between 240 244 a then
    match r with
    | String c1 (String c2 (String c3 _)) =>
        let lo := if (b =? 240)%N then 144%N else 128%N in
        let hi := if (b =? 244)%N then 143%N else 191%N in
        if between lo hi c1 && cont c2 && cont c3 then Some 3%nat else None
    | _ => None
    end
  else None.

(** U+FFFD in UTF-8. *)
Definition replacement (rest : string) : string :=
  String (ascii_of_N 239) (String (ascii_of_N 191) (String (ascii_of_N 189) rest)).

Fixpoint coerce_from (skip : nat) (s : string) : string :=
  match s with
  | EmptyString => EmptyString
  | String a r =>
      match skip with
      | S k => String a (coerce_from k r)
      | O =>
          match rune_tail a r with
          | Some n => String a (coerce_from n r)
          | None => replacement (coerce_from 0 r)
          end
      end
  end.

Definition coerce (s : string) : string := coerce_from 0 s.

(** The kinds of struct fields the protocol uses and their values. *)
Inductive fty : Type := TString | TBool | TInt.
Inductive fval : Type := VString (s : string) | VBool (b : bool) | VInt (n : Z).

Definition zero (t : fty) : fval :=
  match t with
  | TString => VString ""
  | TBool => VBool false
  | TInt => VInt 0
  end.

Definition encode_fval (v : fval) : json :=
  match v with
  | VString s => JStr (coerce s)
  | VBool b => JBool b
  | VInt n => JNum n
  end.

(** ASCII case folding of a key, as the decoder's fallback match does. *)
Definition fold_ascii (a : ascii) : ascii :=
  let n := nat_of_ascii a in
  if (65 <=? n)%nat && (n <=? 90)%nat then ascii_of_nat (n + 32) else a.

Fixpoint fold_name (s : string) : string :=
  match s with
  | EmptyString => EmptyString
  | String a r => String (fold_ascii a) (fold_name r)
  end.

(** Index of the struct field a document key selects: the exact name
    first, else the first field equal up to case. *)
Fixpoint index_where (p : string → bool) (names : list string) : option nat :=
  match names with
  | [] => None
  | n :: r => if p n then Some 0%nat else S <$> index_where p r
  end.

Definition find_field (names : list string) (key : string) : option nat :=
  match index_where (String.eqb key) names with
  | Some i => Some i
  | None => index_where (fun n => String.eqb (fold_name n) (fold_name key)) names
  end.

(** Storing a document into a field of type [t]: [null] leaves the field
    as it is, a value of another kind is an [UnmarshalTypeError]. *)
Inductive store_result : Type :=
| Keep
| Put (v : fval)
| Mismatch.

Definition store_field (t : fty) (j : json) : store_result :=
  match j, t with
  | JNull, _ => Keep
  | JStr s, TString => Put (VString (coerce s))
  | JBool b, TBool => Put (VBool b)
  | JNum n, TInt => if is_int n then Put (VInt n) else Mismatch
  | _, _ => Mismatch
  end.

(** Decoding the members of an object into the fields of a struct, in
    document order (a later duplicate overwrites); unknown keys are
    skipped; a type error makes the whole call fail. *)
Fixpoint decode_members (schema : list (string * fty))
    (members : list (string * json)) (acc : list fval) : option (list fval) :=
  match members with
  | [] => Some acc
  | (k, j) :: rest =>
      match find_field (schema.*1) k with
      | None => decode_members schema rest acc
      | Some i =>
          match schema !! i with
          | None => decode_members schema rest acc
          | Some (_, t) =>
              match store_field t j with
              | Keep => decode_members schema rest acc
              | Put v => decode_members schema rest (<[i:=v]> acc)
              | Mismatch => None
              end
          end
      end
  end.

(** [json.Unmarshal(raw, &s)] for a zero-initialised struct [s] with the
    given fields: an empty input is an error, [null] leaves the zero value,
    anything but an object is a type error. *)
Definition decode_struct (schema : list (string * fty)) (raw : RawMessage)
    : option (list fval) :=
  match raw with
  | None => None
  | Some JNull => Some (zero <$> schema.*2)
  | Some (JObj members) => decode_members schema members (zero <$> schema.*2)
  | Some _ => None
  end.

(** [json.Marshal(s)] of a struct with these fields and values. *)
Definition encode_struct (schema : list (string * fty)) (vals : list fval) : json :=
  JObj (zip (schema.*1) (encode_fval <$> vals)).

End Json.
Export Json.

(** ** The wire protocol ([internal/chat/protocol.go]) *)
Module Protocol.

Definition TypeMessageSend : string := "message.send".
Definition TypeRoomJoin : string := "room.join".
Definition TypeRoomLeave : string := "room.leave".
Definition TypeTypingStart : string := "typing.start".
Definition TypeTypingStop : string := "typing.stop".
Definition TypeMessageRead : string := "message.read".
Definition TypePing : string := "ping".

Definition TypeMessageNew : string := "message.new".
Definition TypeTypingUpdate : string := "typing.update".
Definition TypePresenceUpdate : string := "presence.update".
Definition TypeReadReceipt : string := "read_receipt.update".
Definition TypeUnreadUpdate : string := "unread.update".
Definition TypeRoomMemberJoined : string := "room.member_joined".
Definition TypeRoomMemberLeft : string := "room.member_left".
Definition TypeError : string := "error".
Definition TypePong : string := "pong".

(** [Payload] carries the tag [omitempty]. *)
Record WSMessage : Type := mkWSMessage {
  Type_ : string;
  Payload : RawMessage
}.

Record SendMessagePayload : Type := mkSendMessagePayload {
  smp_RoomID : string;
  smp_Content : string
}.

Record RoomPayload : Type := mkRoomPayload {
  rp_RoomID : string
}.

Record ReadPayload : Type := mkReadPayload {
  rdp_RoomID : string;
  rdp_Timestamp : string
}.

Record NewMessagePayload : Type := mkNewMessagePayload {
  nmp_ID : string;
  nmp_RoomID : string;
  nmp_SenderID : string;
  nmp_SenderUsername : string;
  nmp_Content : string;
  nmp_CreatedAt : string
}.

Record TypingUpdatePayload : Type := mkTypingUpdatePayload {
  tup_RoomID : string;
  tup_UserID : string;
  tup_Username : string;
  tup_IsTyping : bool
}.

Record PresenceUpdatePayload : Type := mkPresenceUpdatePayload {
  pup_UserID : string;
  pup_Username : string;
  pup_Status : string
}.

Record ReadReceiptPayload : Type := mkReadReceiptPayload {
  rrp_RoomID : string;
  rrp_UserID : string;
  rrp_Username : string;
  rrp_LastReadAt : string
}.

Record UnreadUpdatePayload : Type := mkUnreadUpdatePayload {
  uup_RoomID : string;
  uup_Count : Z
}.

Record MemberEventPayload : Type := mkMemberEventPayload {
  mep_RoomID : string;
  mep_UserID : string;
  mep_Username : string
}.

Record ErrorPayload : Type := mkErrorPayload {
  ep_Message : string;
  ep_Code : string
}.

(** The payload structs, by name. *)
Inductive kind : Type :=
| KSendMessage | KRoom | KRead | KNewMessage | KTypingUpdate
| KPresenceUpdate | KReadReceipt | KUnreadUpdate | KMemberEvent | KError.

(** The non-nil values passed as [payload interface{}]. *)
Inductive AnyPayload : Type :=
| PSendMessage (p : SendMessagePayload)
| PRoom (p : RoomPayload)
| PRead (p : ReadPayload)
| PNewMessage (p : NewMessagePayload)
| PTypingUpdate (p : TypingUpdatePayload)
| PPresenceUpdate (p : PresenceUpdatePayload)
| PReadReceipt (p : ReadReceiptPayload)
| PUnreadUpdate (p : UnreadUpdatePayload)
| PMemberEvent (p : MemberEventPayload)
| PError (p : ErrorPayload).

Definition kind_of (p : AnyPayload) : kind :=
  match p with
  | PSendMessage _ => KSendMessage
  | PRoom _ => KRoom
  | PRead _ => KRead
  | PNewMessage _ => KNewMessage
  | PTypingUpdate _ => KTypingUpdate
  | PPresenceUpdate _ => KPresenceUpdate
  | PReadReceipt _ => KReadReceipt
  | PUnreadUpdate _ => KUnreadUpdate
  | PMemberEvent _ => KMemberEvent
  | PError _ => KError
  end.

(** The [json:"..."] tags of each struct, in declaration order. *)
Definition schema (k : kind) : list (string * fty) :=
  match k with
  | KSendMessage => [("room_id", TString); ("content", TString)]
  | KRoom => [("room_id", TString)]
  | KRead => [("room_id", TString); ("timestamp", TString)]
  | KNewMessage =>
      [("id", TString); ("room_id", TString); ("sender_id", TString);
       ("sender_username", TString); ("content", TString); ("created_at", TString)]
  | KTypingUpdate =>
      [("room_id", TString); ("user_id", TString); ("username", TString);
       ("is_typing", TBool)]
  | KPresenceUpdate =>
      [("user_id", TString); ("username", TString); ("status", TString)]
  | KReadReceipt =>
      [("room_id", TString); ("user_id", TString); ("username", TString);
       ("last_read_at", TString)]
  | KUnreadUpdate => [("room_id", TString); ("count", TInt)]
  | KMemberEvent =>
      [("room_id", TString); ("user_id", TString); ("username", TString)]
  | KError => [("message", TString); ("code", TString)]
  end.

(** The field values of a payload, in declaration order. *)
Definition fields_of (p : AnyPayload) : list fval :=
  match p with
  | PSendMessage p => [VString (smp_RoomID p); VString (smp_Content p)]
  | PRoom p => [VString (rp_RoomID p)]
  | PRead p => [VString (rdp_RoomID p); VString (rdp_Timestamp p)]
  | PNewMessage p =>
      [VString (nmp_ID p); VString (nmp_RoomID p); VString (nmp_SenderID p);
       VString (nmp_SenderUsername p); VString (nmp_Content p);
       VString (nmp_CreatedAt p)]
  | PTypingUpdate p =>
      [VString (tup_RoomID p); VString (tup_UserID p); VString (tup_Username p);
       VBool (tup_IsTyping p)]
  | PPresenceUpdate p =>
      [VString (pup_UserID p); VString (pup_Username p); VString (pup_Status p)]
  | PReadReceipt p =>
      [VString (rrp_RoomID p); VString (rrp_UserID p); VString (rrp_Username p);
       VString (rrp_LastReadAt p)]
  | PUnreadUpdate p => [VString (uup_RoomID p); VInt (uup_Count p)]
  | PMemberEvent p =>
      [VString (mep_RoomID p); VString (mep_UserID p); VString (mep_Username p)]
  | PError p => [VString (ep_Message p); VString (ep_Code p)]
  end.

(** Rebuilding the struct of kind [k] from decoded field values. *)
Definition build (k : kind) (vs : list fval) : option AnyPayload :=
  match k, vs with
  | KSendMessage, [VString a; VString b] =>
      Some (PSendMessage (mkSendMessagePayload a b))
  | KRoom, [VString a] => Some (PRoom (mkRoomPayload a))
  | KRead, [VString a; VString b] => Some (PRead (mkReadPayload a b))
  | KNewMessage, [VString a; VString b; VString c; VString d; VString e; VString f] =>
      Some (PNewMessage (mkNewMessagePayload a b c d e f))
  | KTypingUpdate, [VString a; VString b; VString c; VBool d] =>
      Some (PTypingUpdate (mkTypingUpdatePayload a b c d))
  | KPresenceUpdate, [VString a; VString b; VString c] =>
      Some (PPresenceUpdate (mkPresenceUpdatePayload a b c))
  | KReadReceipt, [VString a; VString b; VString c; VString d] =>
      Some (PReadReceipt (mkReadReceiptPayload a b c d))
  | KUnreadUpdate, [VString a; VInt n] =>
      Some (PUnreadUpdate (mkUnreadUpdatePayload a n))
  | KMemberEvent, [VString a; VString b; VString c] =>
      Some (PMemberEvent (mkMemberEventPayload a b c))
  | KError, [VString a; VString b] => Some (PError (mkErrorPayload a b))
  | _, _ => None
  end.

(** [json.Marshal(payload)]: no payload struct holds a value the encoder
    rejects, so the error result never occurs. *)
Definition Marshal (p : AnyPayload) : option json :=
  Some (encode_struct (schema (kind_of p)) (fields_of p)).

(** [json.Unmarshal(raw, &payload)] for [var payload K]. *)
Definition Unmarshal (k : kind) (raw : RawMessage) : option AnyPayload :=
  vs ← decode_struct (schema k) raw; build k vs.

(** [json.Marshal(msg)] of the envelope: the payload member is left out
    when the raw message is empty. *)
Definition Marshal_WSMessage (msg : WSMessage) : option json :=
  Some (JObj (("type", JStr (coerce (Type_ msg))) ::
              match Payload msg with
              | None => []
              | Some j => [("payload", j)]
              end)).

Definition NewWSMessage (msgType : string) (payload : option AnyPayload)
    : option json :=
  p ← match payload with
      | None => Some None
      | Some v => Some <$> Marshal v
      end;
  Marshal_WSMessage {| Type_ := msgType; Payload := p |}.

(** [json.Unmarshal(message, &msg)] for [var msg WSMessage]: the raw
    payload member is kept as it is, whatever document it holds. *)
Fixpoint decode_envelope (members : list (string * json)) (acc : WSMessage)
    : option WSMessage :=
  match members with
  | [] => Some acc
  | (k, j) :: rest =>
      match find_field ["type"; "payload"] k with
      | Some 0%nat =>
          match store_field TString j with
          | Keep => decode_envelope rest acc
          | Put (VString s) =>
              decode_envelope rest {| Type_ := s; Payload := Payload acc |}
          | _ => None
          end
      | Some 1%nat =>
          decode_envelope rest {| Type_ := Type_ acc; Payload := Some j |}
      | _ => decode_envelope rest acc
      end
  end.

Definition Unmarshal_WSMessage (message : json) : option WSMessage :=
  match message with
  | JNull => Some {| Type_ := ""; Payload := None |}
  | JObj members => decode_envelope members {| Type_ := ""; Payload := None |}
  | _ => None
  end.

(** The payload struct each tag of the protocol carries; [Some None] is
    the null payload of [ping] and [pong]. *)
Definition tag_kind (t : string) : option (option kind) :=
  if decide (t = TypeMessageSend) then Some (Some KSendMessage)
  else if decide (t = TypeRoomJoin) then Some (Some KRoom)
  else if decide (t = TypeRoomLeave) then Some (Some KRoom)
  else if decide (t = TypeTypingStart) then Some (Some KRoom)
  else if decide (t = TypeTypingStop) then Some (Some KRoom)
  else if decide (t = TypeMessageRead) then Some (Some KRead)
  else if decide (t = TypePing) then Some None
  else if decide (t = TypeMessageNew) then Some (Some KNewMessage)
  else if decide (t = TypeTypingUpdate) then Some (Some KTypingUpdate)
  else if decide (t = TypePresenceUpdate) then Some (Some KPresenceUpdate)
  else if decide (t = TypeReadReceipt) then Some (Some KReadReceipt)
  else if decide (t = TypeUnreadUpdate) then Some (Some KUnreadUpdate)
  else if decide (t = TypeRoomMemberJoined) then Some (Some KMemberEvent)
  else if decide (t = TypeRoomMemberLeft) then Some (Some KMemberEvent)
  else if decide (t = TypeError) then Some (Some KError)
  else if decide (t = TypePong) then Some None
  else None.

(** A field value of the type the struct declares: a string that is
    UTF-8 text, a Go [int]. *)
Definition has_type (t : fty) (v : fval) : Prop :=
  match t, v with
  | TString, VString s => coerce s = s
  | TBool, VBool _ => True
  | TInt, VInt n => is_int n = true
  | _, _ => False
  end.

Definition well_typed (sch : list (string * fty)) (vals : list fval) : Prop :=
  Forall2 (fun f v => has_type f.2 v) sch vals.

(** A payload value fits a tag when it is of the tag's struct and its
    fields are values of their types. *)
Definition fits (t : string) (payload : option AnyPayload) : Prop :=
  match payload with
  | None => tag_kind t = Some None
  | Some p =>
      tag_kind t = Some (Some (kind_of p)) ∧
      well_typed (schema (kind_of p)) (fields_of p)
  end.

End Protocol.
Export Protocol.

(** ** Storage ([internal/database/postgres.go], schema of
       [internal/database/migrations.go])

    [*sql.DB] is modelled by the tables the core reads and writes, the
    database clock behind [NOW()], and a script of the outcomes of the
    coming calls: the head of [faults] tells whether the next call returns
    a driver error (a failed statement changes no table); once the script
    is used up, calls succeed.  Identifiers are the canonical text of the
    UUIDs; timestamps are integers in the resolution of the store. *)
Module Storage.

Record User : Type := mkUser {
  u_ID : string;
  u_Username : string;
  u_Email : string;
  u_AvatarURL : string;
  u_CreatedAt : Z
}.

(** A row of [room_members]; primary key [(room_id, user_id)]. *)
Record Member : Type := mkMember {
  rm_room_id : string;
  rm_user_id : string;
  rm_joined_at : Z;
  rm_last_read_at : Z
}.

Record Message : Type := mkMessage {
  m_ID : string;
  m_RoomID : string;
  m_SenderID : string;
  m_Content : string;
  m_CreatedAt : Z
}.

Record MessageWithSender : Type := mkMessageWithSender {
  mws_Message : Message;
  mws_SenderUsername : string
}.

Record sqlDB : Type := mkDB {
  users : list User;
  room_members : list Member;
  messages : list Message;
  clock : Z;
  faults : list bool
}.

(** The result of a call: [None] is [err != nil]. *)
Definition result (A : Type) : Type := (option A * sqlDB)%type.

Definition set_room_members (rows : list Member) (db : sqlDB) : sqlDB :=
  {| users := users db; room_members := rows; messages := messages db;
     clock := clock db; faults := faults db |}.

Definition set_messages (rows : list Message) (db : sqlDB) : sqlDB :=
  {| users := users db; room_members := room_members db; messages := rows;
     clock := clock db; faults := faults db |}.

(** One round trip to the server: consumes the next scripted outcome. *)
Definition round_trip (db : sqlDB) : bool * sqlDB :=
  match faults db with
  | [] => (false, db)
  | failed :: rest =>
      (failed, {| users := users db; room_members := room_members db;
                  messages := messages db; clock := clock db; faults := rest |})
  end.

(** [db.Exec] of a statement and [db.QueryRow(...).Scan] of a query. *)
Definition Exec (stmt : sqlDB → sqlDB) (db : sqlDB) : result unit :=
  let '(failed, db1) := round_trip db in
  if failed then (None, db1) else (Some tt, stmt db1).

Definition Query {A : Type} (q : sqlDB → A) (db : sqlDB) : result A :=
  let '(failed, db1) := round_trip db in
  if failed then (None, db1) else (Some (q db1), db1).

Definition is_key (roomID userID : string) (rm : Member) : bool :=
  bool_decide (rm_room_id rm = roomID) && bool_decide (rm_user_id rm = userID).

(** [INSERT INTO room_members (room_id, user_id) VALUES ($1, $2)
     ON CONFLICT DO NOTHING]; both timestamps default to [NOW()]. *)
Definition AddRoomMember (roomID userID : string) : sqlDB → result unit :=
  Exec (fun db =>
    if existsb (is_key roomID userID) (room_members db) then db
    else set_room_members
           (room_members db ++ [mkMember roomID userID (clock db) (clock db)]) db).

(** [DELETE FROM room_members WHERE room_id = $1 AND user_id = $2] *)
Definition RemoveRoomMember (roomID userID : string) : sqlDB → result unit :=
  Exec (fun db =>
    set_room_members
      (filter (fun rm => is_key roomID userID rm = false) (room_members db)) db).

(** [SELECT u.* FROM users u JOIN room_members rm ON u.id = rm.user_id
     WHERE rm.room_id = $1] *)
Definition GetRoomMembers (roomID : string) : sqlDB → result (list User) :=
  Query (fun db =>
    u ← users db;
    rm ← room_members db;
    if bool_decide (u_ID u = rm_user_id rm) && bool_decide (rm_room_id rm = roomID)
    then [u] else []).

(** [SELECT EXISTS(SELECT 1 FROM room_members
     WHERE room_id = $1 AND user_id = $2)] *)
Definition IsRoomMember (roomID userID : string) : sqlDB → result bool :=
  Query (fun db => existsb (is_key roomID userID) (room_members db)).

(** [INSERT INTO messages ... RETURNING ...] joined with the sender's
    [users] row: the statement fails when the sender has none (the foreign
    key), otherwise the row is appended with a fresh id and
    [created_at = NOW()]. *)
Definition CreateMessage (roomID senderID content : string) (db : sqlDB)
    : result MessageWithSender :=
  let '(failed, db1) := round_trip db in
  if failed then (None, db1)
  else
    match List.find (fun u => bool_decide (u_ID u = senderID)) (users db1) with
    | None => (None, db1)
    | Some u =>
        let m := mkMessage ("m" +:+ pretty (length (messages db1)))
                           roomID senderID content (clock db1) in
        (Some (mkMessageWithSender m (u_Username u)),
         set_messages (messages db1 ++ [m]) db1)
    end.

(** [UPDATE room_members SET last_read_at = $1
     WHERE room_id = $2 AND user_id = $3] *)
Definition UpdateLastRead (roomID userID : string) (timestamp : Z)
    : sqlDB → result unit :=
  Exec (fun db =>
    set_room_members
      ((fun rm =>
          if is_key roomID userID rm
          then mkMember (rm_room_id rm) (rm_user_id rm) (rm_joined_at rm) timestamp
          else rm) <$> room_members db) db).

(** [SELECT COUNT( * ) FROM messages m
     JOIN room_members rm ON rm.room_id = m.room_id AND rm.user_id = $2
     WHERE m.room_id = $1 AND m.created_at > rm.last_read_at
       AND m.sender_id != $2] *)
Definition unread_rows (roomID userID : string) (db : sqlDB)
    : list (Message * Member) :=
  m ← messages db;
  rm ← room_members db;
  if bool_decide (rm_room_id rm = m_RoomID m) && bool_decide (rm_user_id rm = userID)
     && bool_decide (m_RoomID m = roomID)
     && (rm_last_read_at rm <? m_CreatedAt m)%Z
     && negb (bool_decide (m_SenderID m = userID))
  then [(m, rm)] else [].

Definition GetUnreadCount (roomID userID : string) : sqlDB → result Z :=
  Query (fun db => Z.of_nat (length (unread_rows roomID userID db))).

(** The primary key of [room_members]. *)
Definition pk_rows (rows : list Member) : Prop :=
  ∀ i j r1 r2,
    rows !! i = Some r1 → rows !! j = Some r2 →
    rm_room_id r1 = rm_room_id r2 → rm_user_id r1 = rm_user_id r2 → i = j.

Definition pk_room_members (db : sqlDB) : Prop := pk_rows (room_members db).

(** The membership row of [(roomID, userID)], when there is one. *)
Definition membership (roomID userID : string) (db : sqlDB) : option Member :=
  List.find (is_key roomID userID) (room_members db).

End Storage.
Export Storage.

(** ** Buffered channels

    A Go channel of capacity [cap]: the queue of values sent and not yet
    received, and whether it was closed.  A receiver, when there is one,
    is a separate step ([recv]), so a send can proceed exactly when the
    queue is below capacity. *)
Module Chan.

Record chan (A : Type) : Type := mkChan {
  buf : list A;
  cap : nat;
  closed : bool
}.
Arguments mkChan {A} _ _ _.
Arguments buf {A} _.
Arguments cap {A} _.
Arguments closed {A} _.

(** [make(chan A, n)] *)
Definition make {A : Type} (n : nat) : chan A := mkChan [] n false.

Definition full {A : Type} (c : chan A) : bool := (cap c <=? length (buf c))%nat.

(** [select { case c <- x: default: }]: a send on a closed channel
    panics, also inside a [select]. *)
Inductive offered (A : Type) : Type :=
| Sent (c : chan A)
| Default
| SendPanic.
Arguments Sent {A} _.
Arguments Default {A}.
Arguments SendPanic {A}.

Definition try_send {A : Type} (c : chan A) (x : A) : offered A :=
  if closed c then SendPanic
  else if full c then Default
  else Sent (mkChan (buf c ++ [x]) (cap c) false).

(** [close(c)]: closing a closed channel panics ([None]). *)
Definition close {A : Type} (c : chan A) : option (chan A) :=
  if closed c then None else Some (mkChan (buf c) (cap c) true).

(** [x, ok := <-c] when it can proceed: queued values are still received
    after the close; [None] stands for the receive that blocks (open and
    empty) or reports [ok = false] (closed and empty). *)
Definition recv {A : Type} (c : chan A) : option (A * chan A) :=
  match buf c with
  | [] => None
  | x :: rest => Some (x, mkChan rest (cap c) (closed c))
  end.

End Chan.

(** ** The Hub and its Sessions (package [chat]: [Hub], [Client])

    [*Client] values are addresses into [heap]; the Hub's map holds
    addresses, so the identity test [existing == client] compares
    addresses.  [State] gathers the fields of [Hub] with the heap of
    Clients and the goroutines started and not yet run.  The channels
    [register] and [unregister] have no buffer: they are kept as the
    queues of the Clients whose senders wait for [Hub.Run] to receive;
    [broadcast] (capacity 256, senders block while it is full) as the
    queue of messages sent and not yet handled.  Every operation returns
    [None] when the Go code panics. *)
Module HubModel.

Definition addr : Type := nat.

Record Client : Type := mkClient {
  UserID : string;
  Username : string;
  rooms : gset string;
  send : Chan.chan json
}.

Record BroadcastMessage : Type := mkBroadcastMessage {
  RoomID : string;
  Data : json;
  ExcludeUserID : string
}.

Record State : Type := mkState {
  heap : gmap addr Client;
  clients : gmap string addr;
  register : list addr;
  unregister : list addr;
  broadcast : list BroadcastMessage;
  DB : sqlDB;
  spawned : list (string * string)
}.

Definition set_heap (h : gmap addr Client) (st : State) : State :=
  mkState h (clients st) (register st) (unregister st) (broadcast st) (DB st)
          (spawned st).
Definition set_clients (m : gmap string addr) (st : State) : State :=
  mkState (heap st) m (register st) (unregister st) (broadcast st) (DB st)
          (spawned st).
Definition set_register (q : list addr) (st : State) : State :=
  mkState (heap st) (clients st) q (unregister st) (broadcast st) (DB st)
          (spawned st).
Definition set_unregister (q : list addr) (st : State) : State :=
  mkState (heap st) (clients st) (register st) q (broadcast st) (DB st)
          (spawned st).
Definition set_broadcast (q : list BroadcastMessage) (st : State) : State :=
  mkState (heap st) (clients st) (register st) (unregister st) q (DB st)
          (spawned st).
Definition set_DB (db : sqlDB) (st : State) : State :=
  mkState (heap st) (clients st) (register st) (unregister st) (broadcast st) db
          (spawned st).
Definition set_spawned (l : list (string * string)) (st : State) : State :=
  mkState (heap st) (clients st) (register st) (unregister st) (broadcast st)
          (DB st) l.

Definition set_send (ch : Chan.chan json) (c : Client) : Client :=
  mkClient (UserID c) (Username c) (rooms c) ch.
Definition set_rooms (r : gset string) (c : Client) : Client :=
  mkClient (UserID c) (Username c) r (send c).

Definition NewHub (db : sqlDB) : State := mkState ∅ ∅ [] [] [] db [].

(** Monadic left fold: the body of a [for ... range] loop run over the
    entries in turn, stopping at a panic. *)
Fixpoint foldM {A B : Type} (f : B → A → option B) (l : list A) (b : B) : option B :=
  match l with
  | [] => Some b
  | x :: r => b' ← f b x; foldM f r b'
  end.

(** [close(c.send)] for the Client at [a]. *)
Definition close_send (a : addr) (st : State) : option State :=
  c ← heap st !! a;
  ch ← Chan.close (send c);
  Some (set_heap (<[a := set_send ch c]> (heap st)) st).

(** [select { case c.send <- data: default: }] for the Client at [a];
    the flag tells whether the send case ran. *)
Definition offer (a : addr) (data : json) (st : State) : option (bool * State) :=
  c ← heap st !! a;
  match Chan.try_send (send c) data with
  | Chan.Sent ch => Some (true, set_heap (<[a := set_send ch c]> (heap st)) st)
  | Chan.Default => Some (false, st)
  | Chan.SendPanic => None
  end.

Definition broadcastPresence (userID username status : string) (st : State)
    : option State :=
  match NewWSMessage TypePresenceUpdate
          (Some (PPresenceUpdate (mkPresenceUpdatePayload userID username status))) with
  | None => Some st
  | Some data =>
      foldM (fun st1 '(_, a) => '(_, st2) ← offer a data st1; Some st2)
            (map_to_list (clients st)) st
  end.

(** The three cases of the [select] in [Hub.Run]. *)
Definition Run_register (a : addr) (st : State) : option State :=
  c ← heap st !! a;
  st1 ← match clients st !! UserID c with
        | Some old => close_send old st
        | None => Some st
        end;
  broadcastPresence (UserID c) (Username c) "online"
    (set_clients (<[UserID c := a]> (clients st1)) st1).

Definition Run_unregister (a : addr) (st : State) : option State :=
  c ← heap st !! a;
  st1 ← match clients st !! UserID c with
        | Some existing =>
            if decide (existing = a)
            then close_send a (set_clients (delete (UserID c) (clients st)) st)
            else Some st
        | None => Some st
        end;
  broadcastPresence (UserID c) (Username c) "offline" st1.

Definition deliver (msg : BroadcastMessage) (st : State) (entry : string * addr)
    : option State :=
  let '(userID, a) := entry in
  if decide (userID = ExcludeUserID msg) then Some st
  else
    c ← heap st !! a;
    if decide (RoomID msg ∈ rooms c) then
      '(sent, st1) ← offer a (Data msg) st;
      if sent : bool then Some st1
      else st2 ← close_send a st1;
           Some (set_clients (delete userID (clients st2)) st2)
    else Some st.

Definition Run_broadcast (msg : BroadcastMessage) (st : State) : option State :=
  foldM (deliver msg) (map_to_list (clients st)) st.

(** [BroadcastToRoom]: the message is queued for [Hub.Run]. *)
Definition BroadcastToRoom (roomID : string) (data : json) (excludeUserID : string)
    (st : State) : State :=
  set_broadcast (broadcast st ++ [mkBroadcastMessage roomID data excludeUserID]) st.

Definition SendToUser (userID : string) (data : json) (st : State) : option State :=
  match clients st !! userID with
  | Some a => '(_, st1) ← offer a data st; Some st1
  | None => Some st
  end.


(** One iteration of [Hub.Run], by the channel the [select] receives
    from; on a channel nobody sends on, the loop keeps waiting. *)
Inductive ready : Type :=
| Register
| Unregister
| Broadcast.

Definition Run (ev : ready) (st : State) : option State :=
  match ev with
  | Register =>
      match register st with
      | [] => Some st
      | client :: rest => Run_register client (set_register rest st)
      end
  | Unregister =>
      match unregister st with
      | [] => Some st
      | client :: rest => Run_unregister client (set_unregister rest st)
      end
  | Broadcast =>
      match broadcast st with
      | [] => Some st
      | msg :: rest => Run_broadcast msg (set_broadcast rest st)
      end
  end.

End HubModel.
Export HubModel.

(** ** Domain operations ([internal/chat/room.go]) and the Session's
       loops and dispatch ([Client.readPump], [Client.writePump],
       [Client.handleMessage], [ServeWS])

    [time.Parse(time.RFC3339, _)] and [Time.Format(time.RFC3339)] belong
    to the standard library and are taken as parameters. *)
Module Room.
Section handlers.

Variable time_Parse : string → option Z.
Variable time_Format : Z → string.

(** [data, _ := NewWSMessage(...)]: the error is dropped and [data] is
    then the nil slice. *)
Definition ignore_err (r : option json) : json := default JNull r.

(** A storage call through [c.hub.DB]. *)
Definition storage {A : Type} (call : sqlDB → result A) (st : State)
    : option A * State :=
  let '(r, db) := call (DB st) in (r, set_DB db st).

Definition sendError (c : addr) (message code : string) (st : State)
    : option State :=
  let data := ignore_err (NewWSMessage TypeError
                            (Some (PError (mkErrorPayload message code)))) in
  '(_, st1) ← offer c data st; Some st1.

(** [go sendUnreadUpdates(hub, roomID, senderID)] *)
Definition go_sendUnreadUpdates (roomID senderID : string) (st : State) : State :=
  set_spawned (spawned st ++ [(roomID, senderID)]) st.

Definition HandleSendMessage (c : addr) (payload : SendMessagePayload) (st : State)
    : option State :=
  cl ← heap st !! c;
  if bool_decide (smp_Content payload = "") || bool_decide (smp_RoomID payload = "")
  then sendError c "content and room_id are required" "INVALID_PAYLOAD" st
  else
    let '(isMember, st1) := storage (IsRoomMember (smp_RoomID payload) (UserID cl)) st in
    match isMember with
    | Some true =>
        let '(created, st2) :=
          storage (CreateMessage (smp_RoomID payload) (UserID cl) (smp_Content payload)) st1 in
        match created with
        | None => sendError c "failed to send message" "INTERNAL_ERROR" st2
        | Some msg =>
            let m := mws_Message msg in
            match NewWSMessage TypeMessageNew
                    (Some (PNewMessage
                       (mkNewMessagePayload (m_ID m) (m_RoomID m) (m_SenderID m)
                          (mws_SenderUsername msg) (m_Content m)
                          (time_Format (m_CreatedAt m))))) with
            | None => Some st2
            | Some data =>
                Some (go_sendUnreadUpdates (smp_RoomID payload) (UserID cl)
                        (BroadcastToRoom (smp_RoomID payload) data "" st2))
            end
        end
    | _ => sendError c "not a member of this room" "NOT_MEMBER" st1
    end.

Definition HandleRoomJoin (c : addr) (payload : RoomPayload) (st : State)
    : option State :=
  cl ← heap st !! c;
  let '(r, st1) := storage (AddRoomMember (rp_RoomID payload) (UserID cl)) st in
  match r with
  | None => Some st1
  | Some _ =>
      let st2 :=
        set_heap (<[c := set_rooms ({[rp_RoomID payload]} ∪ rooms cl) cl]> (heap st1)) st1 in
      let data := ignore_err (NewWSMessage TypeRoomMemberJoined
                    (Some (PMemberEvent
                       (mkMemberEventPayload (rp_RoomID payload) (UserID cl) (Username cl))))) in
      Some (BroadcastToRoom (rp_RoomID payload) data "" st2)
  end.

Definition HandleRoomLeave (c : addr) (payload : RoomPayload) (st : State)
    : option State :=
  cl ← heap st !! c;
  let '(r, st1) := storage (RemoveRoomMember (rp_RoomID payload) (UserID cl)) st in
  match r with
  | None => Some st1
  | Some _ =>
      let st2 :=
        set_heap (<[c := set_rooms (rooms cl ∖ {[rp_RoomID payload]}) cl]> (heap st1)) st1 in
      let data := ignore_err (NewWSMessage TypeRoomMemberLeft
                    (Some (PMemberEvent
                       (mkMemberEventPayload (rp_RoomID payload) (UserID cl) (Username cl))))) in
      Some (BroadcastToRoom (rp_RoomID payload) data "" st2)
  end.

Definition HandleTyping (c : addr) (payload : RoomPayload) (isTyping : bool)
    (st : State) : option State :=
  cl ← heap st !! c;
  let data := ignore_err (NewWSMessage TypeTypingUpdate
                (Some (PTypingUpdate
                   (mkTypingUpdatePayload (rp_RoomID payload) (UserID cl) (Username cl)
                      isTyping)))) in
  Some (BroadcastToRoom (rp_RoomID payload) data (UserID cl) st).

Definition HandleMessageRead (c : addr) (payload : ReadPayload) (st : State)
    : option State :=
  cl ← heap st !! c;
  match time_Parse (rdp_Timestamp payload) with
  | None => Some st
  | Some t =>
      let '(r, st1) := storage (UpdateLastRead (rdp_RoomID payload) (UserID cl) t) st in
      match r with
      | None => Some st1
      | Some _ =>
          let data := ignore_err (NewWSMessage TypeReadReceipt
                        (Some (PReadReceipt
                           (mkReadReceiptPayload (rdp_RoomID payload) (UserID cl)
                              (Username cl) (rdp_Timestamp payload))))) in
          let st2 := BroadcastToRoom (rdp_RoomID payload) data (UserID cl) st1 in
          let unreadData := ignore_err (NewWSMessage TypeUnreadUpdate
                              (Some (PUnreadUpdate
                                 (mkUnreadUpdatePayload (rdp_RoomID payload) 0)))) in
          SendToUser (UserID cl) unreadData st2
      end
  end.

(** The loop body of [sendUnreadUpdates] for one member. *)
Definition unread_for (roomID senderID : string) (st : State) (member : User)
    : option State :=
  if decide (u_ID member = senderID) then Some st
  else
    let '(count, st1) := storage (GetUnreadCount roomID (u_ID member)) st in
    match count with
    | None => Some st1
    | Some n =>
        let data := ignore_err (NewWSMessage TypeUnreadUpdate
                      (Some (PUnreadUpdate (mkUnreadUpdatePayload roomID n)))) in
        SendToUser (u_ID member) data st1
    end.

Definition sendUnreadUpdates (roomID senderID : string) (st : State) : option State :=
  let '(members, st1) := storage (GetRoomMembers roomID) st in
  match members with
  | None => Some st1
  | Some l => foldM (unread_for roomID senderID) l st1
  end.

(** [Client.handleMessage]: a payload that does not decode is dropped,
    and so is a frame of another type. *)
Definition handleMessage (c : addr) (msg : WSMessage) (st : State) : option State :=
  let t := Type_ msg in
  if decide (t = TypeMessageSend) then
    match Unmarshal KSendMessage (Payload msg) with
    | Some (PSendMessage payload) => HandleSendMessage c payload st
    | _ => Some st
    end
  else if decide (t = TypeRoomJoin) then
    match Unmarshal KRoom (Payload msg) with
    | Some (PRoom payload) => HandleRoomJoin c payload st
    | _ => Some st
    end
  else if decide (t = TypeRoomLeave) then
    match Unmarshal KRoom (Payload msg) with
    | Some (PRoom payload) => HandleRoomLeave c payload st
    | _ => Some st
    end
  else if decide (t = TypeTypingStart) then
    match Unmarshal KRoom (Payload msg) with
    | Some (PRoom payload) => HandleTyping c payload true st
    | _ => Some st
    end
  else if decide (t = TypeTypingStop) then
    match Unmarshal KRoom (Payload msg) with
    | Some (PRoom payload) => HandleTyping c payload false st
    | _ => Some st
    end
  else if decide (t = TypeMessageRead) then
    match Unmarshal KRead (Payload msg) with
    | Some (PRead payload) => HandleMessageRead c payload st
    | _ => Some st
    end
  else if decide (t = TypePing) then
    '(_, st1) ← offer c (ignore_err (NewWSMessage TypePong None)) st; Some st1
  else Some st.

(** One turn of the loop of [readPump] on a text frame that was read:
    a frame that is no envelope is skipped. *)
Definition readPump (c : addr) (message : json) (st : State) : option State :=
  match Unmarshal_WSMessage message with
  | None => Some st
  | Some msg => handleMessage c msg st
  end.

(** One turn of the loop of [writePump]: the next queued frame is taken
    off the queue and written to the connection. *)
Definition writePump (c : addr) (st : State) : option (json * State) :=
  cl ← heap st !! c;
  '(frame, ch) ← Chan.recv (send cl);
  Some (frame, set_heap (<[c := set_send ch cl]> (heap st)) st).

(** The ids of the rooms [GetRoomsForUser] returns: the rooms the user
    has a membership row in. *)
Definition GetRoomsForUser (userID : string) : sqlDB → result (list string) :=
  Query (fun db =>
    rm ← room_members db;
    if bool_decide (rm_user_id rm = userID) then [rm_room_id rm] else []).

(** [ServeWS] once the token is validated and the connection upgraded:
    the new Client is allocated with the rooms storage lists (none when
    the lookup fails) and a queue of 256 frames, and sent on the Hub's
    register channel. *)
Definition ServeWS (userID username : string) (st : State) : State :=
  let '(userRooms, st1) := storage (GetRoomsForUser userID) st in
  let client := mkClient userID username (list_to_set (default [] userRooms))
                         (Chan.make 256) in
  let a := fresh (dom (heap st1)) in
  set_register (register st1 ++ [a]) (set_heap (<[a := client]> (heap st1)) st1).

(** The deferred function of [readPump]: the Client is sent on the
    Hub's unregister channel. *)
Definition readPump_exit (c : addr) (st : State) : State :=
  set_unregister (unregister st ++ [c]) st.

(** What the goroutines of the server may do next: a connection is
    accepted, [Hub.Run] takes a turn, a Session reads a frame, leaves its
    read loop or writes a queued frame, a started [sendUnreadUpdates]
    runs, time passes.  [step] is [None] when the step panics. *)
Inductive action : Type :=
| Connect (userID username : string)
| Hub (ev : ready)
| Read (c : addr) (message : json)
| ReadExit (c : addr)
| Write (c : addr)
| Go
| Tick (dt : N).

Definition advance (dt : N) (db : sqlDB) : sqlDB :=
  mkDB (users db) (room_members db) (messages db) (clock db + Z.of_N dt)%Z
       (faults db).

Definition step (act : action) (st : State) : option State :=
  match act with
  | Connect userID username => Some (ServeWS userID username st)
  | Hub ev => Run ev st
  | Read c message => readPump c message st
  | ReadExit c => _ ← heap st !! c; Some (readPump_exit c st)
  | Write c => Some (default st (snd <$> writePump c st))
  | Go =>
      match spawned st with
      | [] => Some st
      | (roomID, senderID) :: rest =>
          sendUnreadUpdates roomID senderID (set_spawned rest st)
      end
  | Tick dt => Some (set_DB (advance dt (DB st)) st)
  end.

Fixpoint steps (acts : list action) (st : State) : option State :=
  match acts with
  | [] => Some st
  | act :: rest => st1 ← step act st; steps rest st1
  end.

(** The states of a server started on the database [db]. *)
Inductive reachable : State → Prop :=
| reachable_init db : pk_room_members db → reachable (NewHub db)
| reachable_step act st st1 :
    reachable st → step act st = Some st1 → reachable st1.

End handlers.
End Room.
Export Room.

(** ** The client's view of presence (frontend: the hook [useWebSocket]
       and the presence listener of the chat context) *)
Module Frontend.

(** [obj.key] of a parsed document: [undefined] ([None]) off an object
    or without the member; the last of repeated members counts. *)
Definition prop (key : string) (j : json) : option json :=
  match j with
  | JObj members =>
      snd <$> List.find (fun kv => String.eqb kv.1 key) (rev members)
  | _ => None
  end.

(** The handler of [presence.update] on the set [onlineUsers]. *)
Definition on_presence (payload : json) (onlineUsers : gset string) : gset string :=
  match prop "user_id" payload with
  | Some (JStr user_id) =>
      match prop "status" payload with
      | Some (JStr status) =>
          if String.eqb status "online" then {[user_id]} ∪ onlineUsers
          else onlineUsers ∖ {[user_id]}
      | _ => onlineUsers ∖ {[user_id]}
      end
  | _ => onlineUsers
  end.

(** [ws.onmessage]: the frame is parsed and its payload handed to the
    listeners of its type; only the presence listener is modelled. *)
Definition onmessage (data : json) (onlineUsers : gset string) : gset string :=
  match prop "type" data, prop "payload" data with
  | Some (JStr t), Some payload =>
      if String.eqb t "presence.update" then on_presence payload onlineUsers
      else onlineUsers
  | _, _ => onlineUsers
  end.

(** The set after the frames written to the client, in order. *)
Definition online_after (frames : list json) (onlineUsers : gset string)
    : gset string :=
  foldl (fun s f => onmessage f s) onlineUsers frames.

End Frontend.
Export Frontend.

(** ** Properties stated about the model *)
Module Props.

Open Scope list_scope.

(** The unread count as the specification defines it: the messages of
    the room created after [last_read_at] and sent by somebody else. *)
Definition unread_spec (roomID userID : string) (last_read_at : Z)
    (msgs : list Message) : nat :=
  length (filter (fun m => m_RoomID m = roomID ∧ (last_read_at < m_CreatedAt m)%Z
                           ∧ m_SenderID m ≠ userID) msgs).

(** The Client after a non-blocking send of [data] on its open queue:
    the frame is appended unless the queue is full. *)
Definition enqueue (data : json) (c : Client) : Client :=
  if Chan.full (send c) then c
  else set_send (Chan.mkChan (Chan.buf (send c) ++ [data]) (Chan.cap (send c)) false) c.

(** The Client after [close(c.send)]. *)
Definition closed_client (c : Client) : Client :=
  set_send (Chan.mkChan (Chan.buf (send c)) (Chan.cap (send c)) true) c.

(** The Session at [a] is in the Hub's map. *)
Definition live (st : State) (a : addr) : Prop := ∃ u, clients st !! u = Some a.

(** The invariant of the Hub: a Session in the map is allocated, is
    stored under its own user id and its queue is open; the Clients that
    wait to be registered are distinct, allocated, open and not in the
    map. *)
Definition hub_ok (st : State) : Prop :=
  (∀ u a, clients st !! u = Some a →
     ∃ c, heap st !! a = Some c ∧ UserID c = u ∧ Chan.closed (send c) = false) ∧
  NoDup (register st) ∧
  (∀ a, a ∈ register st →
     (∃ c, heap st !! a = Some c ∧ Chan.closed (send c) = false) ∧ ¬ live st a).

(** At most one Session per user id in the Hub's map. *)
Definition at_most_one_session (st : State) : Prop :=
  ∀ u1 u2 a1 a2 c1 c2,
    clients st !! u1 = Some a1 → clients st !! u2 = Some a2 →
    heap st !! a1 = Some c1 → heap st !! a2 = Some c2 →
    UserID c1 = UserID c2 → a1 = a2.

(** How a state may change without a registration: the map only loses
    entries, every Client stays allocated with its user id, and a queue
    changes between open and closed only for a Session that leaves the
    map. *)
Definition evolves (st st' : State) : Prop :=
  clients st' ⊆ clients st ∧ register st' = register st ∧
  ∀ a c, heap st !! a = Some c →
    ∃ c', heap st' !! a = Some c' ∧ UserID c' = UserID c ∧
          (Chan.closed (send c') = Chan.closed (send c) ∨ (live st a ∧ ¬ live st' a)).

(** What a loop over the Hub's map does to one Session: the Client it
    leaves at the address, and whether the entry stays in the map. *)
Definition visit (f : string → Client → Client * bool) (st : State)
    (u : string) (a : addr) (c : Client) : State :=
  let st1 := set_heap (<[a := (f u c).1]> (heap st)) st in
  if (f u c).2 then st1 else set_clients (delete u (clients st1)) st1.

(** A broadcast is addressed to the Sessions subscribed to its room,
    but for the excluded user. *)
Definition targeted (msg : BroadcastMessage) (u : string) (c : Client) : bool :=
  negb (bool_decide (u = ExcludeUserID msg)) && bool_decide (RoomID msg ∈ rooms c).

(** The room broadcast at one Session: a full queue is closed and the
    Session leaves the map. *)
Definition deliver_to (msg : BroadcastMessage) (u : string) (c : Client)
    : Client * bool :=
  if targeted msg u c then
    if Chan.full (send c) then (closed_client c, false)
    else (enqueue (Data msg) c, true)
  else (c, true).

(** The presence broadcast at one Session: a full queue is left alone. *)
Definition notify (data : json) (u : string) (c : Client) : Client * bool :=
  (enqueue data c, true).

(** The removal of the unregister case at the Session it removes. *)
Definition remove (u : string) (c : Client) : Client * bool :=
  (closed_client c, false).

(** The state the unregister case of [Hub.Run] reaches for the Client
    [c] at [a] before it broadcasts: the Session is removed when the map
    holds this very Client. *)
Definition unregistered (a : addr) (c : Client) (st : State) : State :=
  if decide (clients st !! UserID c = Some a)
  then set_heap (<[a := closed_client c]> (heap st))
         (set_clients (delete (UserID c) (clients st)) st)
  else st.

(** What a non-blocking send of [data] makes of the Session [c], stored
    at [a] under [u], by the state before ([c]) and after ([st']): with
    room in the queue the frame is appended behind the queued ones; with
    a full queue the Session is evicted. *)
Definition evicted (st' : State) (u : string) (a : addr) (c : Client) : Prop :=
  heap st' !! a = Some (closed_client c) ∧ clients st' !! u = None.

Definition appended (data : json) (st' : State) (u : string) (a : addr)
    (c : Client) : Prop :=
  heap st' !! a
  = Some (set_send (Chan.mkChan (Chan.buf (send c) ++ [data]) (Chan.cap (send c)) false) c)
  ∧ clients st' !! u = Some a.

Definition untouched (st' : State) (u : string) (a : addr) (c : Client) : Prop :=
  heap st' !! a = Some c ∧ clients st' !! u = Some a.

Definition enqueued_or_evicted (data : json) (st' : State) (u : string)
    (a : addr) (c : Client) : Prop :=
  if Chan.full (send c) then evicted st' u a c else appended data st' u a c.

(** The slow-consumer policy read as holding at every site of a
    non-blocking send: the room broadcast, the presence broadcast and the
    point-to-point send all evict a Session whose queue is full. *)
Definition every_full_enqueue_evicts : Prop :=
  ∀ st u a c,
    hub_ok st → clients st !! u = Some a → heap st !! a = Some c →
    Chan.full (send c) = true →
    (∀ msg st', targeted msg u c = true → Run_broadcast msg st = Some st' →
       evicted st' u a c) ∧
    (∀ userID username status st',
       broadcastPresence userID username status st = Some st' → evicted st' u a c) ∧
    (∀ data st', SendToUser u data st = Some st' → evicted st' u a c).

(** The frames of the domain operations. *)
Definition error_frame (message code : string) : json :=
  JObj [("type", JStr "error");
        ("payload", JObj [("message", JStr (coerce message));
                          ("code", JStr (coerce code))])].

Definition unread_frame (roomID : string) (count : Z) : json :=
  JObj [("type", JStr "unread.update");
        ("payload", JObj [("room_id", JStr (coerce roomID)); ("count", JNum count)])].

Definition read_receipt_frame (roomID userID username last_read_at : string) : json :=
  JObj [("type", JStr "read_receipt.update");
        ("payload", JObj [("room_id", JStr (coerce roomID));
                          ("user_id", JStr (coerce userID));
                          ("username", JStr (coerce username));
                          ("last_read_at", JStr (coerce last_read_at))])].

(** Nothing is emitted between [st] and [st']: no Session's queue or
    room set changes, no broadcast is queued, no goroutine started. *)
Definition silent (st st' : State) : Prop :=
  heap st' = heap st ∧ clients st' = clients st ∧ register st' = register st ∧
  unregister st' = unregister st ∧ broadcast st' = broadcast st ∧
  spawned st' = spawned st.

(** Nothing reaches a Session other than [c]. *)
Definition quiet_for_others (c : addr) (st st' : State) : Prop :=
  clients st' = clients st ∧ broadcast st' = broadcast st ∧
  spawned st' = spawned st ∧ ∀ b, b ≠ c → heap st' !! b = heap st !! b.

(** The tables are those of [db]. *)
Definition same_tables (db db' : sqlDB) : Prop :=
  users db' = users db ∧ room_members db' = room_members db ∧
  messages db' = messages db.



(** [last_read_at] read as the maximum of the stored and the submitted
    timestamp. *)
Definition mark_read_keeps_max : Prop :=
  ∀ (time_Parse : string → option Z) c payload st st' cl t rm,
    hub_ok st → heap st !! c = Some cl →
    time_Parse (rdp_Timestamp payload) = Some t →
    hd false (faults (DB st)) = false →
    membership (rdp_RoomID payload) (UserID cl) (DB st) = Some rm →
    HandleMessageRead time_Parse c payload st = Some st' →
    ∃ rm', membership (rdp_RoomID payload) (UserID cl) (DB st') = Some rm' ∧
           rm_last_read_at rm' = Z.max (rm_last_read_at rm) t.

(** The row after [last_read_at] is set. *)
Definition with_last_read (t : Z) (rm : Member) : Member :=
  mkMember (rm_room_id rm) (rm_user_id rm) (rm_joined_at rm) t.

Definition typing_frame (roomID userID username : string) (is_typing : bool) : json :=
  JObj [("type", JStr "typing.update");
        ("payload", JObj [("room_id", JStr (coerce roomID));
                          ("user_id", JStr (coerce userID));
                          ("username", JStr (coerce username));
                          ("is_typing", JBool is_typing)])].

Definition member_frame (tag roomID userID username : string) : json :=
  JObj [("type", JStr (coerce tag));
        ("payload", JObj [("room_id", JStr (coerce roomID));
                          ("user_id", JStr (coerce userID));
                          ("username", JStr (coerce username))])].

(** The frames of the four domain operations that call storage. *)
Definition domain_op (t : string) : Prop :=
  t = TypeMessageSend ∨ t = TypeRoomJoin ∨ t = TypeRoomLeave ∨ t = TypeMessageRead.

(** The frames that lead to a room broadcast. *)
Definition room_op (t : string) : Prop :=
  t = TypeMessageSend ∨ t = TypeTypingStart ∨ t = TypeTypingStop
  ∨ t = TypeRoomLeave ∨ t = TypeMessageRead.

(** A storage call made between [st] and [st'] returned an error. *)
Definition storage_failed (st st' : State) : Prop :=
  ∃ used, faults (DB st) = used ++ faults (DB st') ∧ true ∈ used.

(** Storage errors read as always reported: the sender, whose queue is
    open and has room, gets an error frame with code INTERNAL_ERROR. *)
Definition storage_errors_reported : Prop :=
  ∀ (time_Parse : string → option Z) (time_Format : Z → string) c msg st st' cl,
    hub_ok st → heap st !! c = Some cl →
    Chan.closed (send cl) = false → Chan.full (send cl) = false →
    domain_op (Type_ msg) →
    handleMessage time_Parse time_Format c msg st = Some st' →
    storage_failed st st' →
    (∃ message,
       heap st' !! c = Some (enqueue (error_frame message "INTERNAL_ERROR") cl)) ∧
    quiet_for_others c st st'.

(** The user has a membership row in the room. *)
Definition is_member (roomID userID : string) (db : sqlDB) : bool :=
  existsb (is_key roomID userID) (room_members db).

(** Room broadcasts read as published for persisted members only. *)
Definition broadcasts_need_membership : Prop :=
  ∀ (time_Parse : string → option Z) (time_Format : Z → string) c msg st st' cl m,
    heap st !! c = Some cl → room_op (Type_ msg) →
    handleMessage time_Parse time_Format c msg st = Some st' →
    broadcast st' = broadcast st ++ [m] →
    is_member (RoomID m) (UserID cl) (DB st) = true.

(** A [message.send] payload that passes validation. *)
Definition valid_send (p : SendMessagePayload) : Prop :=
  smp_Content p ≠ "" ∧ smp_RoomID p ≠ "".

(** [f] keeps the user id, and the queue open where the entry stays. *)
Definition gentle (f : string → Client → Client * bool) : Prop :=
  ∀ u c, Chan.closed (send c) = false →
    UserID (f u c).1 = UserID c ∧
    ((f u c).2 = true → Chan.closed (send (f u c).1) = false).

End Props.
Export Props.

(** ** Concrete runs

    A small database and an instance of the time functions (the first
    minute of the epoch, in seconds) to evaluate the model on. *)
Module Examples.

Open Scope list_scope.

(** The string of the given bytes. *)
Definition bytes (l : list nat) : string :=
  foldr (fun n => String (ascii_of_nat n)) "" l.

Definition demo_Format (t : Z) : string :=
  "1970-01-01T00:00:" +:+ (if (t <? 10)%Z then "0" else "") +:+ pretty t +:+ "Z".

Definition demo_Parse (s : string) : option Z :=
  List.find (fun t => String.eqb (demo_Format t) s) (seqZ 0 60).

Definition demo_db : sqlDB :=
  mkDB [mkUser "u1" "alice" "a@x" "" 0; mkUser "u2" "bob" "b@x" "" 0;
        mkUser "u3" "carol" "c@x" "" 0]
       [mkMember "r1" "u1" 1 10; mkMember "r1" "u2" 2 10]
       [mkMessage "m0" "r1" "u1" "hi" 5; mkMessage "m1" "r1" "u1" "there" 12;
        mkMessage "m2" "r1" "u2" "yo" 15; mkMessage "m3" "r2" "u1" "x" 20]
       30 [].

Definition run (acts : list action) (st : State) : State :=
  default st (steps demo_Parse demo_Format acts st).

(** Alice is connected and connects a second time: her second Client
    waits to be registered. *)
Definition st_reconnecting : State :=
  run [Connect "u1" "alice"; Hub Register; Connect "u1" "alice"] (NewHub demo_db).

(** The Client at an address of a state of the examples. *)
Definition session (st : State) (a : addr) : Client :=
  default (mkClient "" "" ∅ (Chan.make 0)) (heap st !! a).

(** Alice and Bob are connected, both subscribed to [r1]. *)
Definition st_two : State :=
  run [Connect "u1" "alice"; Hub Register; Connect "u2" "bob"; Hub Register]
      (NewHub demo_db).

Definition ping_frame : json := JObj [("type", JStr "ping")].

(** Alice is connected and her client, which reads nothing, has sent
    255 pings: with the presence frame of her registration her queue
    holds 256 frames. *)
Definition st_full : State :=
  run ([Connect "u1" "alice"; Hub Register] ++ replicate 255 (Read 0%nat ping_frame))
      (NewHub demo_db).

(** Alice and Bob are connected; Alice connects again, her second
    Client is registered, and then the read loop of her first Client
    ends and the Hub handles its unregistration. *)
Definition st_displaced : State :=
  run [Connect "u1" "alice"; Hub Register; Connect "u2" "bob"; Hub Register;
       Connect "u1" "alice"; Hub Register; ReadExit 0%nat; Hub Unregister]
      (NewHub demo_db).

Definition presence_frame (userID username status : string) : json :=
  JObj [("type", JStr "presence.update");
        ("payload", JObj [("user_id", JStr (coerce userID));
                          ("username", JStr (coerce username));
                          ("status", JStr (coerce status))])].

Definition early_read : ReadPayload := mkReadPayload "r1" "1970-01-01T00:00:05Z".

(** The same database with a driver error due on the third call. *)
Definition demo_db_flaky : sqlDB :=
  mkDB (users demo_db) (room_members demo_db) (messages demo_db) (clock demo_db)
       [false; false; true].

(** Alice and Bob are connected (two calls were answered); the next
    storage call fails. *)
Definition st_flaky : State :=
  run [Connect "u1" "alice"; Hub Register; Connect "u2" "bob"; Hub Register]
      (NewHub demo_db_flaky).

Definition join_r2 : WSMessage :=
  mkWSMessage TypeRoomJoin (Some (JObj [("room_id", JStr "r2")])).

(** Alice, Bob and Carol are connected; Carol is no member of [r1]. *)
Definition st_three : State :=
  run [Connect "u1" "alice"; Hub Register; Connect "u2" "bob"; Hub Register;
       Connect "u3" "carol"; Hub Register]
      (NewHub demo_db).

Definition typing_r1 : WSMessage :=
  mkWSMessage TypeTypingStart (Some (JObj [("room_id", JStr "r1")])).

(** Alice and Bob are connected and their writers have written the
    presence frames; Alice sends [hi] to [r1], the Hub handles the
    broadcast and the unread updates run. *)
Definition send_hi : json :=
  JObj [("type", JStr "message.send");
        ("payload", JObj [("room_id", JStr "r1"); ("content", JStr "hi")])].

Definition st_fan_out : State :=
  run [Connect "u1" "alice"; Hub Register; Connect "u2" "bob"; Hub Register;
       Write 0%nat; Write 0%nat; Write 1%nat;
       Read 0%nat send_hi; Hub Broadcast; Go]
      (NewHub demo_db).

Definition message_new_hi : json :=
  JObj [("type", JStr "message.new");
        ("payload", JObj [("id", JStr "m4"); ("room_id", JStr "r1");
                          ("sender_id", JStr "u1"); ("sender_username", JStr "alice");
                          ("content", JStr "hi");
                          ("created_at", JStr "1970-01-01T00:00:30Z")])].

End Examples.
Export Examples.
From stdpp Require sorting.


(** ** The life of a Client

    What the code ever does to a Client once it is allocated: a frame is
    sent on its open queue, the queue is closed, its room set is replaced
    ([grow_step]), or its writer receives a frame from the queue. *)
Module Lives.

Open Scope list_scope.

Inductive grow_step : Client → Client → Prop :=
| sent_to c x ch :
    Chan.try_send (send c) x = Chan.Sent ch → grow_step c (set_send ch c)
| closed_by c ch :
    Chan.close (send c) = Some ch → grow_step c (set_send ch c)
| rooms_set c r : grow_step c (set_rooms r c).

Inductive client_step : Client → Client → Prop :=
| grows c c' : grow_step c c' → client_step c c'
| received_from c x ch :
    Chan.recv (send c) = Some (x, ch) → client_step c (set_send ch c).

(** A Client as [ServeWS] allocates it. *)
Definition newborn (c : Client) : Prop := send c = Chan.make 256.

(** Between two states every Client stays allocated, and every Client of
    the later state is one of the earlier state, or one allocated in
    between, after steps of [R]. *)
Definition descends_by (R : Client → Client → Prop) (st st' : State) : Prop :=
  (∀ a, is_Some (heap st !! a) → is_Some (heap st' !! a)) ∧
  ∀ a c', heap st' !! a = Some c' →
    match heap st !! a with
    | Some c => rtc R c c'
    | None => ∃ c0, newborn c0 ∧ rtc R c0 c'
    end.

(** The queue holds no more frames than its capacity, which is 256. *)
Definition bounded (c : Client) : Prop :=
  Chan.cap (send c) = 256%nat ∧ (length (Chan.buf (send c)) ≤ 256)%nat.

(** What one step does to the frames of a Client: frames are added at
    the back, or the frame at the front is taken. *)
Definition appended_to (c c' : Client) : Prop :=
  ∃ added, Chan.buf (send c') = Chan.buf (send c) ++ added.

Definition front_taken (c c' : Client) : Prop :=
  ∃ x, Chan.buf (send c) = x :: Chan.buf (send c').

(** [c'] is the closed Client [c] with frames taken off the front only. *)
Definition drained (c c' : Client) : Prop :=
  Chan.closed (send c') = true ∧
  ∃ k, Chan.buf (send c') = drop k (Chan.buf (send c)).

(** Alice's first Client after her second one is registered: its queue
    is closed. *)
Definition st_closed : State := run [Hub Register] st_reconnecting.

Definition after_closed : list action :=
  [Connect "u2" "bob"; Hub Register; Read 1%nat send_hi; Hub Broadcast; Go;
   Write 0%nat].

End Lives.
Export Lives.

(** ** More of the Hub *)
Module HubMore.

Open Scope list_scope.

(** [Hub.Shutdown]: the queue of every Session in the map is closed; the
    map is left as it is. *)
Definition Shutdown (st : State) : option State :=
  foldM (fun s '(_, a) => close_send a s) (map_to_list (clients st)) st.

(** A connection from its acceptance to the end of its unregistration,
    with nothing else going on. *)
Definition visit_of (userID username : string) (st : State) : list action :=
  [Connect userID username; Hub Register;
   ReadExit (fresh (dom (heap st))); Hub Unregister].

End HubMore.
Export HubMore.

(** ** The tables under the server's steps *)
Module Tables.

Open Scope list_scope.

(** What the WebSocket side of the server does to the database: one of
    the storage calls it makes, or time passing. *)
Inductive db_call : sqlDB → sqlDB → Prop :=
| call_AddRoomMember r u db : db_call db (AddRoomMember r u db).2
| call_RemoveRoomMember r u db : db_call db (RemoveRoomMember r u db).2
| call_GetRoomMembers r db : db_call db (GetRoomMembers r db).2
| call_IsRoomMember r u db : db_call db (IsRoomMember r u db).2
| call_CreateMessage r s content db : db_call db (CreateMessage r s content db).2
| call_UpdateLastRead r u t db : db_call db (UpdateLastRead r u t db).2
| call_GetUnreadCount r u db : db_call db (GetUnreadCount r u db).2
| call_GetRoomsForUser u db : db_call db (GetRoomsForUser u db).2
| clock_advances dt db : db_call db (advance dt db).

Definition moves (st st' : State) : Prop := rtc db_call (DB st) (DB st').

(** The history of a table that only grows at its end. *)
Definition extends {A : Type} (l l' : list A) : Prop := ∃ added, l' = l ++ added.

(** Bob sends [hi] to [r1], the Hub delivers it, the unread counts go
    out and five seconds pass. *)
Definition st_sent : State :=
  run [Read 1%nat send_hi; Hub Broadcast; Go; Tick 5%N] st_two.

End Tables.
Export Tables.

(** ** A domain operation followed by the Hub's turn *)
Module Turns.

Open Scope list_scope.

(** The [message.new] frame of a stored message. *)
Definition message_frame (time_Format : Z → string) (msg : MessageWithSender) : json :=
  let m := mws_Message msg in
  JObj [("type", JStr "message.new");
        ("payload", JObj [("id", JStr (coerce (m_ID m)));
                          ("room_id", JStr (coerce (m_RoomID m)));
                          ("sender_id", JStr (coerce (m_SenderID m)));
                          ("sender_username", JStr (coerce (mws_SenderUsername msg)));
                          ("content", JStr (coerce (m_Content m)));
                          ("created_at", JStr (coerce (time_Format (m_CreatedAt m))))])].

(** What the Hub's broadcast turn makes of a Session that is addressed
    ([to] holds) or not. *)
Definition reached (to : bool) (data : json) (st' : State) (u : string) (a : addr)
    (c : Client) : Prop :=
  if to then enqueued_or_evicted data st' u a c else untouched st' u a c.

End Turns.
Export Turns.

(** ** What the browser sends (frontend: the hook [useWebSocket] and the
       chat context)

    A JavaScript string is taken by its UTF-8 encoding, as the text
    frame carries it. *)
Module Wire.

Open Scope list_scope.

(** [send(type, payload)] of the hook: [JSON.stringify({ type, payload })],
    which leaves out a payload that is [undefined]. *)
Definition ws_send (type : string) (payload : option json) : json :=
  JObj (("type", JStr type) ::
        match payload with Some p => [("payload", p)] | None => [] end).

(** The frames of the chat context. *)
Definition of_room (type roomId : string) : json :=
  ws_send type (Some (JObj [("room_id", JStr roomId)])).

Definition sendMessage (roomId content : string) : json :=
  ws_send "message.send"
    (Some (JObj [("room_id", JStr roomId); ("content", JStr content)])).

Definition markAsRead (roomId : string) : json := of_room "message.read" roomId.
Definition startTyping (roomId : string) : json := of_room "typing.start" roomId.
Definition stopTyping (roomId : string) : json := of_room "typing.stop" roomId.
Definition joinRoom (id : string) : json := of_room "room.join" id.

(** The keep-alive of the hook: [JSON.stringify({ type: 'ping' })]. *)
Definition keepalive : json := ws_send "ping" None.

End Wire.
Export Wire.

(** ** The message history ([database.GetMessages] and the handler
       [handlers.GetMessages]) *)
Module Paging.

Open Scope list_scope.

(** [ORDER BY m.created_at DESC]: [x] may come before [y]. *)
Definition newer (x y : MessageWithSender) : Prop :=
  (m_CreatedAt (mws_Message y) ≤ m_CreatedAt (mws_Message x))%Z.

#[global] Instance newer_dec (x y : MessageWithSender) : Decision (newer x y) :=
  decide (m_CreatedAt (mws_Message y) ≤ m_CreatedAt (mws_Message x))%Z.

(** [FROM messages m JOIN users u ON m.sender_id = u.id
     WHERE m.room_id = $1 AND m.created_at < $2] *)
Definition history_rows (roomID : string) (before : Z) (db : sqlDB)
    : list MessageWithSender :=
  m ← messages db;
  u ← users db;
  if bool_decide (m_SenderID m = u_ID u) && bool_decide (m_RoomID m = roomID)
     && (m_CreatedAt m <? before)%Z
  then [mkMessageWithSender m (u_Username u)] else [].

(** [database.GetMessages]: the rows in descending order of
    [created_at], cut at [LIMIT $3]; the server refuses a negative limit.
    Rows of equal [created_at] come in the order the sort leaves them. *)
Definition GetMessages (roomID : string) (before : Z) (limit : Z) (db : sqlDB)
    : result (list MessageWithSender) :=
  let '(failed, db1) := round_trip db in
  if failed || (limit <? 0)%Z then (None, db1)
  else (Some (take (Z.to_nat limit)
                    (sorting.merge_sort newer (history_rows roomID before db1))),
        db1).

(** The responses of the handler. *)
Inductive response (A : Type) : Type :=
| Forbidden
| InternalServerError
| OK (body : A).
Arguments Forbidden {A}.
Arguments InternalServerError {A}.
Arguments OK {A} _.

Section handler.

(** [strconv.Atoi], [time.Parse(time.RFC3339, _)] and the server's
    [time.Now()] are taken as parameters. *)
Variable strconv_Atoi : string → option Z.
Variable time_Parse : string → option Z.
Variable time_Now : Z.

(** The two query parameters; [Query().Get] gives the empty string for
    a parameter that is absent. *)
Definition before_of (beforeStr : string) : Z :=
  if decide (beforeStr = "") then time_Now
  else default time_Now (time_Parse beforeStr).

Definition limit_of (limitStr : string) : Z :=
  if decide (limitStr = "") then 50%Z
  else match strconv_Atoi limitStr with
       | Some l => if (0 <? l)%Z && (l <=? 100)%Z then l else 50%Z
       | None => 50%Z
       end.

(** [handlers.GetMessages] for the room [roomID] and the authenticated
    user [userID]. *)
Definition GetMessages_handler (roomID userID beforeStr limitStr : string) (db : sqlDB)
    : response (list MessageWithSender) * sqlDB :=
  let '(isMember, db1) := IsRoomMember roomID userID db in
  match isMember with
  | Some true =>
      let '(r, db2) :=
        GetMessages roomID (before_of beforeStr) (limit_of limitStr) db1 in
      match r with
      | Some msgs => (OK msgs, db2)
      | None => (InternalServerError, db2)
      end
  | _ => (Forbidden, db1)
  end.

End handler.

(** [strconv.Atoi] on the decimal numerals used in the examples. *)
Definition demo_Atoi (s : string) : option Z :=
  List.find (fun n => String.eqb (pretty n) s) (seqZ (-5) 1006).

End Paging.
Export Paging.

(** ** The browser's unread counts (frontend: the [unread.update]
       listener of the chat context) *)
Module Listeners.

Open Scope list_scope.

(** A room of the sidebar, by its id and its [unread_count]; [None] is
    [undefined]. *)
Record RoomView : Type := mkRoomView {
  rv_id : string;
  rv_unread_count : option json
}.

(** [r.id === payload.room_id] *)
Definition same_room (r : RoomView) (payload : json) : bool :=
  match prop "room_id" payload with
  | Some (JStr s) => String.eqb (rv_id r) s
  | _ => false
  end.

(** [setRooms(prev => prev.map(r => r.id === payload.room_id
       ? { ...r, unread_count: payload.unread_count } : r))];
    [None] when reading a property of an [undefined] or [null] payload
    throws, which it does once there is a room to map over. *)
Definition on_unread (payload : option json) (rooms : list RoomView)
    : option (list RoomView) :=
  match rooms with
  | [] => Some []
  | _ =>
      match payload with
      | None | Some JNull => None
      | Some p =>
          Some ((fun r => if same_room r p
                          then mkRoomView (rv_id r) (prop "unread_count" p)
                          else r) <$> rooms)
      end
  end.

(** [ws.onmessage] for the rooms of the sidebar, with the listener of
    [unread.update] alone. *)
Definition onmessage_rooms (data : json) (rooms : list RoomView)
    : option (list RoomView) :=
  match prop "type" data with
  | Some (JStr t) =>
      if String.eqb t "unread.update" then on_unread (prop "payload" data) rooms
      else Some rooms
  | _ => Some rooms
  end.

End Listeners.
Export Listeners.

(** ** Frames the server has no case for *)
Module Safety.

Open Scope list_scope.

(** The tags [Client.handleMessage] has a case for. *)
Definition inbound_tags : list string :=
  [TypeMessageSend; TypeRoomJoin; TypeRoomLeave; TypeTypingStart; TypeTypingStop;
   TypeMessageRead; TypePing].

End Safety.
Export Safety.

(** ** Presence as the browsers see it *)
Module Views.

Open Scope list_scope.

(** Alice is connected and Bob's Client waits to be registered. *)
Definition st_joining : State :=
  run [Connect "u1" "alice"; Hub Register; Connect "u2" "bob"] (NewHub demo_db).

(** Alice and Bob are connected and Bob's read loop has ended. *)
Definition st_leaving : State := run [ReadExit 1%nat] st_two.

End Views.
Export Views.

(** ** Rooms ([database.CreateRoom], [database.GetRoomByID],
       [database.GetOrCreateDMRoom] and the handler [handlers.JoinRoom]) *)
Module Rooms.

Open Scope list_scope.

Record Room : Type := mkRoom {
  r_ID : string;
  r_Name : string;
  r_Type : string;
  r_CreatedBy : string;
  r_CreatedAt : Z
}.

(** The database with the table [rooms] beside the tables of the core. *)
Record pgDB : Type := mkPG {
  rooms_table : list Room;
  tables : sqlDB
}.

Definition with_tables (t : sqlDB) (db : pgDB) : pgDB := mkPG (rooms_table db) t.

(** A call of the core on the larger database. *)
Definition lift {A : Type} (call : sqlDB → result A) (db : pgDB) : option A * pgDB :=
  let '(r, t) := call (tables db) in (r, with_tables t db).

Definition room_ids (db : pgDB) : gset string := list_to_set (r_ID <$> rooms_table db).

Section queries.

(** Whether the server takes a text as a [VARCHAR(100)]. *)
Variable text_ok : string → bool.

(** [INSERT INTO rooms (name, type, created_by) VALUES ($1, $2, $3)
     RETURNING ...]: the id is a new one, [created_at] is [NOW()]; the
    statement fails on a name the column does not take, on a type other
    than ['group'] and ['dm'] (the [CHECK]) and on a creator who is no
    user (the foreign key). *)
Definition CreateRoom (name roomType createdBy : string) (db : pgDB)
    : option Room * pgDB :=
  let '(failed, t) := round_trip (tables db) in
  if failed then (None, with_tables t db)
  else if text_ok name
          && bool_decide (roomType = "group" ∨ roomType = "dm")
          && existsb (fun u => bool_decide (u_ID u = createdBy)) (users t)
  then
    let room := mkRoom (fresh (room_ids db)) name roomType createdBy (clock t) in
    (Some room, mkPG (rooms_table db ++ [room]) t)
  else (None, with_tables t db).

(** [SELECT ... FROM rooms WHERE id = $1]; no row is [(nil, nil)]. *)
Definition GetRoomByID (id : string) (db : pgDB) : option (option Room) * pgDB :=
  let '(failed, t) := round_trip (tables db) in
  if failed then (None, with_tables t db)
  else (Some (List.find (fun r => bool_decide (r_ID r = id)) (rooms_table db)),
        with_tables t db).

(** [SELECT rm1.room_id FROM room_members rm1
     JOIN room_members rm2 ON rm1.room_id = rm2.room_id
     JOIN rooms r ON r.id = rm1.room_id
     WHERE rm1.user_id = $1 AND rm2.user_id = $2 AND r.type = 'dm'] *)
Definition dm_candidates (userID1 userID2 : string) (db : pgDB) : list string :=
  rm1 ← room_members (tables db);
  rm2 ← room_members (tables db);
  r ← rooms_table db;
  if bool_decide (rm_room_id rm1 = rm_room_id rm2)
     && bool_decide (r_ID r = rm_room_id rm1)
     && bool_decide (rm_user_id rm1 = userID1)
     && bool_decide (rm_user_id rm2 = userID2)
     && bool_decide (r_Type r = "dm")
  then [rm_room_id rm1] else [].

(** [database.GetOrCreateDMRoom]; [LIMIT 1] takes the first row. *)
Definition GetOrCreateDMRoom (userID1 userID2 : string) (db : pgDB)
    : option (option Room) * pgDB :=
  let '(failed, t) := round_trip (tables db) in
  let db1 := with_tables t db in
  if failed then (None, db1)
  else
    match dm_candidates userID1 userID2 db1 with
    | roomID :: _ => GetRoomByID roomID db1
    | [] =>
        let '(created, db2) := CreateRoom "" "dm" userID1 db1 in
        match created with
        | None => (None, db2)
        | Some room =>
            let '(r1, db3) := lift (AddRoomMember (r_ID room) userID1) db2 in
            match r1 with
            | None => (None, db3)
            | Some _ =>
                let '(r2, db4) := lift (AddRoomMember (r_ID room) userID2) db3 in
                match r2 with
                | None => (None, db4)
                | Some _ => (Some (Some room), db4)
                end
            end
        end
    end.

End queries.

(** The answers of [handlers.JoinRoom]. *)
Inductive status : Type :=
| StatusOK
| StatusNotFound
| StatusInternalServerError.

(** [handlers.JoinRoom] for the room [roomID] and the authenticated user
    [userID]. *)
Definition JoinRoom (roomID userID : string) (db : pgDB) : status * pgDB :=
  let '(room, db1) := GetRoomByID roomID db in
  match room with
  | Some (Some _) =>
      let '(r, db2) := lift (AddRoomMember roomID userID) db1 in
      match r with
      | Some _ => (StatusOK, db2)
      | None => (StatusInternalServerError, db2)
      end
  | _ => (StatusNotFound, db1)
  end.

(** The demo database with a DM room of Alice and Carol, and Bob. *)
Definition demo_pg : pgDB :=
  mkPG [mkRoom "r1" "general" "group" "u1" 0; mkRoom "r2" "" "dm" "u1" 0]
       (mkDB (users demo_db)
             (room_members demo_db ++ [mkMember "r2" "u1" 3 10; mkMember "r2" "u3" 3 10])
             (messages demo_db) (clock demo_db) []).

Definition demo_text_ok (s : string) : bool := (String.length s <=? 100)%nat.

End Rooms.
Export Rooms.

(** ** The list of rooms ([database.GetRoomsForUser] in full and
       [database.GetDMRooms]) *)
Module Listing.

Open Scope list_scope.

Record RoomWithUnread : Type := mkRoomWithUnread {
  rw_Room : Room;
  rw_UnreadCount : Z;
  rw_LastMessage : string;
  rw_LastMessageAt : option Z
}.

(** [SELECT COUNT( * ) AS cnt FROM messages m WHERE m.room_id = r.id
     AND m.created_at > rm.last_read_at AND m.sender_id != $1] *)
Definition unread_cnt (roomID userID : string) (last_read_at : Z) (t : sqlDB) : Z :=
  Z.of_nat (length (filter (fun m => m_RoomID m = roomID
                                     ∧ (last_read_at < m_CreatedAt m)%Z
                                     ∧ m_SenderID m ≠ userID) (messages t))).

(** [SELECT content, created_at FROM messages WHERE room_id = r.id
     ORDER BY created_at DESC LIMIT 1] *)
Definition later (x y : Message) : Prop := (m_CreatedAt y ≤ m_CreatedAt x)%Z.

#[global] Instance later_dec (x y : Message) : Decision (later x y) :=
  decide (m_CreatedAt y ≤ m_CreatedAt x)%Z.

Definition last_msg (roomID : string) (t : sqlDB) : option Message :=
  head (sorting.merge_sort later (filter (fun m => m_RoomID m = roomID) (messages t))).

(** [ORDER BY COALESCE(last_msg.created_at, r.created_at) DESC] *)
Definition activity (x : RoomWithUnread) : Z :=
  default (r_CreatedAt (rw_Room x)) (rw_LastMessageAt x).

Definition listed_before (x y : RoomWithUnread) : Prop := (activity y ≤ activity x)%Z.

#[global] Instance listed_before_dec (x y : RoomWithUnread)
    : Decision (listed_before x y) := decide (activity y ≤ activity x)%Z.

(** The rows of the two queries: [rooms] joined with the caller's
    memberships and the two lateral subqueries; [GetDMRooms] adds
    [AND r.type = 'dm']. *)
Definition room_rows (only_dm : bool) (userID : string) (db : pgDB)
    : list RoomWithUnread :=
  r ← rooms_table db;
  rm ← room_members (tables db);
  if bool_decide (r_ID r = rm_room_id rm) && bool_decide (rm_user_id rm = userID)
     && (negb only_dm || bool_decide (r_Type r = "dm"))
  then
    let last := last_msg (r_ID r) (tables db) in
    [mkRoomWithUnread r (unread_cnt (r_ID r) userID (rm_last_read_at rm) (tables db))
       (default "" (m_Content <$> last)) (m_CreatedAt <$> last)]
  else [].

Definition list_rooms (only_dm : bool) (userID : string) (db : pgDB)
    : option (list RoomWithUnread) * pgDB :=
  let '(failed, t) := round_trip (tables db) in
  let db1 := with_tables t db in
  if failed then (None, db1)
  else (Some (sorting.merge_sort listed_before (room_rows only_dm userID db1)), db1).

Definition GetRoomsForUser : string → pgDB → option (list RoomWithUnread) * pgDB :=
  list_rooms false.

Definition GetDMRooms : string → pgDB → option (list RoomWithUnread) * pgDB :=
  list_rooms true.


End Listing.

(** ** Presence in Redis (package [redisc]: [SetOnline], [SetOffline],
       [GetOnlineUsers], [RefreshPresence])

    The store is one key space: a key holds a string or a set, with or
    without a time at which it expires, and the server has a clock in
    milliseconds.  Every function of the package is one exchange with
    the server and returns an error: when the exchange is lost, or when
    a command is answered with an error ([WRONGTYPE]).  The commands of
    a lost exchange that reached the server are carried out all the
    same. *)
Module Presence.

Open Scope list_scope.

Inductive value : Type :=
| Str (v : string)
| Members (members : gset string).

Record entry : Type := mkEntry {
  held : value;
  expires : option Z
}.

(** What becomes of an exchange: it is answered, or it is lost after the
    first [reached] commands of it were received by the server. *)
Inductive fate : Type :=
| Answered
| Lost (reached : nat).

(** [rlink] is the fate of the exchanges to come, in order; when it is
    empty every exchange is answered. *)
Record redis : Type := mkRedis {
  rkeys : gmap string entry;
  rnow : Z;
  rlink : list fate
}.

Definition with_keys (m : gmap string entry) (r : redis) : redis :=
  mkRedis m (rnow r) (rlink r).

Definition with_link (l : list fate) (r : redis) : redis :=
  mkRedis (rkeys r) (rnow r) l.

(** [presenceTTL = 120 * time.Second] *)
Definition presenceTTL : Z := 120000.

Definition presence_key (userID : string) : string := "presence:" +:+ userID.

Inductive command : Type :=
| SADD (key member : string)
| SET_EX (key v : string) (ttl : Z)
| SREM (key member : string)
| DEL (key : string)
| EXPIRE (key : string) (ttl : Z).

Section server.

(** [lapsed now t]: a key that expires at [t] is gone at [now]. *)
Variable lapsed : Z → Z → bool.

(** What a key holds, a key that has expired being gone. *)
Definition entry_at (key : string) (r : redis) : option entry :=
  e ← rkeys r !! key;
  match expires e with
  | Some t => if lapsed (rnow r) t then None else Some e
  | None => Some e
  end.

(** The server carries out one command; the boolean tells whether the
    reply is no error. *)
Definition exec (c : command) (r : redis) : bool * redis :=
  match c with
  | SADD key member =>
      match entry_at key r with
      | Some (mkEntry (Members M) t) =>
          (true, with_keys (<[key := mkEntry (Members ({[member]} ∪ M)) t]> (rkeys r)) r)
      | Some (mkEntry (Str _) _) => (false, r)
      | None =>
          (true, with_keys (<[key := mkEntry (Members {[member]}) None]> (rkeys r)) r)
      end
  | SET_EX key v ttl =>
      (true, with_keys (<[key := mkEntry (Str v) (Some (rnow r + ttl)%Z)]> (rkeys r)) r)
  | SREM key member =>
      match entry_at key r with
      | Some (mkEntry (Members M) t) =>
          (true,
           if decide (M ∖ {[member]} = ∅)
           then with_keys (delete key (rkeys r)) r
           else with_keys (<[key := mkEntry (Members (M ∖ {[member]})) t]> (rkeys r)) r)
      | Some (mkEntry (Str _) _) => (false, r)
      | None => (true, r)
      end
  | DEL key => (true, with_keys (delete key (rkeys r)) r)
  | EXPIRE key ttl =>
      match entry_at key r with
      | Some e =>
          (true,
           with_keys (<[key := mkEntry (held e) (Some (rnow r + ttl)%Z)]> (rkeys r)) r)
      | None => (true, r)
      end
  end.

(** The commands in order; the boolean tells whether no reply is an
    error. *)
Fixpoint carry_out (cmds : list command) (r : redis) : bool * redis :=
  match cmds with
  | [] => (true, r)
  | c :: cmds =>
      let '(ok, r1) := exec c r in
      let '(oks, r2) := carry_out cmds r1 in
      (ok && oks, r2)
  end.

(** [SMEMBERS key] *)
Definition SMembers (key : string) (r : redis) : option (gset string) :=
  match entry_at key r with
  | Some (mkEntry (Members M) _) => Some M
  | Some (mkEntry (Str _) _) => None
  | None => Some ∅
  end.

(** The fate of the next exchange, and the store with the fates of the
    exchanges after it. *)
Definition next_fate (r : redis) : fate * redis :=
  match rlink r with
  | [] => (Answered, r)
  | f :: rest => (f, with_link rest r)
  end.

(** One exchange that sends [cmds]: [pipe.Exec] of a pipeline, or the
    [Err] of a single command.  The result is [None] for an error. *)
Definition exchange (cmds : list command) (r : redis) : option unit * redis :=
  match next_fate r with
  | (Answered, r1) =>
      let '(ok, r2) := carry_out cmds r1 in
      (if ok then Some tt else None, r2)
  | (Lost reached, r1) => (None, (carry_out (take reached cmds) r1).2)
  end.

Definition SetOnline (userID : string) : redis → option unit * redis :=
  exchange [SADD "online_users" userID;
            SET_EX (presence_key userID) "online" presenceTTL].

Definition SetOffline (userID : string) : redis → option unit * redis :=
  exchange [SREM "online_users" userID; DEL (presence_key userID)].

(** The members come in no particular order. *)
Definition GetOnlineUsers (r : redis) : option (gset string) * redis :=
  match next_fate r with
  | (Answered, r1) => (SMembers "online_users" r1, r1)
  | (Lost _, r1) => (None, r1)
  end.

Definition RefreshPresence (userID : string) : redis → option unit * redis :=
  exchange [EXPIRE (presence_key userID) presenceTTL].

(** What happens to the store: the calls of the package and the passing
    of time. *)
Inductive event : Type :=
| Online (userID : string)
| Offline (userID : string)
| Refresh (userID : string)
| Elapse (ms : N).

Definition happen (e : event) (r : redis) : redis :=
  match e with
  | Online u => (SetOnline u r).2
  | Offline u => (SetOffline u r).2
  | Refresh u => (RefreshPresence u r).2
  | Elapse ms => mkRedis (rkeys r) (rnow r + Z.of_N ms) (rlink r)
  end.

Definition after (es : list event) (r : redis) : redis := foldl (fun s e => happen e s) r es.

(** The next exchange is answered. *)
Definition answers (r : redis) : Prop := (next_fate r).1 = Answered.

(** The set [online_users] is stored, without an expiry, and has [u]
    among its members. *)
Definition listed (u : string) (r : redis) : Prop :=
  ∃ M, rkeys r !! "online_users" = Some (mkEntry (Members M) None) ∧ u ∈ M.

(** A command that does not take [u] out of [online_users]. *)
Definition spares (u : string) (c : command) : Prop :=
  match c with
  | SADD _ _ => True
  | SREM key member => key = "online_users" → member ≠ u
  | SET_EX key _ _ | DEL key | EXPIRE key _ => key ≠ "online_users"
  end.

End server.

End Presence.

(** * Verification *)

Open Scope list_scope.

(** ** The envelope codec *)
Section codec.

Example coerce_text : coerce (bytes [99; 97; 102; 195; 169]) = bytes [99; 97; 102; 195; 169].
Proof. reflexivity. Qed.

Example coerce_stray_byte :
  coerce (bytes [97; 255; 98]) = bytes [97; 239; 191; 189; 98].
Proof. reflexivity. Qed.

Example coerce_truncated :
  coerce (bytes [226; 130]) = bytes [239; 191; 189; 239; 191; 189].
Proof. reflexivity. Qed.

Example coerce_surrogate :
  coerce (bytes [237; 160; 128])
  = bytes [239; 191; 189; 239; 191; 189; 239; 191; 189].
Proof. reflexivity. Qed.

Example coerce_four_bytes :
  coerce (bytes [240; 159; 152; 128]) = bytes [240; 159; 152; 128].
Proof. reflexivity. Qed.

(** The round trip needs UTF-8 text: a stray byte comes back as U+FFFD. *)
Example stray_byte_not_restored :
  ∃ data msg,
    NewWSMessage TypeRoomJoin (Some (PRoom (mkRoomPayload (bytes [255])))) = Some data ∧
    Unmarshal_WSMessage data = Some msg ∧
    Unmarshal KRoom (Payload msg)
    = Some (PRoom (mkRoomPayload (bytes [239; 191; 189]))).
Proof. eexists _, _. split; [reflexivity|]. split; reflexivity. Qed.

Lemma index_where_eqb_app (pre post : list string) (k : string) :
  k ∉ pre →
  index_where (String.eqb k) (pre ++ k :: post) = Some (length pre).
Proof.
  induction pre as [|n pre IH]; intros Hk; simpl.
  - by rewrite String.eqb_refl.
  - apply not_elem_of_cons in Hk as [Hne Hk].
    destruct (String.eqb_spec k n) as [->|_]; [done|].
    by rewrite IH.
Qed.

Lemma find_field_app (pre post : list string) (k : string) :
  k ∉ pre → find_field (pre ++ k :: post) k = Some (length pre).
Proof. intros Hk. unfold find_field. by rewrite index_where_eqb_app. Qed.

Lemma store_field_encode (t : fty) (v : fval) :
  has_type t v → store_field t (encode_fval v) = Put v.
Proof.
  destruct t, v; simpl; try done.
  - intros Hs. by rewrite !Hs.
  - by intros ->.
Qed.

Lemma decode_members_zip (s1 s2 : list (string * fty)) (v2 acc : list fval) :
  NoDup ((s1 ++ s2).*1) →
  well_typed s2 v2 →
  length acc = length (s1 ++ s2) →
  decode_members (s1 ++ s2) (zip (s2.*1) (encode_fval <$> v2)) acc
  = Some (take (length s1) acc ++ v2).
Proof.
  revert s1 v2 acc.
  induction s2 as [|[nm t] s2 IH]; intros s1 v2 acc Hnd Hty Hlen.
  - apply Forall2_nil_inv_l in Hty as ->. simpl.
    rewrite app_nil_r in Hlen |- *. by rewrite <- Hlen, firstn_all.
  - apply Forall2_cons_inv_l in Hty as (v & v2' & Hv & Hty & ->). simpl in Hv.
    cbn [fmap list_fmap zip zip_with decode_members].
    change (zip_with pair ?a ?b) with (zip a b).
    assert (Hnm : nm ∉ s1.*1).
    { rewrite fmap_app in Hnd. apply NoDup_app in Hnd as (_ & Hdisj & _).
      intros Hin. apply (Hdisj _ Hin). simpl. left. }
    rewrite fmap_app. cbn [fmap list_fmap fst].
    rewrite find_field_app by done.
    rewrite length_fmap.
    rewrite (lookup_app_r s1) by lia. rewrite Nat.sub_diag. simpl.
    rewrite store_field_encode by done.
    specialize (IH (s1 ++ [(nm, t)]) v2' (<[length s1 := v]> acc)).
    rewrite <- !(assoc_L (++)) in IH. simpl in IH.
    change (list_fmap _ _ fst ?l) with (l.*1) in *.
    rewrite IH; [|done|done|by rewrite length_insert].
    rewrite length_app in Hlen |- *. simpl in Hlen |- *. f_equal.
    replace (length s1 + 1)%nat with (S (length s1)) by lia.
    rewrite (take_S_r _ _ v) by (apply list_lookup_insert_eq; lia).
    rewrite take_insert_ge by lia.
    by rewrite <- (assoc_L (++)).
Qed.

Lemma decode_encode_struct (sch : list (string * fty)) (vals : list fval) :
  NoDup (sch.*1) → well_typed sch vals →
  decode_struct sch (Some (encode_struct sch vals)) = Some vals.
Proof.
  intros Hnd Hty. unfold decode_struct, encode_struct.
  pose proof (decode_members_zip [] sch vals (zero <$> sch.*2)) as H.
  simpl in H. rewrite H; [done|done|done|].
  by rewrite !length_fmap.
Qed.

Lemma schema_names_NoDup (k : kind) : NoDup ((schema k).*1).
Proof. destruct k; apply (bool_decide_unpack _); vm_compute; exact I. Qed.

Lemma build_fields_of (p : AnyPayload) : build (kind_of p) (fields_of p) = Some p.
Proof. by destruct p as [[]|[]|[]|[]|[]|[]|[]|[]|[]|[]]. Qed.

Lemma Unmarshal_Marshal (p : AnyPayload) (j : json) :
  well_typed (schema (kind_of p)) (fields_of p) → Marshal p = Some j →
  Unmarshal (kind_of p) (Some j) = Some p.
Proof.
  intros Hok [= <-]. unfold Unmarshal.
  rewrite decode_encode_struct by (apply schema_names_NoDup || done).
  simpl. apply build_fields_of.
Qed.

Lemma Unmarshal_envelope (t : string) (raw : RawMessage) (data : json) :
  coerce t = t →
  Marshal_WSMessage (mkWSMessage t raw) = Some data →
  Unmarshal_WSMessage data = Some (mkWSMessage t raw).
Proof.
  intros Ht [= <-]. unfold Unmarshal_WSMessage. simpl. rewrite !Ht.
  by destruct raw.
Qed.

(** The tags of the protocol are UTF-8 text. *)
Lemma tag_kind_text (t : string) (k : option kind) :
  tag_kind t = Some k → coerce t = t.
Proof.
  unfold tag_kind. repeat (case_decide; [by subst|]). done.
Qed.

(** C9. For every frame tag of the wire protocol and every payload value
    of the tag's schema, [NewWSMessage] yields a frame, and decoding that
    frame (the envelope, then its raw payload into the tag's struct) gives
    back the tag and the payload; a null payload comes back as the absent
    raw message. *)
Theorem frame_round_trip (t : string) (payload : option AnyPayload) :
  fits t payload →
  ∃ data msg,
    NewWSMessage t payload = Some data ∧
    Unmarshal_WSMessage data = Some msg ∧
    Type_ msg = t ∧
    match payload with
    | None => Payload msg = None
    | Some p => Unmarshal (kind_of p) (Payload msg) = Some p
    end.
Proof.
  intros Hfit. destruct payload as [p|]; simpl in Hfit.
  - destruct Hfit as [Htag Hok]. apply tag_kind_text in Htag.
    destruct (Marshal p) as [j|] eqn:Hj; [|done].
    exists (JObj [("type", JStr (coerce t)); ("payload", j)]), (mkWSMessage t (Some j)).
    unfold NewWSMessage. rewrite Hj.
    split; [done|]. split; [by apply Unmarshal_envelope|]. split; [done|].
    by apply Unmarshal_Marshal.
  - apply tag_kind_text in Hfit.
    exists (JObj [("type", JStr (coerce t))]), (mkWSMessage t None).
    split; [done|]. split; [by apply Unmarshal_envelope|]. done.
Qed.

Lemma frame_round_trip_witness :
  fits TypeUnreadUpdate (Some (PUnreadUpdate (mkUnreadUpdatePayload "r1" 3))) ∧
  ∃ data msg,
    NewWSMessage TypeUnreadUpdate
      (Some (PUnreadUpdate (mkUnreadUpdatePayload "r1" 3))) = Some data ∧
    Unmarshal_WSMessage data = Some msg ∧
    Type_ msg = TypeUnreadUpdate ∧
    Unmarshal KUnreadUpdate (Payload msg)
    = Some (PUnreadUpdate (mkUnreadUpdatePayload "r1" 3)).
Proof.
  assert (Hfit : fits TypeUnreadUpdate
                   (Some (PUnreadUpdate (mkUnreadUpdatePayload "r1" 3))))
    by (split; [reflexivity|repeat constructor]).
  split; [exact Hfit|].
  exact (frame_round_trip _ _ Hfit).
Defined.

End codec.

(** ** Storage *)
Section storage.

Lemma pk_rows_tail (x : Member) (rows : list Member) :
  pk_rows (x :: rows) → pk_rows rows.
Proof.
  intros Hpk i j r1 r2 Hi Hj Hr Hu.
  assert (S i = S j) by (eapply Hpk; eauto). lia.
Qed.

Lemma is_key_true (roomID userID : string) (rm : Member) :
  is_key roomID userID rm = true ↔ rm_room_id rm = roomID ∧ rm_user_id rm = userID.
Proof.
  unfold is_key. rewrite andb_true_iff, !bool_decide_eq_true. done.
Qed.

(** Under the primary key, the row of a key is the only one with it. *)
Lemma membership_split (roomID userID : string) (rows : list Member) (rm : Member) :
  pk_rows rows → List.find (is_key roomID userID) rows = Some rm →
  is_key roomID userID rm = true ∧
  ∃ l1 l2, rows = l1 ++ rm :: l2 ∧
           Forall (fun x => is_key roomID userID x = false) (l1 ++ l2).
Proof.
  induction rows as [|x rows IH]; intros Hpk Hfind; [done|].
  simpl in Hfind. destruct (is_key roomID userID x) eqn:Hx.
  - injection Hfind as <-. split; [done|]. exists [], rows. split; [done|].
    simpl. apply Forall_forall. intros y Hy.
    apply list_elem_of_lookup in Hy as [j Hj].
    destruct (is_key roomID userID y) eqn:Hyk; [|done].
    apply is_key_true in Hx as [? ?]. apply is_key_true in Hyk as [? ?].
    assert (0 = S j)%nat; [|lia].
    eapply (Hpk 0%nat (S j) x y); simpl; congruence.
  - destruct (IH (pk_rows_tail _ _ Hpk) Hfind) as (Hk & l1 & l2 & -> & Hall).
    split; [done|]. exists (x :: l1), l2. split; [done|].
    simpl. by constructor.
Qed.

Lemma bind_all_nil {A B : Type} (f : A → list B) (l : list A) :
  Forall (fun x => f x = []) l → l ≫= f = [].
Proof.
  induction 1 as [|x l Hx _ IH]; [done|].
  cbn [mbind list_bind]. change (list_bind _ _ ?f ?l) with (mbind f l).
  by rewrite Hx, IH.
Qed.

Lemma unread_rows_length (roomID userID : string) (db : sqlDB) (rm : Member) :
  pk_room_members db → membership roomID userID db = Some rm →
  length (unread_rows roomID userID db)
  = unread_spec roomID userID (rm_last_read_at rm) (messages db).
Proof.
  intros Hpk Hrm.
  destruct (membership_split roomID userID (room_members db) rm Hpk Hrm)
    as (Hk & l1 & l2 & Hrows & Hall).
  apply is_key_true in Hk as [Hkr Hku].
  apply Forall_app in Hall as [Hl1 Hl2].
  unfold unread_rows, unread_spec. rewrite Hrows.
  induction (messages db) as [|m msgs IH]; [done|].
  cbn [mbind list_bind]. change (list_bind _ _ ?f ?l) with (mbind f l).
  rewrite length_app, IH. clear IH.
  rewrite filter_cons.
  assert (Hother : ∀ l, Forall (fun x => is_key roomID userID x = false) l →
    Forall (fun rm0 =>
      (if bool_decide (rm_room_id rm0 = m_RoomID m)
          && bool_decide (rm_user_id rm0 = userID)
          && bool_decide (m_RoomID m = roomID)
          && (rm_last_read_at rm0 <? m_CreatedAt m)%Z
          && negb (bool_decide (m_SenderID m = userID))
       then [(m, rm0)] else []) = []) l).
  { intros l Hl. eapply Forall_impl; [exact Hl|]. intros x Hx. simpl in *.
    destruct (bool_decide_reflect (m_RoomID m = roomID)) as [Hm|];
      [|by rewrite !andb_false_r].
    rewrite Hm. unfold is_key in Hx. by rewrite Hx. }
  rewrite bind_app. cbn [mbind list_bind].
  change (list_bind _ _ ?f ?l) with (mbind f l).
  rewrite (bind_all_nil _ l1), (bind_all_nil _ l2) by auto.
  rewrite app_nil_r, app_nil_l.
  destruct (decide _) as [(Hm & Hlt & Hne)|Hc].
  - rewrite Hkr, Hku, Hm. rewrite !bool_decide_true by done.
    rewrite bool_decide_false by done.
    apply Z.ltb_lt in Hlt. by rewrite Hlt.
  - match goal with
    | |- context [if ?c then _ else _] => destruct c eqn:Hg
    end; [|done].
    rewrite !andb_true_iff, !bool_decide_eq_true, negb_true_iff,
      bool_decide_eq_false, Z.ltb_lt in Hg.
    destruct Hg as ((((Hr & _) & Hm) & Hlt) & Hne). by destruct Hc.
Qed.

(** C7. For a user holding a membership row in the room (under the
    primary key of the membership table), a call of [GetUnreadCount] that
    the driver answers returns the number of messages of the room created
    strictly after the row's [last_read_at] and sent by another user, and
    the call is answered unless a driver error is due; the count is never
    negative. *)
Theorem GetUnreadCount_spec (roomID userID : string) (db : sqlDB) (rm : Member) :
  pk_room_members db →
  membership roomID userID db = Some rm →
  let n := Z.of_nat (unread_spec roomID userID (rm_last_read_at rm) (messages db)) in
  (GetUnreadCount roomID userID db).1
  = (if hd false (faults db) then None else Some n) ∧ (0 ≤ n)%Z.
Proof.
  intros Hpk Hrm n. split; [|lia].
  unfold GetUnreadCount, Query, round_trip.
  destruct (faults db) as [|[] rest]; simpl; try done;
    f_equal; subst n; f_equal;
    exact (unread_rows_length roomID userID db rm Hpk Hrm).
Qed.

Lemma NoDup_pk_rows (rows : list Member) :
  NoDup ((fun r => (rm_room_id r, rm_user_id r)) <$> rows) → pk_rows rows.
Proof.
  intros Hnd i j r1 r2 Hi Hj Hr Hu.
  eapply NoDup_lookup; [exact Hnd| |]; rewrite list_lookup_fmap.
  - by rewrite Hi.
  - rewrite Hj. simpl. by rewrite Hr, Hu.
Qed.

Lemma demo_db_pk : pk_room_members demo_db.
Proof. apply NoDup_pk_rows. apply (bool_decide_unpack _). by vm_compute. Qed.

Lemma GetUnreadCount_spec_witness :
  pk_room_members demo_db ∧
  membership "r1" "u2" demo_db = Some (mkMember "r1" "u2" 2 10) ∧
  (GetUnreadCount "r1" "u2" demo_db).1 = Some 1%Z.
Proof.
  split; [exact demo_db_pk|]. split; [reflexivity|].
  exact (proj1 (GetUnreadCount_spec "r1" "u2" demo_db (mkMember "r1" "u2" 2 10)
                  demo_db_pk eq_refl)).
Defined.

End storage.

(** ** The Hub *)
Section hub.

Lemma evolves_refl (st : State) : evolves st st.
Proof. split; [done|]. split; [done|]. intros a c Hc. exists c. auto. Qed.

Lemma evolves_trans (st1 st2 st3 : State) :
  evolves st1 st2 → evolves st2 st3 → evolves st1 st3.
Proof.
  intros (Hm1 & Hr1 & Hh1) (Hm2 & Hr2 & Hh2).
  split; [by etrans|]. split; [congruence|].
  intros a c Hc.
  destruct (Hh1 a c Hc) as (c' & Hc' & Hu' & Hcl').
  destruct (Hh2 a c' Hc') as (c'' & Hc'' & Hu'' & Hcl'').
  exists c''. split; [done|]. split; [congruence|].
  assert (Hsub : ∀ s s', clients s' ⊆ clients s → live s' a → live s a).
  { intros s s' Hs [u Hu]. exists u. by eapply lookup_weaken. }
  destruct Hcl' as [Hcl'|[Hl Hnl]], Hcl'' as [Hcl''|[Hl' Hnl']].
  - left. congruence.
  - right. split; [by eapply Hsub|done].
  - right. split; [done|]. intros Hl3. apply Hnl. by eapply Hsub.
  - right. split; [done|done].
Qed.

Lemma hub_ok_evolves (st st' : State) : hub_ok st → evolves st st' → hub_ok st'.
Proof.
  intros (Hmap & Hnd & Hpend) (Hm & Hr & Hh). split; [|split].
  - intros u a Hu.
    assert (Hu0 : clients st !! u = Some a) by by eapply lookup_weaken.
    destruct (Hmap u a Hu0) as (c & Hc & Hid & Hopen).
    destruct (Hh a c Hc) as (c' & Hc' & Hid' & [Hcl|[_ Hnl]]).
    + exists c'. split; [done|]. split; congruence.
    + destruct Hnl. by exists u.
  - by rewrite Hr.
  - intros a Ha. rewrite Hr in Ha. destruct (Hpend a Ha) as ((c & Hc & Hopen) & Hnl).
    destruct (Hh a c Hc) as (c' & Hc' & _ & [Hcl|[Hl _]]); [|done].
    split; [exists c'; split; congruence|].
    intros [u Hu]. apply Hnl. exists u. by eapply lookup_weaken.
Qed.

(** A state that differs in the heap only, and there only by Clients
    keeping their user id and the status of their queue. *)
Lemma evolves_heap (st : State) (h : gmap addr Client) :
  (∀ a c, heap st !! a = Some c →
     ∃ c', h !! a = Some c' ∧ UserID c' = UserID c ∧
           Chan.closed (send c') = Chan.closed (send c)) →
  evolves st (set_heap h st).
Proof.
  intros Hh. split; [done|]. split; [done|].
  intros a c Hc. destruct (Hh a c Hc) as (c' & ? & ? & ?). exists c'. auto.
Qed.

Lemma evolves_update (st : State) (a : addr) (c c' : Client) :
  heap st !! a = Some c → UserID c' = UserID c →
  Chan.closed (send c') = Chan.closed (send c) →
  evolves st (set_heap (<[a := c']> (heap st)) st).
Proof.
  intros Hc Hu Hcl. apply evolves_heap. intros b cb Hb.
  destruct (decide (a = b)) as [<-|Hne].
  - exists c'. rewrite lookup_insert_eq. split; [done|]. split; congruence.
  - exists cb. by rewrite lookup_insert_ne.
Qed.

Lemma offer_open (a : addr) (data : json) (st : State) (c : Client) :
  heap st !! a = Some c → Chan.closed (send c) = false →
  offer a data st
  = Some (negb (Chan.full (send c)),
          set_heap (<[a := enqueue data c]> (heap st)) st).
Proof.
  intros Hc Hopen. unfold offer, Chan.try_send, enqueue. rewrite Hc. simpl.
  rewrite Hopen. destruct (Chan.full (send c)); simpl; [|done].
  rewrite insert_id by done. by destruct st.
Qed.

Lemma offer_evolves (a : addr) (data : json) (st st' : State) (sent : bool) :
  offer a data st = Some (sent, st') → evolves st st'.
Proof.
  unfold offer. destruct (heap st !! a) as [c|] eqn:Hc; [|done]. simpl.
  unfold Chan.try_send. destruct (Chan.closed (send c)) eqn:Hcl; [done|].
  destruct (Chan.full (send c)); intros [= <- <-].
  - apply evolves_refl.
  - by eapply evolves_update.
Qed.

Lemma hub_ok_inj (st : State) (u1 u2 : string) (a : addr) :
  hub_ok st → clients st !! u1 = Some a → clients st !! u2 = Some a → u1 = u2.
Proof.
  intros (Hmap & _) H1 H2.
  destruct (Hmap _ _ H1) as (c1 & Hc1 & <- & _).
  destruct (Hmap _ _ H2) as (c2 & Hc2 & <- & _). congruence.
Qed.

Lemma visit_evolves f (st : State) (u : string) (a : addr) (c : Client) :
  gentle f → hub_ok st → clients st !! u = Some a → heap st !! a = Some c →
  evolves st (visit f st u a c).
Proof.
  intros Hf Hok Hu Hc.
  destruct (proj1 Hok u a Hu) as (c0 & Hc0 & Hid & Hopen).
  assert (c0 = c) as -> by congruence.
  destruct (Hf u c Hopen) as [Hfid Hfopen].
  unfold visit. destruct ((f u c).2) eqn:Hkeep.
  - eapply evolves_update; [done|done|]. by rewrite Hfopen.
  - split; [apply delete_subseteq|]. split; [done|].
    intros b cb Hb. simpl. destruct (decide (a = b)) as [<-|Hne].
    + exists (f u c).1. rewrite lookup_insert_eq. split; [done|].
      split; [congruence|]. right. split; [by exists u|].
      intros [u' Hu']. simpl in Hu'.
      destruct (decide (u = u')) as [<-|Hne]; [by rewrite lookup_delete_eq in Hu'|].
      rewrite lookup_delete_ne in Hu' by done.
      apply Hne. by eapply hub_ok_inj.
    + exists cb. rewrite lookup_insert_ne by done. auto.
Qed.

(** A loop over entries of the map, each handled as [visit f] tells,
    handles each Session by its own state at the start of the loop. *)
Lemma foldM_visit f (step : State → string * addr → option State)
    (l : list (string * addr)) :
  gentle f →
  (∀ st u a c, hub_ok st → clients st !! u = Some a → heap st !! a = Some c →
     step st (u, a) = Some (visit f st u a c)) →
  ∀ st, hub_ok st → NoDup (l.*1) →
    (∀ u a, (u, a) ∈ l → clients st !! u = Some a) →
    ∃ st', foldM step l st = Some st' ∧ evolves st st' ∧
      (∀ u a c, (u, a) ∈ l → heap st !! a = Some c →
         heap st' !! a = Some (f u c).1 ∧
         clients st' !! u = if (f u c).2 then Some a else None) ∧
      (∀ a, a ∉ l.*2 → heap st' !! a = heap st !! a) ∧
      (∀ u, u ∉ l.*1 → clients st' !! u = clients st !! u) ∧
      register st' = register st ∧ unregister st' = unregister st ∧
      broadcast st' = broadcast st ∧ DB st' = DB st ∧ spawned st' = spawned st.
Proof.
  intros Hf Hstep. induction l as [|[u a] l IH]; intros st Hok Hnd Hin.
  - exists st. split; [done|]. split; [apply evolves_refl|].
    split; [intros ??? []%elem_of_nil|]. done.
  - rewrite fmap_cons in Hnd. apply NoDup_cons in Hnd as [Hu Hnd]. simpl in Hu.
    assert (Hua : clients st !! u = Some a) by (apply Hin; left).
    destruct (proj1 Hok u a Hua) as (c & Hc & Hid & Hopen).
    pose proof (visit_evolves f st u a c Hf Hok Hua Hc) as Hev.
    set (st1 := visit f st u a c) in *.
    assert (Hok1 : hub_ok st1) by by eapply hub_ok_evolves.
    assert (Hm1 : ∀ u', u' ≠ u → clients st1 !! u' = clients st !! u').
    { intros u' Hne. unfold st1, visit. destruct ((f u c).2); simpl; [done|].
      by rewrite lookup_delete_ne. }
    assert (Hh1 : ∀ b, b ≠ a → heap st1 !! b = heap st !! b).
    { intros b Hne. unfold st1, visit. destruct ((f u c).2); simpl;
        by rewrite lookup_insert_ne. }
    assert (Hnotin : ∀ u' a', (u', a') ∈ l → u' ≠ u ∧ a' ≠ a).
    { intros u' a' Hin'.
      assert (H : u' ≠ u).
      { intros ->. apply Hu. apply list_elem_of_fmap. by exists (u, a'). }
      split; [done|]. intros ->.
      assert (clients st !! u' = Some a) by (apply Hin; by right).
      apply H. by eapply (hub_ok_inj st u' u a). }
    destruct (IH st1 Hok1 Hnd) as (st' & Hfold & Hev' & Hl & Hheap & Hmap & Hrest).
    { intros u' a' Hin'. destruct (Hnotin u' a' Hin') as [Hne _].
      rewrite Hm1 by done. apply Hin. by right. }
    exists st'. simpl. rewrite (Hstep st u a c) by done. simpl.
    split; [done|]. split; [by eapply evolves_trans|].
    assert (Ha : a ∉ l.*2).
    { intros ((u' & a') & -> & Hin')%list_elem_of_fmap. simpl in *.
      by destruct (Hnotin u' a' Hin'). }
    split; [|split; [|split]].
    + intros u' a' c' [[= -> ->]|Hin']%elem_of_cons Hc'.
      * assert (c' = c) as -> by congruence.
        rewrite Hheap, Hmap by done.
        unfold st1, visit. destruct ((f u c).2); simpl;
          rewrite lookup_insert_eq; [done|by rewrite lookup_delete_eq].
      * destruct (Hnotin u' a' Hin') as [Hne Hne'].
        apply Hl; [done|]. by rewrite Hh1.
    + intros b Hb. apply not_elem_of_cons in Hb as [Hb1 Hb2].
      rewrite Hheap by done. by apply Hh1.
    + intros u' Hu'. apply not_elem_of_cons in Hu' as [Hu1 Hu2].
      rewrite Hmap by done. by apply Hm1.
    + destruct Hrest as (-> & -> & -> & -> & ->).
      unfold st1, visit. by destruct ((f u c).2).
Qed.

Lemma set_heap_id (st : State) (a : addr) (c : Client) :
  heap st !! a = Some c → set_heap (<[a := c]> (heap st)) st = st.
Proof. intros Hc. unfold set_heap. rewrite insert_id by done. by destruct st. Qed.

Lemma close_send_open (a : addr) (st : State) (c : Client) :
  heap st !! a = Some c → Chan.closed (send c) = false →
  close_send a st = Some (set_heap (<[a := closed_client c]> (heap st)) st).
Proof.
  intros Hc Hopen. unfold close_send, Chan.close. rewrite Hc. simpl.
  by rewrite Hopen.
Qed.

Lemma gentle_deliver_to (msg : BroadcastMessage) : gentle (deliver_to msg).
Proof.
  intros u c Hopen. unfold deliver_to, enqueue.
  destruct (targeted msg u c), (Chan.full (send c)); simpl; auto; split; done.
Qed.

Lemma gentle_notify (data : json) : gentle (notify data).
Proof.
  intros u c Hopen. unfold notify, enqueue.
  destruct (Chan.full (send c)); simpl; auto.
Qed.

Lemma deliver_visit (msg : BroadcastMessage) (st : State) (u : string) (a : addr)
    (c : Client) :
  hub_ok st → clients st !! u = Some a → heap st !! a = Some c →
  deliver msg st (u, a) = Some (visit (deliver_to msg) st u a c).
Proof.
  intros Hok Hu Hc.
  destruct (proj1 Hok u a Hu) as (c0 & Hc0 & Hid & Hopen).
  assert (c0 = c) as -> by congruence.
  unfold deliver, visit, deliver_to, targeted.
  destruct (decide (u = ExcludeUserID msg)) as [He|He].
  - rewrite (bool_decide_true _ He). simpl. by rewrite set_heap_id.
  - rewrite (bool_decide_false _ He). rewrite Hc. simpl.
    destruct (decide (RoomID msg ∈ rooms c)) as [Hr|Hr].
    + rewrite (bool_decide_true _ Hr). rewrite (offer_open a _ st c) by done.
      simpl. destruct (Chan.full (send c)) eqn:Hfull; simpl; [|done].
      unfold enqueue. rewrite Hfull. rewrite set_heap_id by done.
      by rewrite (close_send_open a st c).
    + rewrite (bool_decide_false _ Hr). simpl. by rewrite set_heap_id.
Qed.

Lemma map_entries_facts (st : State) :
  NoDup ((map_to_list (clients st)).*1) ∧
  (∀ u a, (u, a) ∈ map_to_list (clients st) ↔ clients st !! u = Some a) ∧
  (∀ a, a ∉ (map_to_list (clients st)).*2 ↔ ¬ live st a) ∧
  (∀ u, u ∉ (map_to_list (clients st)).*1 ↔ clients st !! u = None).
Proof.
  split; [apply NoDup_fst_map_to_list|]. split; [intros; apply elem_of_map_to_list|].
  split.
  - intros a. split.
    + intros Hn [u Hu]. apply Hn. apply list_elem_of_fmap. exists (u, a).
      split; [done|]. by apply elem_of_map_to_list.
    + intros Hn ([u a'] & -> & Hin)%list_elem_of_fmap. apply Hn. exists u.
      by apply elem_of_map_to_list.
  - intros u. rewrite <- not_elem_of_dom. rewrite <- (elem_of_list_to_set (C := gset string)).
    by rewrite <- dom_alt.
Qed.

(** What one room broadcast does, Session by Session. *)
Lemma Run_broadcast_spec (msg : BroadcastMessage) (st : State) :
  hub_ok st →
  ∃ st', Run_broadcast msg st = Some st' ∧ evolves st st' ∧
    (∀ u a c, clients st !! u = Some a → heap st !! a = Some c →
       heap st' !! a = Some (deliver_to msg u c).1 ∧
       clients st' !! u = if (deliver_to msg u c).2 then Some a else None) ∧
    (∀ a, ¬ live st a → heap st' !! a = heap st !! a) ∧
    (∀ u, clients st !! u = None → clients st' !! u = None) ∧
    register st' = register st ∧ unregister st' = unregister st ∧
    broadcast st' = broadcast st ∧ DB st' = DB st ∧ spawned st' = spawned st.
Proof.
  intros Hok. destruct (map_entries_facts st) as (Hnd & Hin & Hlive & Hnone).
  destruct (foldM_visit (deliver_to msg) (deliver msg) (map_to_list (clients st))
              (gentle_deliver_to msg) (deliver_visit msg) st Hok Hnd)
    as (st' & Hfold & Hev & Hl & Hheap & Hmap & Hrest).
  { intros u a. apply Hin. }
  exists st'. split; [done|]. split; [done|].
  split; [intros u a c Hu; apply Hl; by apply Hin|].
  split; [intros a Ha; apply Hheap; by apply Hlive|].
  split; [|done]. intros u Hu. rewrite Hmap; [done|by apply Hnone].
Qed.

Lemma offer_visit (data : json) (st : State) (u : string) (a : addr) (c : Client) :
  hub_ok st → clients st !! u = Some a → heap st !! a = Some c →
  (let '(_, a0) := (u, a) in '(_, st2) ← offer a0 data st; Some st2)
  = Some (visit (notify data) st u a c).
Proof.
  intros Hok Hu Hc.
  destruct (proj1 Hok u a Hu) as (c0 & Hc0 & Hid & Hopen).
  assert (c0 = c) as -> by congruence.
  by rewrite (offer_open a data st c).
Qed.

(** What a presence broadcast does, Session by Session. *)
Lemma broadcastPresence_spec (userID username status : string) (st : State) :
  hub_ok st →
  ∃ st' data,
    NewWSMessage TypePresenceUpdate
      (Some (PPresenceUpdate (mkPresenceUpdatePayload userID username status)))
    = Some data ∧
    broadcastPresence userID username status st = Some st' ∧ evolves st st' ∧
    clients st' = clients st ∧
    (∀ u a c, clients st !! u = Some a → heap st !! a = Some c →
       heap st' !! a = Some (enqueue data c)) ∧
    (∀ a, ¬ live st a → heap st' !! a = heap st !! a) ∧
    register st' = register st ∧ unregister st' = unregister st ∧
    broadcast st' = broadcast st ∧ DB st' = DB st ∧ spawned st' = spawned st.
Proof.
  intros Hok. destruct (map_entries_facts st) as (Hnd & Hin & Hlive & Hnone).
  unfold broadcastPresence.
  destruct (NewWSMessage _ _) as [data|] eqn:Hdata; [|done].
  destruct (foldM_visit (notify data)
              (fun st1 '(_, a) => '(_, st2) ← offer a data st1; Some st2)
              (map_to_list (clients st)) (gentle_notify data)
              (offer_visit data) st Hok Hnd)
    as (st' & Hfold & Hev & Hl & Hheap & Hmap & Hrest).
  { intros u a. apply Hin. }
  exists st', data. split; [done|]. split; [done|]. split; [done|].
  split; [|split; [|split]]; [| |intros a Ha; apply Hheap; by apply Hlive|done].
  - apply map_eq. intros u. destruct (clients st !! u) as [a|] eqn:Hu.
    + destruct (proj1 Hok u a Hu) as (c & Hc & _).
      by destruct (Hl u a c (proj2 (Hin u a) Hu) Hc) as [_ ->].
    + rewrite Hmap; [done|by apply Hnone].
  - intros u a c Hu Hc. by destruct (Hl u a c (proj2 (Hin u a) Hu) Hc) as [-> _].
Qed.

Lemma hub_ok_at_most_one (st : State) : hub_ok st → at_most_one_session st.
Proof.
  intros (Hmap & _) u1 u2 a1 a2 c1 c2 H1 H2 Hc1 Hc2 Hid.
  destruct (Hmap _ _ H1) as (c1' & Hc1' & Hu1 & _).
  destruct (Hmap _ _ H2) as (c2' & Hc2' & Hu2 & _).
  assert (u1 = u2) by congruence. congruence.
Qed.

(** The register case of [Hub.Run]: the state once the map is updated,
    before the presence broadcast. *)
Lemma register_map_ok (st : State) (a : addr) (rest : list addr) (c : Client) :
  hub_ok st → register st = a :: rest → heap st !! a = Some c →
  ∃ st1,
    match clients st !! UserID c with
    | Some old => close_send old (set_register rest st)
    | None => Some (set_register rest st)
    end = Some st1 ∧
    heap st1 !! a = Some c ∧ clients st1 = clients st ∧
    hub_ok (set_clients (<[UserID c := a]> (clients st1)) st1) ∧
    register st1 = rest ∧ unregister st1 = unregister st ∧
    broadcast st1 = broadcast st ∧ DB st1 = DB st ∧ spawned st1 = spawned st ∧
    (∀ b, clients st !! UserID c ≠ Some b → heap st1 !! b = heap st !! b) ∧
    (∀ old oc, clients st !! UserID c = Some old → heap st !! old = Some oc →
       old ≠ a ∧ heap st1 !! old = Some (closed_client oc)).
Proof.
  intros Hok Hreg Ha. destruct Hok as (Hmap & Hnd & Hpend).
  rewrite Hreg in Hnd. apply NoDup_cons in Hnd as [Hnotin Hnd].
  destruct (Hpend a) as ((c0 & Hc0 & Hopen) & Hnl); [rewrite Hreg; left|].
  assert (c0 = c) as -> by congruence.
  assert (∃ st1,
    match clients st !! UserID c with
    | Some old => close_send old (set_register rest st)
    | None => Some (set_register rest st)
    end = Some st1 ∧
    clients st1 = clients st ∧ register st1 = rest ∧
    unregister st1 = unregister st ∧
    broadcast st1 = broadcast st ∧ DB st1 = DB st ∧ spawned st1 = spawned st ∧
    (∀ b, clients st !! UserID c ≠ Some b → heap st1 !! b = heap st !! b) ∧
    (∀ old oc, clients st !! UserID c = Some old → heap st !! old = Some oc →
       old ≠ a ∧ heap st1 !! old = Some (closed_client oc)))
    as (st1 & Heq & Hcl & Hr1 & Hu1 & Hb1 & Hd1 & Hs1 & Hsame & Hold).
  { destruct (clients st !! UserID c) as [old|] eqn:Hu.
    - destruct (Hmap _ _ Hu) as (oc & Hoc & Hid & Hoopen).
      rewrite (close_send_open old _ oc) by done.
      eexists. split; [done|]. simpl. do 6 (split; [done|]). split.
      + intros b Hb. rewrite lookup_insert_ne; [done|congruence].
      + intros old0 oc0 [= <-] Hoc0. assert (oc0 = oc) as -> by congruence.
        split; [|by rewrite lookup_insert_eq].
        intros ->. apply Hnl. by exists (UserID c).
    - eexists. split; [done|]. do 6 (split; [done|]). split; done. }
  exists st1. split; [done|].
  assert (Ha1 : heap st1 !! a = Some c).
  { rewrite Hsame; [done|]. intros Hu. apply Hnl. by exists (UserID c). }
  split; [done|]. split; [done|]. split; [|done].
  split; [|split].
  - simpl. intros u b Hu. destruct (decide (u = UserID c)) as [->|Hne].
    + rewrite lookup_insert_eq in Hu. injection Hu as <-. by exists c.
    + rewrite lookup_insert_ne, Hcl in Hu by done.
      destruct (Hmap _ _ Hu) as (cb & Hcb & Hid & Hbopen).
      exists cb. rewrite Hsame; [done|].
      intros Hu'. apply Hne. rewrite <- Hid.
      destruct (Hmap _ _ Hu') as (cb' & Hcb' & Hid' & _). congruence.
  - simpl. by rewrite Hr1.
  - simpl. rewrite Hr1. intros b Hb.
    destruct (Hpend b) as ((cb & Hcb & Hbopen) & Hbnl); [rewrite Hreg; by right|].
    split.
    + exists cb. rewrite Hsame; [done|]. intros Hu. apply Hbnl. by exists (UserID c).
    + intros [u Hu]. simpl in Hu. destruct (decide (u = UserID c)) as [->|Hne].
      * rewrite lookup_insert_eq in Hu. injection Hu as ->. done.
      * rewrite lookup_insert_ne, Hcl in Hu by done. apply Hbnl. by exists u.
Qed.

(** The register case of [Hub.Run] as a whole. *)
Lemma Run_Register_spec (st : State) (a : addr) (rest : list addr) :
  hub_ok st → register st = a :: rest →
  ∃ c st' data,
    heap st !! a = Some c ∧
    NewWSMessage TypePresenceUpdate
      (Some (PPresenceUpdate (mkPresenceUpdatePayload (UserID c) (Username c) "online")))
    = Some data ∧
    Run Register st = Some st' ∧ hub_ok st' ∧
    clients st' = <[UserID c := a]> (clients st) ∧ register st' = rest ∧
    heap st' !! a = Some (enqueue data c) ∧
    (∀ old oc, clients st !! UserID c = Some old → heap st !! old = Some oc →
       old ≠ a ∧ heap st' !! old = Some (closed_client oc)) ∧
    (∀ u b cb, u ≠ UserID c → clients st !! u = Some b → heap st !! b = Some cb →
       heap st' !! b = Some (enqueue data cb)).
Proof.
  intros Hok Hreg.
  destruct (proj2 (proj2 Hok) a) as ((c & Ha & Hopen) & Hnl); [rewrite Hreg; left|].
  destruct (register_map_ok st a rest c Hok Hreg Ha)
    as (st1 & Heq & Ha1 & Hcl & Hok1 & Hr1 & _ & _ & _ & _ & Hsame & Hold).
  destruct (broadcastPresence_spec (UserID c) (Username c) "online" _ Hok1)
    as (st' & data & Hdata & Hbp & Hev & Hcl' & Hlive & Hdead & Hr' & _).
  exists c, st', data. split; [done|]. split; [done|].
  split.
  { unfold Run. rewrite Hreg. unfold Run_register.
    change (heap (set_register rest st)) with (heap st).
    change (clients (set_register rest st)) with (clients st).
    rewrite Ha. simpl. rewrite Heq. simpl. exact Hbp. }
  split; [by eapply hub_ok_evolves|].
  split; [by rewrite Hcl', <- Hcl|].
  split; [by rewrite Hr'|].
  split; [|split].
  - apply (Hlive (UserID c) a c); [simpl; by rewrite lookup_insert_eq|done].
  - intros old oc Hu Hoc. destruct (Hold old oc Hu Hoc) as [Hne Hoc1].
    split; [done|]. rewrite Hdead; [done|].
    intros [u Hu']. simpl in Hu'. destruct (decide (u = UserID c)) as [->|Hneu].
    + rewrite lookup_insert_eq in Hu'. congruence.
    + rewrite lookup_insert_ne, Hcl in Hu' by done.
      apply Hneu. by eapply (hub_ok_inj st).
  - intros u b cb Hne Hu Hb. apply (Hlive u b cb).
    + simpl. by rewrite lookup_insert_ne, Hcl.
    + simpl. rewrite Hsame; [done|]. intros Hu'. apply Hne. by eapply (hub_ok_inj st).
Qed.

Lemma gentle_remove : gentle remove.
Proof. intros u c Hopen. split; done. Qed.

(** The unregister case of [Hub.Run] for the Client [c] at [a]. *)
Lemma Run_unregister_spec (st : State) (a : addr) (c : Client) :
  hub_ok st → heap st !! a = Some c →
  ∃ st' data,
    NewWSMessage TypePresenceUpdate
      (Some (PPresenceUpdate (mkPresenceUpdatePayload (UserID c) (Username c) "offline")))
    = Some data ∧
    Run_unregister a st = Some st' ∧ evolves st st' ∧
    clients st' = clients (unregistered a c st) ∧
    (∀ u b cb, clients (unregistered a c st) !! u = Some b →
       heap (unregistered a c st) !! b = Some cb →
       heap st' !! b = Some (enqueue data cb)) ∧
    (∀ b, ¬ live (unregistered a c st) b →
       heap st' !! b = heap (unregistered a c st) !! b) ∧
    register st' = register st ∧ unregister st' = unregister st ∧
    broadcast st' = broadcast st ∧ DB st' = DB st ∧ spawned st' = spawned st.
Proof.
  intros Hok Ha.
  assert (Hst1 :
    match clients st !! UserID c with
    | Some existing =>
        if decide (existing = a)
        then close_send a (set_clients (delete (UserID c) (clients st)) st)
        else Some st
    | None => Some st
    end = Some (unregistered a c st) ∧ evolves st (unregistered a c st)).
  { unfold unregistered. destruct (clients st !! UserID c) as [existing|] eqn:Hu.
    - destruct (decide (existing = a)) as [->|Hne].
      + rewrite decide_True by done.
        destruct (proj1 Hok _ _ Hu) as (c0 & Hc0 & _ & Hopen).
        assert (c0 = c) as -> by congruence.
        rewrite (close_send_open a _ c) by done. split; [done|].
        exact (visit_evolves remove st (UserID c) a c gentle_remove Hok Hu Ha).
      + rewrite decide_False by congruence. split; [done|apply evolves_refl].
    - rewrite decide_False by done. split; [done|apply evolves_refl]. }
  destruct Hst1 as [Hst1 Hev1].
  assert (Hok1 : hub_ok (unregistered a c st)) by by eapply hub_ok_evolves.
  destruct (broadcastPresence_spec (UserID c) (Username c) "offline" _ Hok1)
    as (st' & data & Hdata & Hbp & Hev & Hcl' & Hlive & Hdead & Hr' & Hu' & Hb' & Hd' & Hs').
  exists st', data. split; [done|]. split.
  { unfold Run_unregister. rewrite Ha. simpl. rewrite Hst1. simpl. exact Hbp. }
  split; [by eapply evolves_trans|].
  do 3 (split; [done|]).
  rewrite Hr', Hu', Hb', Hd', Hs'. unfold unregistered.
  by destruct (decide _).
Qed.

End hub.

(** ** The Sessions' operations keep the Hub's invariant *)
Section sessions.

Variable time_Parse : string → option Z.
Variable time_Format : Z → string.

Lemma evolves_same (st st' : State) :
  clients st' = clients st → register st' = register st → heap st' = heap st →
  evolves st st'.
Proof.
  intros Hc Hr Hh. split; [by rewrite Hc|]. split; [done|].
  intros a c Ha. exists c. rewrite Hh. auto.
Qed.

Lemma storage_evolves {A : Type} (call : sqlDB → result A) (st st1 : State)
    (r : option A) :
  storage call st = (r, st1) → evolves st st1.
Proof.
  unfold storage. destruct (call (DB st)) as [r0 db]. intros [= _ <-].
  by apply evolves_same.
Qed.

Lemma storage_fields {A : Type} (call : sqlDB → result A) (st : State) :
  storage call st = ((call (DB st)).1, set_DB (call (DB st)).2 st).
Proof. unfold storage. by destruct (call (DB st)). Qed.

Lemma BroadcastToRoom_evolves (roomID : string) (data : json) (ex : string)
    (st : State) : evolves st (BroadcastToRoom roomID data ex st).
Proof. by apply evolves_same. Qed.

Lemma SendToUser_evolves (userID : string) (data : json) (st st' : State) :
  SendToUser userID data st = Some st' → evolves st st'.
Proof.
  unfold SendToUser. destruct (clients st !! userID) as [a|].
  - destruct (offer a data st) as [[sent st1]|] eqn:Ho; [|done].
    intros [= <-]. by eapply offer_evolves.
  - intros [= <-]. apply evolves_refl.
Qed.

Lemma sendError_evolves (c : addr) (message code : string) (st st' : State) :
  sendError c message code st = Some st' → evolves st st'.
Proof.
  unfold sendError. destruct (offer c _ st) as [[sent st1]|] eqn:Ho; [|done].
  intros [= <-]. by eapply offer_evolves.
Qed.

Lemma rooms_evolves (st : State) (c : addr) (cl : Client) (r : gset string) :
  heap st !! c = Some cl →
  evolves st (set_heap (<[c := set_rooms r cl]> (heap st)) st).
Proof. intros Hc. by eapply evolves_update. Qed.

Lemma HandleSendMessage_evolves (c : addr) (p : SendMessagePayload) (st st' : State) :
  HandleSendMessage time_Format c p st = Some st' → evolves st st'.
Proof.
  unfold HandleSendMessage. destruct (heap st !! c) as [cl|]; [|done]. simpl.
  destruct (_ || _); [apply sendError_evolves|].
  destruct (storage (IsRoomMember _ _) st) as [isMember st1] eqn:H1.
  assert (evolves st st1) by by eapply storage_evolves.
  destruct isMember as [[]|];
    try (intros; eapply evolves_trans; [done|]; by eapply sendError_evolves).
  destruct (storage (CreateMessage _ _ _) st1) as [created st2] eqn:H2.
  assert (evolves st1 st2) by by eapply storage_evolves.
  assert (evolves st st2) by by eapply evolves_trans.
  destruct created as [msg|]; [|intros; eapply evolves_trans; [done|];
                                  by eapply sendError_evolves].
  intros [= <-].
  eapply evolves_trans; [done|]. by apply evolves_same.
Qed.

Lemma HandleRoomJoin_evolves (c : addr) (p : RoomPayload) (st st' : State) :
  HandleRoomJoin c p st = Some st' → evolves st st'.
Proof.
  unfold HandleRoomJoin. destruct (heap st !! c) as [cl|] eqn:Hc; [|done]. simpl.
  destruct (storage _ st) as [r st1] eqn:H1.
  assert (Hev : evolves st st1) by by eapply storage_evolves.
  assert (Hc1 : heap st1 !! c = Some cl).
  { rewrite storage_fields in H1. by injection H1 as _ <-. }
  destruct r; intros [= <-]; [|done].
  eapply evolves_trans; [done|].
  eapply evolves_trans; [by eapply rooms_evolves|]. by apply evolves_same.
Qed.

Lemma HandleRoomLeave_evolves (c : addr) (p : RoomPayload) (st st' : State) :
  HandleRoomLeave c p st = Some st' → evolves st st'.
Proof.
  unfold HandleRoomLeave. destruct (heap st !! c) as [cl|] eqn:Hc; [|done]. simpl.
  destruct (storage _ st) as [r st1] eqn:H1.
  assert (Hev : evolves st st1) by by eapply storage_evolves.
  assert (Hc1 : heap st1 !! c = Some cl).
  { rewrite storage_fields in H1. by injection H1 as _ <-. }
  destruct r; intros [= <-]; [|done].
  eapply evolves_trans; [done|].
  eapply evolves_trans; [by eapply rooms_evolves|]. by apply evolves_same.
Qed.

Lemma HandleTyping_evolves (c : addr) (p : RoomPayload) (b : bool) (st st' : State) :
  HandleTyping c p b st = Some st' → evolves st st'.
Proof.
  unfold HandleTyping. destruct (heap st !! c) as [cl|]; [|done]. simpl.
  intros [= <-]. by apply evolves_same.
Qed.

Lemma HandleMessageRead_evolves (c : addr) (p : ReadPayload) (st st' : State) :
  HandleMessageRead time_Parse c p st = Some st' → evolves st st'.
Proof.
  unfold HandleMessageRead. destruct (heap st !! c) as [cl|]; [|done]. simpl.
  destruct (time_Parse _) as [t|]; [|intros [= <-]; apply evolves_refl].
  destruct (storage _ st) as [r st1] eqn:H1.
  assert (Hev : evolves st st1) by by eapply storage_evolves.
  destruct r; [|by intros [= <-]].
  intros Hs. eapply evolves_trans; [done|].
  eapply evolves_trans; [|by eapply SendToUser_evolves]. by apply evolves_same.
Qed.

Lemma foldM_evolves {A : Type} (f : State → A → option State) (l : list A) :
  (∀ s x s', f s x = Some s' → evolves s s') →
  ∀ st st', foldM f l st = Some st' → evolves st st'.
Proof.
  intros Hf. induction l as [|x l IH]; intros st st'; simpl.
  - intros [= <-]. apply evolves_refl.
  - destruct (f st x) as [s1|] eqn:Hx; [|done]. simpl. intros Hl.
    eapply evolves_trans; eauto.
Qed.

Lemma sendUnreadUpdates_evolves (roomID senderID : string) (st st' : State) :
  sendUnreadUpdates roomID senderID st = Some st' → evolves st st'.
Proof.
  unfold sendUnreadUpdates.
  destruct (storage _ st) as [members st1] eqn:H1.
  assert (Hev : evolves st st1) by by eapply storage_evolves.
  destruct members as [l|]; [|by intros [= <-]].
  intros Hf. eapply evolves_trans; [done|].
  eapply foldM_evolves; [|done].
  intros s x s'. unfold unread_for. destruct (decide _); [by intros [= <-]; apply evolves_refl|].
  destruct (storage _ s) as [count s1] eqn:H2.
  assert (evolves s s1) by by eapply storage_evolves.
  destruct count; [|by intros [= <-]].
  intros Hs. eapply evolves_trans; [done|]. by eapply SendToUser_evolves.
Qed.

Lemma handleMessage_evolves (c : addr) (msg : WSMessage) (st st' : State) :
  handleMessage time_Parse time_Format c msg st = Some st' → evolves st st'.
Proof.
  unfold handleMessage.
  repeat (destruct (decide _);
    [ match goal with
      | |- context [Unmarshal ?k ?p] =>
          destruct (Unmarshal k p) as [[]|];
          try (intros [= <-]; apply evolves_refl)
      | _ => idtac
      end |]);
    eauto using HandleSendMessage_evolves, HandleRoomJoin_evolves,
      HandleRoomLeave_evolves, HandleTyping_evolves, HandleMessageRead_evolves.
  - destruct (offer c _ st) as [[sent st1]|] eqn:Ho; [|done].
    intros [= <-]. by eapply offer_evolves.
  - intros [= <-]. apply evolves_refl.
Qed.

Lemma readPump_evolves (c : addr) (message : json) (st st' : State) :
  readPump time_Parse time_Format c message st = Some st' → evolves st st'.
Proof.
  unfold readPump. destruct (Unmarshal_WSMessage message).
  - apply handleMessage_evolves.
  - intros [= <-]. apply evolves_refl.
Qed.

Lemma writePump_evolves (c : addr) (st st' : State) (frame : json) :
  writePump c st = Some (frame, st') → evolves st st'.
Proof.
  unfold writePump. destruct (heap st !! c) as [cl|] eqn:Hc; [|done]. simpl.
  unfold Chan.recv. destruct (Chan.buf (send cl)); [done|]. simpl.
  intros [= _ <-]. by eapply evolves_update.
Qed.

Lemma ServeWS_fields (userID username : string) (st : State) :
  let a := fresh (dom (heap st)) in
  let db := (GetRoomsForUser userID (DB st)).2 in
  heap st !! a = None ∧
  ∃ cl, UserID cl = userID ∧ Username cl = username ∧ send cl = Chan.make 256 ∧
    ServeWS userID username st
    = mkState (<[a := cl]> (heap st)) (clients st) (register st ++ [a])
              (unregister st) (broadcast st) db (spawned st).
Proof.
  intros a db. split.
  - apply not_elem_of_dom, is_fresh.
  - unfold ServeWS. rewrite storage_fields. simpl.
    eexists (mkClient userID username _ (Chan.make 256)). by repeat split.
Qed.

Lemma ServeWS_ok (userID username : string) (st : State) :
  hub_ok st → hub_ok (ServeWS userID username st).
Proof.
  intros (Hmap & Hnd & Hpend).
  destruct (ServeWS_fields userID username st) as (Hfresh & cl & Hid & _ & Hsend & ->).
  set (a := fresh (dom (heap st))) in *.
  assert (Hne : ∀ b cb, heap st !! b = Some cb → b ≠ a) by (intros b cb Hb ->; congruence).
  split; [|split]; simpl.
  - intros u b Hu. destruct (Hmap u b Hu) as (cb & Hcb & Hrest).
    exists cb. rewrite lookup_insert_ne; [done|]. intros ->. by eapply Hne.
  - apply NoDup_app. split; [done|]. split; [|apply NoDup_singleton].
    intros b Hb ->%list_elem_of_singleton.
    destruct (Hpend a Hb) as ((cb & Hcb & _) & _). congruence.
  - intros b [Hb| ->%list_elem_of_singleton]%elem_of_app.
    + destruct (Hpend b Hb) as ((cb & Hcb & Hopen) & Hnl). split; [|done].
      exists cb. rewrite lookup_insert_ne; [done|]. intros ->. by eapply Hne.
    + split; [exists cl; rewrite lookup_insert_eq; by rewrite Hsend|].
      intros [u Hu]. simpl in Hu. destruct (Hmap u a Hu) as (cb & Hcb & _). congruence.
Qed.

Lemma step_hub_ok (act : action) (st st1 : State) :
  hub_ok st → step time_Parse time_Format act st = Some st1 → hub_ok st1.
Proof.
  intros Hok. destruct act as [userID username|[]|c message|c|c| |dt]; simpl.
  - intros [= <-]. by apply ServeWS_ok.
  - destruct (register st) as [|a rest] eqn:Hreg; [by intros [= <-]|].
    destruct (Run_Register_spec st a rest Hok Hreg)
      as (c & st' & data & _ & _ & Hrun & Hok' & _).
    unfold Run in Hrun. rewrite Hreg in Hrun. congruence.
  - destruct (unregister st) as [|a rest] eqn:Hunreg; [by intros [= <-]|].
    intros Hrun.
    assert (Hok0 : hub_ok (set_unregister rest st)) by done.
    destruct (heap st !! a) as [c|] eqn:Ha;
      [|by unfold Run_unregister in Hrun; simpl in Hrun; rewrite Ha in Hrun].
    destruct (Run_unregister_spec _ a c Hok0 Ha) as (st' & data & _ & Hrun' & Hev & _).
    eapply hub_ok_evolves; [exact Hok0|]. congruence.
  - destruct (broadcast st) as [|msg rest]; [by intros [= <-]|].
    intros Hrun.
    assert (Hok0 : hub_ok (set_broadcast rest st)) by done.
    destruct (Run_broadcast_spec msg _ Hok0) as (st' & Hrun' & Hev & _).
    eapply hub_ok_evolves; [exact Hok0|]. congruence.
  - intros Hr. eapply hub_ok_evolves; [done|]. by eapply readPump_evolves.
  - destruct (heap st !! c); [|done]. by intros [= <-].
  - destruct (writePump c st) as [[frame st']|] eqn:Hw; simpl; intros [= <-]; [|done].
    eapply hub_ok_evolves; [done|]. by eapply writePump_evolves.
  - destruct (spawned st) as [|[roomID senderID] rest]; [by intros [= <-]|].
    intros Hs. assert (Hok0 : hub_ok (set_spawned rest st)) by done.
    eapply hub_ok_evolves; [exact Hok0|]. by eapply sendUnreadUpdates_evolves.
  - by intros [= <-].
Qed.

Lemma reachable_hub_ok (st : State) :
  reachable time_Parse time_Format st → hub_ok st.
Proof.
  induction 1 as [db _|act st st1 _ IH Hstep].
  - split; [|split]; simpl.
    + intros u a Hu. by rewrite lookup_empty in Hu.
    + apply NoDup_nil_2.
    + intros a Ha. by apply elem_of_nil in Ha.
  - by eapply step_hub_ok.
Qed.

Lemma steps_reachable (acts : list action) (st st1 : State) :
  reachable time_Parse time_Format st →
  steps time_Parse time_Format acts st = Some st1 →
  reachable time_Parse time_Format st1.
Proof.
  revert st. induction acts as [|act acts IH]; intros st Hr; simpl.
  - by intros [= <-].
  - destruct (step time_Parse time_Format act st) as [s|] eqn:Hs; [|done]. simpl.
    apply IH. by eapply reachable_step.
Qed.

End sessions.

(** ** The claims about the Hub *)
Section hub_claims.

Lemma run_reachable (acts : list action) (st : State) :
  reachable demo_Parse demo_Format st →
  is_Some (steps demo_Parse demo_Format acts st) →
  reachable demo_Parse demo_Format (run acts st).
Proof.
  intros Hr [st1 Hst1]. unfold run. rewrite Hst1. simpl.
  by eapply steps_reachable.
Qed.

(** C6. In every state the server reaches the Hub's map holds at most one
    Session per user id; and when a Client waits to be registered while
    the map holds a Session [old] of the same user id, the register case
    of [Hub.Run] closes the queue of [old] and stores the new Client in
    its place, [old] being no longer in the map under any user id. *)
Theorem single_session_per_user (time_Parse : string → option Z)
    (time_Format : Z → string) (st : State) :
  reachable time_Parse time_Format st →
  at_most_one_session st ∧
  ∀ a rest c old,
    register st = a :: rest → heap st !! a = Some c →
    clients st !! UserID c = Some old →
    ∃ st' oc,
      Run Register st = Some st' ∧
      clients st' !! UserID c = Some a ∧ old ≠ a ∧
      heap st' !! old = Some oc ∧ Chan.closed (send oc) = true ∧
      ¬ live st' old ∧ at_most_one_session st'.
Proof.
  intros Hreach. pose proof (reachable_hub_ok _ _ _ Hreach) as Hok.
  split; [by apply hub_ok_at_most_one|].
  intros a rest c old Hreg Ha Hold.
  destruct (Run_Register_spec st a rest Hok Hreg)
    as (c0 & st' & data & Ha0 & _ & Hrun & Hok' & Hcl & _ & _ & Hclosed & _).
  assert (c0 = c) as -> by congruence.
  destruct (proj1 Hok _ _ Hold) as (oc & Hoc & Hid & Hopen).
  destruct (Hclosed old oc Hold Hoc) as [Hne Hoc'].
  exists st', (closed_client oc). split; [done|].
  split; [by rewrite Hcl, lookup_insert_eq|].
  split; [done|]. split; [done|]. split; [done|].
  split; [|by apply hub_ok_at_most_one].
  intros [u Hu]. rewrite Hcl in Hu.
  destruct (decide (u = UserID c)) as [->|Hneu].
  - rewrite lookup_insert_eq in Hu. congruence.
  - rewrite lookup_insert_ne in Hu by done. apply Hneu.
    by eapply (hub_ok_inj st).
Qed.

Lemma single_session_per_user_witness :
  reachable demo_Parse demo_Format st_reconnecting ∧
  at_most_one_session st_reconnecting ∧
  ∃ st' oc,
    Run Register st_reconnecting = Some st' ∧
    clients st' !! "u1" = Some 1%nat ∧ 0%nat ≠ 1%nat ∧
    heap st' !! 0%nat = Some oc ∧ Chan.closed (send oc) = true ∧
    ¬ live st' 0%nat ∧ at_most_one_session st'.
Proof.
  assert (Hr : reachable demo_Parse demo_Format st_reconnecting).
  { apply run_reachable; [apply reachable_init, demo_db_pk|].
    vm_compute. eexists. reflexivity. }
  split; [exact Hr|].
  destruct (single_session_per_user _ _ _ Hr) as [Hone Hdisp].
  split; [exact Hone|].
  exact (Hdisp 1%nat [] (mkClient "u1" "alice" {["r1"]} (Chan.make 256)) 0%nat
           eq_refl eq_refl eq_refl).
Defined.

Lemma deliver_to_cases (msg : BroadcastMessage) (st' : State) (u : string)
    (a : addr) (c : Client) :
  heap st' !! a = Some (deliver_to msg u c).1 →
  clients st' !! u = (if (deliver_to msg u c).2 then Some a else None) →
  if targeted msg u c then enqueued_or_evicted (Data msg) st' u a c
  else untouched st' u a c.
Proof.
  unfold deliver_to, enqueued_or_evicted, evicted, appended, untouched, enqueue.
  destruct (targeted msg u c); [|done].
  by destruct (Chan.full (send c)) eqn:Hfull.
Qed.

Lemma st_two_reachable : reachable demo_Parse demo_Format st_two.
Proof.
  apply run_reachable; [apply reachable_init, demo_db_pk|].
  vm_compute. eexists. reflexivity.
Qed.

(** The late unregistration of a displaced Session removes nothing and
    yet broadcasts the user as offline to every Session in the map. *)
Lemma late_unregister_broadcasts_offline (st : State) (a : addr) (c : Client) :
  hub_ok st → heap st !! a = Some c → clients st !! UserID c ≠ Some a →
  ∃ st',
    Run_unregister a st = Some st' ∧ clients st' = clients st ∧
    ∀ u b cb, clients st !! u = Some b → heap st !! b = Some cb →
      heap st' !! b
      = Some (enqueue (presence_frame (UserID c) (Username c) "offline") cb).
Proof.
  intros Hok Ha Hne.
  destruct (Run_unregister_spec st a c Hok Ha)
    as (st' & data & Hdata & Hrun & _ & Hcl & Hlive & _).
  unfold unregistered in *. rewrite decide_False in Hcl, Hlive by done.
  injection Hdata as <-.
  exists st'. split; [done|]. split; [done|]. exact Hlive.
Qed.

(** C1 (the code departs from it). Alice is connected twice in a row
    while Bob is connected; after the registration of her second Session
    and the late unregistration of the first, displaced one, Alice's
    second Session is in the Hub's map, and yet the last presence frame
    in Bob's queue reports her offline, so that Bob's client, applying
    the frames in order, ends with Alice absent from its online set. *)
Theorem displaced_unregister_reports_offline :
  reachable demo_Parse demo_Format st_displaced ∧
  clients st_displaced !! "u1" = Some 2%nat ∧
  clients st_displaced !! "u2" = Some 1%nat ∧
  ∃ bob,
    heap st_displaced !! 1%nat = Some bob ∧ UserID bob = "u2" ∧
    Chan.buf (send bob)
    = [presence_frame "u2" "bob" "online"; presence_frame "u1" "alice" "online";
       presence_frame "u1" "alice" "offline"] ∧
    "u1" ∉ online_after (Chan.buf (send bob)) ∅.
Proof.
  split.
  { apply run_reachable; [apply reachable_init, demo_db_pk|].
    vm_compute. eexists. reflexivity. }
  split; [by vm_compute|]. split; [by vm_compute|].
  eexists. split; [by vm_compute|]. split; [done|]. split; [done|].
  apply (bool_decide_unpack _). by vm_compute.
Qed.

Lemma SendToUser_full (st : State) (u : string) (a : addr) (c : Client)
    (data : json) :
  hub_ok st → clients st !! u = Some a → heap st !! a = Some c →
  Chan.full (send c) = true → SendToUser u data st = Some st.
Proof.
  intros Hok Hu Hc Hfull.
  destruct (proj1 Hok u a Hu) as (c0 & Hc0 & _ & Hopen).
  assert (c0 = c) as -> by congruence.
  unfold SendToUser. rewrite Hu.
  rewrite (offer_open a data st c) by done. simpl. f_equal.
  unfold enqueue. rewrite Hfull. by apply set_heap_id.
Qed.

(** C3 as stated fails: a point-to-point send to a Session whose queue
    is full leaves the Session in the Hub's map with its queue open. *)
Lemma SendToUser_full_not_evicted : ¬ every_full_enqueue_evicts.
Proof.
  intros Hclaim.
  assert (Hr : reachable demo_Parse demo_Format st_full).
  { apply run_reachable; [apply reachable_init, demo_db_pk|].
    vm_compute. eexists. reflexivity. }
  assert (∃ c, heap st_full !! 0%nat = Some c ∧ Chan.full (send c) = true)
    as (c & Hc & Hfull) by (eexists; split; by vm_compute).
  destruct (Hclaim st_full "u1" 0%nat c (reachable_hub_ok _ _ _ Hr) eq_refl Hc Hfull)
    as (_ & _ & Hsend).
  destruct (Hsend ping_frame st_full) as [_ Hgone].
  - exact (SendToUser_full st_full "u1" 0%nat c ping_frame
             (reachable_hub_ok _ _ _ Hr) eq_refl Hc Hfull).
  - vm_compute in Hgone. discriminate.
Qed.

(** C3, amended. When the queue of a Session in the Hub's map is full, a
    room broadcast addressed to it evicts it (its queue is closed and it
    leaves the map), whereas a presence broadcast and a point-to-point
    send drop the frame and leave the Session as it is. *)
Theorem full_queue_policy (st : State) (u : string) (a : addr) (c : Client) :
  hub_ok st → clients st !! u = Some a → heap st !! a = Some c →
  Chan.full (send c) = true →
  (∀ msg, targeted msg u c = true →
     ∃ st', Run_broadcast msg st = Some st' ∧ evicted st' u a c) ∧
  (∀ userID username status,
     ∃ st', broadcastPresence userID username status st = Some st' ∧
            untouched st' u a c) ∧
  (∀ data, SendToUser u data st = Some st).
Proof.
  intros Hok Hu Hc Hfull.
  destruct (proj1 Hok u a Hu) as (c0 & Hc0 & _ & Hopen).
  assert (c0 = c) as -> by congruence.
  split; [|split].
  - intros msg Ht.
    destruct (Run_broadcast_spec msg st Hok) as (st' & Hrun & _ & Hl & _).
    exists st'. split; [done|].
    destruct (Hl u a c Hu Hc) as [Hh Hm].
    pose proof (deliver_to_cases msg st' u a c Hh Hm) as Hcases.
    rewrite Ht in Hcases. unfold enqueued_or_evicted in Hcases.
    by rewrite Hfull in Hcases.
  - intros userID username status.
    destruct (broadcastPresence_spec userID username status st Hok)
      as (st' & data & _ & Hbp & _ & Hcl & Hl & _).
    exists st'. split; [done|]. split; [|by rewrite Hcl].
    rewrite (Hl u a c Hu Hc). unfold enqueue. by rewrite Hfull.
  - intros data. by eapply SendToUser_full.
Qed.

Lemma full_queue_policy_witness :
  hub_ok st_full ∧ clients st_full !! "u1" = Some 0%nat ∧
  ∃ c, heap st_full !! 0%nat = Some c ∧ Chan.full (send c) = true ∧
    (∀ msg, targeted msg "u1" c = true →
       ∃ st', Run_broadcast msg st_full = Some st' ∧ evicted st' "u1" 0%nat c) ∧
    (∀ userID username status,
       ∃ st', broadcastPresence userID username status st_full = Some st' ∧
              untouched st' "u1" 0%nat c) ∧
    (∀ data, SendToUser "u1" data st_full = Some st_full).
Proof.
  assert (Hr : reachable demo_Parse demo_Format st_full).
  { apply run_reachable; [apply reachable_init, demo_db_pk|].
    vm_compute. eexists. reflexivity. }
  pose proof (reachable_hub_ok _ _ _ Hr) as Hok.
  split; [exact Hok|]. split; [reflexivity|].
  assert (∃ c, heap st_full !! 0%nat = Some c ∧ Chan.full (send c) = true)
    as (c & Hc & Hfull) by (eexists; split; by vm_compute).
  exists c. split; [exact Hc|]. split; [exact Hfull|].
  exact (full_queue_policy st_full "u1" 0%nat c Hok eq_refl Hc Hfull).
Defined.

End hub_claims.

(** ** The claims about the domain operations *)
Section room_claims.

Lemma Exec_fields (stmt : sqlDB → sqlDB) (db : sqlDB) :
  Exec stmt db
  = if hd false (faults db) then (None, (round_trip db).2)
    else (Some tt, stmt (round_trip db).2).
Proof. unfold Exec, round_trip. by destruct (faults db) as [|[] ?]. Qed.

Lemma round_trip_tables (db : sqlDB) : same_tables db (round_trip db).2.
Proof. unfold round_trip. by destruct (faults db). Qed.

Lemma find_update_last_read (roomID userID : string) (t : Z) (r u : string)
    (rows : list Member) :
  List.find (is_key r u)
    ((fun rm => if is_key roomID userID rm then with_last_read t rm else rm) <$> rows)
  = (fun rm => if is_key roomID userID rm then with_last_read t rm else rm)
      <$> List.find (is_key r u) rows.
Proof.
  induction rows as [|x rows IH]; [done|]. cbn [fmap list_fmap List.find].
  change (list_fmap _ _ ?f ?l) with (f <$> l).
  assert (is_key r u (if is_key roomID userID x then with_last_read t x else x)
          = is_key r u x) as -> by by destruct (is_key roomID userID x).
  by destruct (is_key r u x).
Qed.

Lemma HandleMessageRead_cases (time_Parse : string → option Z) (c : addr)
    (p : ReadPayload) (st : State) (cl : Client) :
  heap st !! c = Some cl →
  HandleMessageRead time_Parse c p st
  = match time_Parse (rdp_Timestamp p) with
    | None => Some st
    | Some t =>
        let r := UpdateLastRead (rdp_RoomID p) (UserID cl) t (DB st) in
        match r.1 with
        | None => Some (set_DB r.2 st)
        | Some _ =>
            SendToUser (UserID cl) (unread_frame (rdp_RoomID p) 0)
              (BroadcastToRoom (rdp_RoomID p)
                 (read_receipt_frame (rdp_RoomID p) (UserID cl) (Username cl)
                    (rdp_Timestamp p))
                 (UserID cl) (set_DB r.2 st))
        end
    end.
Proof.
  intros Hc. unfold HandleMessageRead. rewrite Hc. simpl.
  destruct (time_Parse _) as [t|]; [|done].
  rewrite storage_fields. by destruct ((UpdateLastRead _ _ _ _).1).
Qed.

Lemma HandleMessageRead_returns (time_Parse : string → option Z) (c : addr)
    (p : ReadPayload) (st : State) (cl : Client) :
  hub_ok st → heap st !! c = Some cl →
  ∃ st', HandleMessageRead time_Parse c p st = Some st'.
Proof.
  intros Hok Hc. rewrite (HandleMessageRead_cases _ _ _ _ cl Hc).
  destruct (time_Parse _) as [t|]; [|by eexists]. simpl.
  destruct ((UpdateLastRead _ _ _ _).1); [|by eexists].
  unfold SendToUser. simpl.
  destruct (clients st !! UserID cl) as [a|] eqn:Ha; [|by eexists].
  destruct (proj1 Hok _ _ Ha) as (s & Hs & _ & Hopen).
  erewrite offer_open; [|exact Hs|done]. by eexists.
Qed.






(** C2 as stated fails: Bob's [last_read_at] in [r1] is 10; he submits
    the parsed timestamp 5 and the stored value becomes 5, not the
    maximum 10. *)
Lemma mark_read_goes_back : ¬ mark_read_keeps_max.
Proof.
  intros Hclaim.
  pose (st' := default st_two (HandleMessageRead demo_Parse 1%nat early_read st_two)).
  assert (Hrun : HandleMessageRead demo_Parse 1%nat early_read st_two = Some st')
    by (vm_compute; reflexivity).
  assert (Hcl : heap st_two !! 1%nat = Some (session st_two 1%nat))
    by (vm_compute; reflexivity).
  assert (Hrm : membership (rdp_RoomID early_read) (UserID (session st_two 1%nat))
                  (DB st_two) = Some (mkMember "r1" "u2" 2 10))
    by (vm_compute; reflexivity).
  destruct (Hclaim demo_Parse 1%nat early_read st_two st' (session st_two 1%nat) 5%Z
              (mkMember "r1" "u2" 2 10)
              (reachable_hub_ok _ _ _ st_two_reachable) Hcl
              ltac:(vm_compute; reflexivity) ltac:(vm_compute; reflexivity) Hrm Hrun)
    as (rm' & Hrm' & Hmax).
  vm_compute in Hrm'. injection Hrm' as <-. vm_compute in Hmax. discriminate.
Qed.

(** C2, amended. A mark-read on (room, user) whose timestamp parses to
    [t] and whose storage update is answered leaves the membership row of
    (room, user) with [last_read_at = t], whatever the stored value was
    (the last submission wins; this is the maximum exactly when [t] is not
    older than the stored value), and leaves the rows of every other key
    as they were. *)
Theorem mark_read_overwrites (time_Parse : string → option Z) (c : addr)
    (p : ReadPayload) (st : State) (cl : Client) (t : Z) :
  hub_ok st → heap st !! c = Some cl →
  time_Parse (rdp_Timestamp p) = Some t →
  hd false (faults (DB st)) = false →
  ∃ st', HandleMessageRead time_Parse c p st = Some st' ∧
    membership (rdp_RoomID p) (UserID cl) (DB st')
    = with_last_read t <$> membership (rdp_RoomID p) (UserID cl) (DB st) ∧
    ∀ r u, (r, u) ≠ (rdp_RoomID p, UserID cl) →
      membership r u (DB st') = membership r u (DB st).
Proof.
  intros Hok Hc Ht Hfault.
  assert (Hdb : ∀ st', HandleMessageRead time_Parse c p st = Some st' →
    room_members (DB st')
    = (fun rm => if is_key (rdp_RoomID p) (UserID cl) rm
                 then with_last_read t rm else rm) <$> room_members (DB st)).
  { intros st'. rewrite (HandleMessageRead_cases _ _ _ _ cl Hc), Ht.
    unfold UpdateLastRead. rewrite Exec_fields, Hfault. simpl.
    intros Hs. apply SendToUser_evolves in Hs as Hev.
    unfold SendToUser in Hs. simpl in Hs.
    destruct (clients st !! UserID cl) as [a|].
    - unfold offer in Hs. simpl in Hs. destruct (heap st !! a) as [s|]; [|done].
      simpl in Hs. destruct (Chan.try_send _ _); try done; injection Hs as <-;
        simpl; by rewrite (proj1 (proj2 (round_trip_tables (DB st)))).
    - injection Hs as <-. simpl.
      by rewrite (proj1 (proj2 (round_trip_tables (DB st)))). }
  destruct (HandleMessageRead_returns time_Parse c p st cl Hok Hc) as [st' Hrun].
  exists st'. split; [done|]. unfold membership. rewrite (Hdb st' Hrun).
  rewrite !find_update_last_read. split.
  - destruct (List.find _ _) as [rm|] eqn:Hfind; [|done]. simpl.
    apply find_some in Hfind as [_ ->]. done.
  - intros r u Hne. rewrite find_update_last_read. destruct (List.find _ _) as [rm|] eqn:Hfind; [|done]. simpl.
    apply find_some in Hfind as [_ Hk].
    destruct (is_key (rdp_RoomID p) (UserID cl) rm) eqn:Hk'; [|done].
    apply is_key_true in Hk as [Hr Hu]. apply is_key_true in Hk' as [Hr' Hu'].
    destruct Hne. congruence.
Qed.

Lemma mark_read_overwrites_witness :
  hub_ok st_two ∧ heap st_two !! 1%nat = Some (session st_two 1%nat) ∧
  demo_Parse (rdp_Timestamp early_read) = Some 5%Z ∧
  hd false (faults (DB st_two)) = false ∧
  ∃ st', HandleMessageRead demo_Parse 1%nat early_read st_two = Some st' ∧
    membership "r1" (UserID (session st_two 1%nat)) (DB st')
    = with_last_read 5
        <$> membership "r1" (UserID (session st_two 1%nat)) (DB st_two) ∧
    ∀ r u, (r, u) ≠ ("r1", UserID (session st_two 1%nat)) →
      membership r u (DB st') = membership r u (DB st_two).
Proof.
  assert (Hok : hub_ok st_two) by exact (reachable_hub_ok _ _ _ st_two_reachable).
  assert (Hcl : heap st_two !! 1%nat = Some (session st_two 1%nat))
    by (vm_compute; reflexivity).
  assert (Ht : demo_Parse (rdp_Timestamp early_read) = Some 5%Z)
    by (vm_compute; reflexivity).
  assert (Hf : hd false (faults (DB st_two)) = false) by (vm_compute; reflexivity).
  split; [exact Hok|]. split; [exact Hcl|]. split; [exact Ht|]. split; [exact Hf|].
  exact (mark_read_overwrites demo_Parse 1%nat early_read st_two
           (session st_two 1%nat) 5%Z Hok Hcl Ht Hf).
Defined.

Lemma Query_fields {A : Type} (q : sqlDB → A) (db : sqlDB) :
  Query q db
  = if hd false (faults db) then (None, (round_trip db).2)
    else (Some (q (round_trip db).2), (round_trip db).2).
Proof. unfold Query, round_trip. by destruct (faults db) as [|[] ?]. Qed.

Lemma IsRoomMember_answer (roomID userID : string) (db : sqlDB) :
  (IsRoomMember roomID userID db).1
  = if hd false (faults db) then None else Some (is_member roomID userID db).
Proof.
  unfold IsRoomMember. rewrite Query_fields. unfold is_member.
  destruct (hd false (faults db)); [done|]. simpl.
  by rewrite (proj1 (proj2 (round_trip_tables db))).
Qed.

Lemma sendError_open (c : addr) (message code : string) (st : State) (cl : Client) :
  heap st !! c = Some cl → Chan.closed (send cl) = false →
  sendError c message code st
  = Some (set_heap (<[c := enqueue (error_frame message code) cl]> (heap st)) st).
Proof.
  intros Hc Hopen. unfold sendError.
  by rewrite (offer_open c _ st cl Hc Hopen).
Qed.

Lemma quiet_update (c : addr) (cl' : Client) (st : State) (db : sqlDB) :
  quiet_for_others c st (set_heap (<[c := cl']> (heap st)) (set_DB db st)).
Proof.
  repeat split; try done. intros b Hb. simpl. by rewrite lookup_insert_ne.
Qed.

Lemma HandleSendMessage_cases (time_Format : Z → string) (c : addr)
    (p : SendMessagePayload) (st : State) (cl : Client) :
  heap st !! c = Some cl → valid_send p →
  HandleSendMessage time_Format c p st
  = let r1 := IsRoomMember (smp_RoomID p) (UserID cl) (DB st) in
    let st1 := set_DB r1.2 st in
    match r1.1 with
    | Some true =>
        let r2 := CreateMessage (smp_RoomID p) (UserID cl) (smp_Content p) r1.2 in
        let st2 := set_DB r2.2 st1 in
        match r2.1 with
        | None => sendError c "failed to send message" "INTERNAL_ERROR" st2
        | Some msg =>
            Some (go_sendUnreadUpdates (smp_RoomID p) (UserID cl)
                    (BroadcastToRoom (smp_RoomID p)
                       (ignore_err (NewWSMessage TypeMessageNew
                          (Some (PNewMessage
                             (mkNewMessagePayload (m_ID (mws_Message msg))
                                (m_RoomID (mws_Message msg))
                                (m_SenderID (mws_Message msg))
                                (mws_SenderUsername msg)
                                (m_Content (mws_Message msg))
                                (time_Format (m_CreatedAt (mws_Message msg))))))))
                       "" st2))
        end
    | _ => sendError c "not a member of this room" "NOT_MEMBER" st1
    end.
Proof.
  intros Hc [Hcontent Hroom]. unfold HandleSendMessage. rewrite Hc. simpl.
  rewrite (bool_decide_false _ Hcontent), (bool_decide_false _ Hroom). simpl.
  rewrite storage_fields.
  destruct ((IsRoomMember _ _ _).1) as [[]|]; try done.
  rewrite storage_fields. simpl.
  by destruct ((CreateMessage _ _ _ _).1).
Qed.

Lemma st_flaky_reachable : reachable demo_Parse demo_Format st_flaky.
Proof.
  apply run_reachable; [apply reachable_init, demo_db_pk|].
  vm_compute. eexists. reflexivity.
Qed.

(** C4 as stated fails: Alice asks to join [r2] while the storage call
    of the join returns an error; the operation ends and her queue is as
    it was, without an error frame. *)
Lemma join_error_is_silent : ¬ storage_errors_reported.
Proof.
  intros Hclaim.
  pose (st' := default st_flaky
                 (handleMessage demo_Parse demo_Format 0%nat join_r2 st_flaky)).
  assert (Hrun : handleMessage demo_Parse demo_Format 0%nat join_r2 st_flaky = Some st')
    by (vm_compute; reflexivity).
  assert (Hcl : heap st_flaky !! 0%nat = Some (session st_flaky 0%nat))
    by (vm_compute; reflexivity).
  assert (Hfailed : storage_failed st_flaky st').
  { exists [true]. split; [vm_compute; reflexivity|]. left. }
  destruct (Hclaim demo_Parse demo_Format 0%nat join_r2 st_flaky st'
              (session st_flaky 0%nat)
              (reachable_hub_ok _ _ _ st_flaky_reachable) Hcl
              ltac:(vm_compute; reflexivity) ltac:(vm_compute; reflexivity)
              ltac:(right; left; reflexivity) Hrun Hfailed)
    as [[message Hframe] _].
  vm_compute in Hframe. discriminate.
Qed.

(** C4, amended. For a sender whose queue is open: when the membership
    check of send-message returns an error the sender is offered (by a
    non-blocking send) an error frame with code NOT_MEMBER; when the
    append of send-message returns an error the sender is offered an
    error frame with code INTERNAL_ERROR; when the storage operation of
    join-room, leave-room or mark-read returns an error the operation
    ends without a frame to anyone.  In every case nothing reaches
    another Session: no queue of another Client changes, no broadcast is
    queued and no goroutine is started. *)
Theorem storage_error_outcomes (c : addr) (cl : Client) (st : State) :
  heap st !! c = Some cl → Chan.closed (send cl) = false →
  (∀ time_Format p, valid_send p → hd false (faults (DB st)) = true →
     ∃ st', HandleSendMessage time_Format c p st = Some st' ∧
       heap st' !! c
       = Some (enqueue (error_frame "not a member of this room" "NOT_MEMBER") cl) ∧
       quiet_for_others c st st') ∧
  (∀ time_Format p rest, valid_send p →
     faults (DB st) = false :: true :: rest →
     is_member (smp_RoomID p) (UserID cl) (DB st) = true →
     ∃ st', HandleSendMessage time_Format c p st = Some st' ∧
       heap st' !! c
       = Some (enqueue (error_frame "failed to send message" "INTERNAL_ERROR") cl) ∧
       quiet_for_others c st st') ∧
  (∀ p, hd false (faults (DB st)) = true →
     ∃ st', HandleRoomJoin c p st = Some st' ∧ silent st st') ∧
  (∀ p, hd false (faults (DB st)) = true →
     ∃ st', HandleRoomLeave c p st = Some st' ∧ silent st st') ∧
  (∀ time_Parse p t, time_Parse (rdp_Timestamp p) = Some t →
     hd false (faults (DB st)) = true →
     ∃ st', HandleMessageRead time_Parse c p st = Some st' ∧ silent st st').
Proof.
  intros Hc Hopen. split; [|split; [|split; [|split]]].
  - intros time_Format p Hvalid Hfault.
    rewrite (HandleSendMessage_cases _ _ _ _ cl Hc Hvalid). simpl.
    rewrite IsRoomMember_answer, Hfault.
    rewrite (sendError_open c _ _ _ cl) by done.
    eexists. split; [done|]. split; [simpl; by rewrite lookup_insert_eq|].
    exact (quiet_update c _ st _).
  - intros time_Format p rest Hvalid Hfaults Hmember.
    rewrite (HandleSendMessage_cases _ _ _ _ cl Hc Hvalid). simpl.
    rewrite IsRoomMember_answer, Hfaults, Hmember. simpl.
    unfold IsRoomMember, Query, CreateMessage, round_trip. rewrite Hfaults. simpl.
    rewrite (sendError_open c _ _ _ cl) by done.
    eexists. split; [done|]. split; [simpl; by rewrite lookup_insert_eq|].
    exact (quiet_update c _ st _).
  - intros p Hfault. unfold HandleRoomJoin. rewrite Hc. simpl.
    rewrite storage_fields. unfold AddRoomMember. rewrite Exec_fields, Hfault. simpl.
    eexists. split; [done|]. by repeat split.
  - intros p Hfault. unfold HandleRoomLeave. rewrite Hc. simpl.
    rewrite storage_fields. unfold RemoveRoomMember. rewrite Exec_fields, Hfault. simpl.
    eexists. split; [done|]. by repeat split.
  - intros time_Parse p t Ht Hfault.
    rewrite (HandleMessageRead_cases _ _ _ _ cl Hc), Ht. simpl.
    unfold UpdateLastRead. rewrite Exec_fields, Hfault. simpl.
    eexists. split; [done|]. by repeat split.
Qed.

Lemma storage_error_outcomes_witness :
  heap st_flaky !! 0%nat = Some (session st_flaky 0%nat) ∧
  Chan.closed (send (session st_flaky 0%nat)) = false ∧
  hd false (faults (DB st_flaky)) = true ∧
  ∃ st', HandleRoomJoin 0%nat (mkRoomPayload "r2") st_flaky = Some st' ∧
         silent st_flaky st'.
Proof.
  assert (Hcl : heap st_flaky !! 0%nat = Some (session st_flaky 0%nat))
    by (vm_compute; reflexivity).
  assert (Hopen : Chan.closed (send (session st_flaky 0%nat)) = false)
    by (vm_compute; reflexivity).
  assert (Hf : hd false (faults (DB st_flaky)) = true) by (vm_compute; reflexivity).
  split; [exact Hcl|]. split; [exact Hopen|]. split; [exact Hf|].
  exact (proj1 (proj2 (proj2 (storage_error_outcomes 0%nat _ st_flaky Hcl Hopen)))
           (mkRoomPayload "r2") Hf).
Defined.

(** The basic fan-out: sender and member both get the message, the
    member alone the unread count (two messages of Alice in [r1] are newer
    than Bob's [last_read_at]). *)
Example basic_fan_out :
  Chan.buf (send (session st_fan_out 0%nat)) = [message_new_hi] ∧
  Chan.buf (send (session st_fan_out 1%nat)) = [message_new_hi; unread_frame "r1" 2].
Proof. split; vm_compute; reflexivity. Qed.

(** C5 as stated fails: Carol, who has no membership row in [r1],
    sends [typing.start] for [r1] and the typing broadcast is queued for
    the room. *)
Lemma typing_needs_no_membership : ¬ broadcasts_need_membership.
Proof.
  intros Hclaim.
  pose (st' := default st_three
                 (handleMessage demo_Parse demo_Format 2%nat typing_r1 st_three)).
  assert (Hrun : handleMessage demo_Parse demo_Format 2%nat typing_r1 st_three = Some st')
    by (vm_compute; reflexivity).
  assert (Hcl : heap st_three !! 2%nat = Some (session st_three 2%nat))
    by (vm_compute; reflexivity).
  pose (m := mkBroadcastMessage "r1" (typing_frame "r1" "u3" "carol" true) "u3").
  assert (Hq : broadcast st' = broadcast st_three ++ [m]) by (vm_compute; reflexivity).
  pose proof (Hclaim demo_Parse demo_Format 2%nat typing_r1 st_three st'
                (session st_three 2%nat) m Hcl
                ltac:(right; left; reflexivity) Hrun Hq) as Hmember.
  vm_compute in Hmember. discriminate.
Qed.

(** C5, amended. Of the frames that lead to a room broadcast, only
    [message.send] consults membership: its broadcast is queued only if
    storage answered, at send time, that the sender is a member of the
    room, and a sender storage does not report as a member is offered an
    error frame with code NOT_MEMBER while nothing reaches anyone else.
    [typing.start] and [typing.stop] always queue their broadcast, and
    [room.leave] and [message.read] queue theirs whenever their storage
    call is answered, whether or not the sender has a membership row. *)
Theorem membership_checked_on_send_only (c : addr) (cl : Client) (st : State) :
  heap st !! c = Some cl →
  (∀ time_Format p st',
     HandleSendMessage time_Format c p st = Some st' →
     broadcast st' ≠ broadcast st →
     hd false (faults (DB st)) = false ∧
     is_member (smp_RoomID p) (UserID cl) (DB st) = true) ∧
  (∀ time_Format p, valid_send p → Chan.closed (send cl) = false →
     is_member (smp_RoomID p) (UserID cl) (DB st) = false →
     ∃ st', HandleSendMessage time_Format c p st = Some st' ∧
       heap st' !! c
       = Some (enqueue (error_frame "not a member of this room" "NOT_MEMBER") cl) ∧
       quiet_for_others c st st') ∧
  (∀ p isTyping,
     HandleTyping c p isTyping st
     = Some (BroadcastToRoom (rp_RoomID p)
               (typing_frame (rp_RoomID p) (UserID cl) (Username cl) isTyping)
               (UserID cl) st)) ∧
  (∀ p, hd false (faults (DB st)) = false →
     ∃ st', HandleRoomLeave c p st = Some st' ∧
       broadcast st'
       = broadcast st ++
         [mkBroadcastMessage (rp_RoomID p)
            (member_frame TypeRoomMemberLeft (rp_RoomID p) (UserID cl) (Username cl))
            ""]) ∧
  (∀ time_Parse p t, hub_ok st → time_Parse (rdp_Timestamp p) = Some t →
     hd false (faults (DB st)) = false →
     ∃ st', HandleMessageRead time_Parse c p st = Some st' ∧
       broadcast st'
       = broadcast st ++
         [mkBroadcastMessage (rdp_RoomID p)
            (read_receipt_frame (rdp_RoomID p) (UserID cl) (Username cl)
               (rdp_Timestamp p))
            (UserID cl)]).
Proof.
  intros Hc. split; [|split; [|split; [|split]]].
  - intros time_Format p st'. unfold HandleSendMessage. rewrite Hc. simpl.
    assert (Hse : ∀ m code s0 s1, sendError c m code s0 = Some s1 →
                                  broadcast s1 = broadcast s0).
    { intros m code s0 s1. unfold sendError, offer.
      destruct (heap s0 !! c) as [cl0|]; [|done]. simpl.
      destruct (Chan.try_send _ _); by intros [= <-]. }
    destruct (_ || _); [intros Hs Hne; destruct Hne; by eapply Hse|].
    rewrite storage_fields, IsRoomMember_answer.
    destruct (hd false (faults (DB st)));
      [intros Hs Hne; destruct Hne; by rewrite (Hse _ _ _ _ Hs)|].
    destruct (is_member _ _ _);
      [done|intros Hs Hne; destruct Hne; by rewrite (Hse _ _ _ _ Hs)].
  - intros time_Format p Hvalid Hopen Hmember.
    rewrite (HandleSendMessage_cases _ _ _ _ cl Hc Hvalid). simpl.
    rewrite IsRoomMember_answer, Hmember.
    assert (sendError c "not a member of this room" "NOT_MEMBER"
              (set_DB (IsRoomMember (smp_RoomID p) (UserID cl) (DB st)).2 st)
            = Some (set_heap (<[c := enqueue (error_frame "not a member of this room"
                                                "NOT_MEMBER") cl]> (heap st))
                      (set_DB (IsRoomMember (smp_RoomID p) (UserID cl) (DB st)).2 st)))
      as Hse by by rewrite (sendError_open c _ _ _ cl).
    exists (set_heap (<[c := enqueue (error_frame "not a member of this room"
                                       "NOT_MEMBER") cl]> (heap st))
              (set_DB (IsRoomMember (smp_RoomID p) (UserID cl) (DB st)).2 st)).
    split; [by destruct (hd false (faults (DB st)))|].
    split; [simpl; by rewrite lookup_insert_eq|apply quiet_update].
  - intros p isTyping. unfold HandleTyping. by rewrite Hc.
  - intros p Hfault. unfold HandleRoomLeave. rewrite Hc. simpl.
    rewrite storage_fields. unfold RemoveRoomMember. rewrite Exec_fields, Hfault.
    simpl. eexists. split; done.
  - intros time_Parse p t Hok Ht Hfault.
    destruct (HandleMessageRead_returns time_Parse c p st cl Hok Hc) as [st' Hrun].
    exists st'. split; [done|]. revert Hrun.
    rewrite (HandleMessageRead_cases _ _ _ _ cl Hc), Ht. simpl.
    unfold UpdateLastRead. rewrite Exec_fields, Hfault. simpl.
    unfold SendToUser, offer. simpl.
    destruct (clients st !! UserID cl) as [a|]; [|by intros [= <-]].
    destruct (heap st !! a) as [s|]; [|done]. simpl.
    destruct (Chan.try_send _ _); by intros [= <-].
Qed.

Lemma membership_checked_on_send_only_witness :
  heap st_three !! 2%nat = Some (session st_three 2%nat) ∧
  is_member "r1" (UserID (session st_three 2%nat)) (DB st_three) = false ∧
  HandleTyping 2%nat (mkRoomPayload "r1") true st_three
  = Some (BroadcastToRoom "r1"
            (typing_frame "r1" (UserID (session st_three 2%nat))
               (Username (session st_three 2%nat)) true)
            (UserID (session st_three 2%nat)) st_three).
Proof.
  assert (Hcl : heap st_three !! 2%nat = Some (session st_three 2%nat))
    by (vm_compute; reflexivity).
  split; [exact Hcl|]. split; [vm_compute; reflexivity|].
  exact (proj1 (proj2 (proj2 (membership_checked_on_send_only 2%nat _ st_three Hcl)))
           (mkRoomPayload "r1") true).
Defined.

End room_claims.

(** * More of the code *)

(** ** The life of a Client *)
Section lives.

Variable time_Parse : string → option Z.
Variable time_Format : Z → string.
Variable R : Client → Client → Prop.
Hypothesis R_grows : ∀ c c', grow_step c c' → R c c'.

Lemma descends_refl (st : State) : descends_by R st st.
Proof.
  split; [done|]. intros a c' Hc'. by rewrite Hc'.
Qed.

Lemma descends_trans (st1 st2 st3 : State) :
  descends_by R st1 st2 → descends_by R st2 st3 → descends_by R st1 st3.
Proof.
  intros [Ha1 Hd1] [Ha2 Hd2]. split; [by auto|].
  intros a c3 Hc3. specialize (Hd2 a c3 Hc3).
  destruct (heap st2 !! a) as [c2|] eqn:Hc2.
  - specialize (Hd1 a c2 Hc2). destruct (heap st1 !! a) as [c1|].
    + by etrans.
    + destruct Hd1 as (c0 & Hnew & Hsteps). exists c0. split; [done|by etrans].
  - destruct (heap st1 !! a) as [c1|] eqn:Hc1; [|done].
    destruct (Ha1 a) as [c2 Hc2']; [by eexists|congruence].
Qed.

Lemma descends_same (st st' : State) : heap st' = heap st → descends_by R st st'.
Proof. intros Hh. split; rewrite Hh; [done|]. intros a c' Hc'. by rewrite Hc'. Qed.

Lemma descends_update (st : State) (a : addr) (c c' : Client) :
  heap st !! a = Some c → R c c' →
  descends_by R st (set_heap (<[a := c']> (heap st)) st).
Proof.
  intros Hc Hstep. split; simpl.
  - intros b Hb. destruct (decide (a = b)) as [<-|Hne].
    + rewrite lookup_insert_eq. by eexists.
    + by rewrite lookup_insert_ne.
  - intros b cb. destruct (decide (a = b)) as [<-|Hne].
    + rewrite lookup_insert_eq, Hc. intros [= <-]. by apply rtc_once.
    + rewrite lookup_insert_ne by done. intros Hb. by rewrite Hb.
Qed.

Lemma descends_alloc (st : State) (a : addr) (c : Client) :
  heap st !! a = None → newborn c →
  descends_by R st (set_heap (<[a := c]> (heap st)) st).
Proof.
  intros Ha Hnew. split; simpl.
  - intros b Hb. destruct (decide (a = b)) as [<-|Hne].
    + rewrite lookup_insert_eq. by eexists.
    + by rewrite lookup_insert_ne.
  - intros b cb. destruct (decide (a = b)) as [<-|Hne].
    + rewrite lookup_insert_eq, Ha. intros [= <-]. by exists c.
    + rewrite lookup_insert_ne by done. intros Hb. by rewrite Hb.
Qed.

Lemma offer_descends (a : addr) (data : json) (st st' : State) (sent : bool) :
  offer a data st = Some (sent, st') → descends_by R st st'.
Proof.
  unfold offer. destruct (heap st !! a) as [c|] eqn:Hc; [|done]. simpl.
  destruct (Chan.try_send (send c) data) as [ch| |] eqn:Hs; intros [= <- <-].
  - eapply descends_update; [done|]. apply R_grows. by econstructor.
  - apply descends_refl.
Qed.

Lemma close_send_descends (a : addr) (st st' : State) :
  close_send a st = Some st' → descends_by R st st'.
Proof.
  unfold close_send. destruct (heap st !! a) as [c|] eqn:Hc; [|done]. simpl.
  destruct (Chan.close (send c)) as [ch|] eqn:Hs; [|done]. simpl. intros [= <-].
  eapply descends_update; [done|]. apply R_grows. by econstructor.
Qed.

Lemma foldM_descends {A : Type} (f : State → A → option State) (l : list A) :
  (∀ s x s', f s x = Some s' → descends_by R s s') →
  ∀ st st', foldM f l st = Some st' → descends_by R st st'.
Proof.
  intros Hf. induction l as [|x l IH]; intros st st'; simpl.
  - intros [= <-]. apply descends_refl.
  - destruct (f st x) as [s1|] eqn:Hx; [|done]. simpl. intros Hl.
    eapply descends_trans; eauto.
Qed.

Lemma broadcastPresence_descends (userID username status : string) (st st' : State) :
  broadcastPresence userID username status st = Some st' → descends_by R st st'.
Proof.
  unfold broadcastPresence. destruct (NewWSMessage _ _) as [data|];
    [|intros [= <-]; apply descends_refl].
  apply foldM_descends. intros s [u a] s'.
  destruct (offer a data s) as [[sent s1]|] eqn:Ho; [|done]. intros [= <-].
  by eapply offer_descends.
Qed.

Lemma deliver_descends (msg : BroadcastMessage) (s : State) (e : string * addr)
    (s' : State) :
  deliver msg s e = Some s' → descends_by R s s'.
Proof.
  destruct e as [u a]. unfold deliver.
  destruct (decide _); [intros [= <-]; apply descends_refl|].
  destruct (heap s !! a) as [c|]; [|done]. simpl.
  destruct (decide _); [|intros [= <-]; apply descends_refl].
  destruct (offer a (Data msg) s) as [[[] s1]|] eqn:Ho; [| |done]; simpl.
  - intros [= <-]. by eapply offer_descends.
  - destruct (close_send a s1) as [s2|] eqn:Hcl; [|done]. simpl. intros [= <-].
    eapply descends_trans; [by eapply offer_descends|].
    eapply descends_trans; [by eapply close_send_descends|].
    by apply descends_same.
Qed.

Lemma Run_descends (ev : ready) (st st' : State) :
  Run ev st = Some st' → descends_by R st st'.
Proof.
  destruct ev; simpl.
  - destruct (register st) as [|a rest]; [intros [= <-]; apply descends_refl|].
    unfold Run_register. simpl.
    destruct (heap st !! a) as [c|]; [|done]. simpl.
    destruct (clients st !! UserID c) as [old|].
    + destruct (close_send old (set_register rest st)) as [s1|] eqn:Hcl; [|done].
      simpl. intros Hbp.
      eapply descends_trans; [by apply (descends_same st (set_register rest st))|].
      eapply descends_trans; [by eapply close_send_descends|].
      eapply descends_trans; [|by eapply broadcastPresence_descends].
      by apply descends_same.
    + simpl. intros Hbp.
      eapply descends_trans; [|by eapply broadcastPresence_descends].
      by apply descends_same.
  - destruct (unregister st) as [|a rest]; [intros [= <-]; apply descends_refl|].
    unfold Run_unregister. simpl.
    destruct (heap st !! a) as [c|]; [|done]. simpl.
    destruct (clients st !! UserID c) as [existing|];
      [destruct (decide (existing = a))|].
    + match goal with
      | |- context [close_send ?x ?s] =>
          destruct (close_send x s) as [s1|] eqn:Hcl; [|done]
      end.
      simpl. intros Hbp.
      eapply descends_trans; [|by eapply broadcastPresence_descends].
      eapply descends_trans; [|by eapply close_send_descends].
      by apply descends_same.
    + simpl. intros Hbp.
      eapply descends_trans; [|by eapply broadcastPresence_descends].
      by apply descends_same.
    + simpl. intros Hbp.
      eapply descends_trans; [|by eapply broadcastPresence_descends].
      by apply descends_same.
  - destruct (broadcast st) as [|msg rest]; [intros [= <-]; apply descends_refl|].
    intros Hrun.
    eapply descends_trans; [by apply (descends_same st (set_broadcast rest st))|].
    revert Hrun. apply foldM_descends. apply deliver_descends.
Qed.

Lemma storage_descends {A : Type} (call : sqlDB → result A) (st st1 : State)
    (r : option A) :
  storage call st = (r, st1) → descends_by R st st1.
Proof.
  unfold storage. destruct (call (DB st)) as [r0 db]. intros [= _ <-].
  by apply descends_same.
Qed.

Lemma SendToUser_descends (userID : string) (data : json) (st st' : State) :
  SendToUser userID data st = Some st' → descends_by R st st'.
Proof.
  unfold SendToUser. destruct (clients st !! userID) as [a|].
  - destruct (offer a data st) as [[sent st1]|] eqn:Ho; [|done].
    intros [= <-]. by eapply offer_descends.
  - intros [= <-]. apply descends_refl.
Qed.

Lemma sendError_descends (c : addr) (message code : string) (st st' : State) :
  sendError c message code st = Some st' → descends_by R st st'.
Proof.
  unfold sendError. destruct (offer c _ st) as [[sent st1]|] eqn:Ho; [|done].
  intros [= <-]. by eapply offer_descends.
Qed.

Lemma rooms_descends (st : State) (c : addr) (cl : Client) (r : gset string) :
  heap st !! c = Some cl →
  descends_by R st (set_heap (<[c := set_rooms r cl]> (heap st)) st).
Proof. intros Hc. eapply descends_update; [done|]. apply R_grows. constructor. Qed.

Lemma HandleSendMessage_descends (c : addr) (p : SendMessagePayload) (st st' : State) :
  HandleSendMessage time_Format c p st = Some st' → descends_by R st st'.
Proof.
  unfold HandleSendMessage. destruct (heap st !! c) as [cl|]; [|done]. simpl.
  destruct (_ || _); [apply sendError_descends|].
  destruct (storage (IsRoomMember _ _) st) as [isMember st1] eqn:H1.
  assert (descends_by R st st1) by by eapply storage_descends.
  destruct isMember as [[]|];
    try (intros; eapply descends_trans; [done|]; by eapply sendError_descends).
  destruct (storage (CreateMessage _ _ _) st1) as [created st2] eqn:H2.
  assert (descends_by R st1 st2) by by eapply storage_descends.
  assert (descends_by R st st2) by by eapply descends_trans.
  destruct created as [msg|]; [|intros; eapply descends_trans; [done|];
                                  by eapply sendError_descends].
  intros [= <-].
  eapply descends_trans; [done|]. by apply descends_same.
Qed.

Lemma HandleRoomJoin_descends (c : addr) (p : RoomPayload) (st st' : State) :
  HandleRoomJoin c p st = Some st' → descends_by R st st'.
Proof.
  unfold HandleRoomJoin. destruct (heap st !! c) as [cl|] eqn:Hc; [|done]. simpl.
  destruct (storage _ st) as [r st1] eqn:H1.
  assert (Hev : descends_by R st st1) by by eapply storage_descends.
  assert (Hc1 : heap st1 !! c = Some cl).
  { rewrite storage_fields in H1. by injection H1 as _ <-. }
  destruct r; intros [= <-]; [|done].
  eapply descends_trans; [done|].
  eapply descends_trans; [by eapply rooms_descends|]. by apply descends_same.
Qed.

Lemma HandleRoomLeave_descends (c : addr) (p : RoomPayload) (st st' : State) :
  HandleRoomLeave c p st = Some st' → descends_by R st st'.
Proof.
  unfold HandleRoomLeave. destruct (heap st !! c) as [cl|] eqn:Hc; [|done]. simpl.
  destruct (storage _ st) as [r st1] eqn:H1.
  assert (Hev : descends_by R st st1) by by eapply storage_descends.
  assert (Hc1 : heap st1 !! c = Some cl).
  { rewrite storage_fields in H1. by injection H1 as _ <-. }
  destruct r; intros [= <-]; [|done].
  eapply descends_trans; [done|].
  eapply descends_trans; [by eapply rooms_descends|]. by apply descends_same.
Qed.

Lemma HandleTyping_descends (c : addr) (p : RoomPayload) (b : bool) (st st' : State) :
  HandleTyping c p b st = Some st' → descends_by R st st'.
Proof.
  unfold HandleTyping. destruct (heap st !! c) as [cl|]; [|done]. simpl.
  intros [= <-]. by apply descends_same.
Qed.

Lemma HandleMessageRead_descends (c : addr) (p : ReadPayload) (st st' : State) :
  HandleMessageRead time_Parse c p st = Some st' → descends_by R st st'.
Proof.
  unfold HandleMessageRead. destruct (heap st !! c) as [cl|]; [|done]. simpl.
  destruct (time_Parse _) as [t|]; [|intros [= <-]; apply descends_refl].
  destruct (storage _ st) as [r st1] eqn:H1.
  assert (Hev : descends_by R st st1) by by eapply storage_descends.
  destruct r; [|by intros [= <-]].
  intros Hs. eapply descends_trans; [done|].
  eapply descends_trans; [|by eapply SendToUser_descends]. by apply descends_same.
Qed.

Lemma sendUnreadUpdates_descends (roomID senderID : string) (st st' : State) :
  sendUnreadUpdates roomID senderID st = Some st' → descends_by R st st'.
Proof.
  unfold sendUnreadUpdates.
  destruct (storage _ st) as [members st1] eqn:H1.
  assert (Hev : descends_by R st st1) by by eapply storage_descends.
  destruct members as [l|]; [|by intros [= <-]].
  intros Hf. eapply descends_trans; [done|].
  eapply foldM_descends; [|done].
  intros s x s'. unfold unread_for.
  destruct (decide _); [by intros [= <-]; apply descends_refl|].
  destruct (storage _ s) as [count s1] eqn:H2.
  assert (descends_by R s s1) by by eapply storage_descends.
  destruct count; [|by intros [= <-]].
  intros Hs. eapply descends_trans; [done|]. by eapply SendToUser_descends.
Qed.

Lemma handleMessage_descends (c : addr) (msg : WSMessage) (st st' : State) :
  handleMessage time_Parse time_Format c msg st = Some st' → descends_by R st st'.
Proof.
  unfold handleMessage.
  repeat (destruct (decide _);
    [ match goal with
      | |- context [Unmarshal ?k ?p] =>
          destruct (Unmarshal k p) as [[]|];
          try (intros [= <-]; apply descends_refl)
      | _ => idtac
      end |]);
    eauto using HandleSendMessage_descends, HandleRoomJoin_descends,
      HandleRoomLeave_descends, HandleTyping_descends, HandleMessageRead_descends.
  - destruct (offer c _ st) as [[sent st1]|] eqn:Ho; [|done].
    intros [= <-]. by eapply offer_descends.
  - intros [= <-]. apply descends_refl.
Qed.

Lemma step_descends (act : action) (st st' : State) :
  (∀ c, act ≠ Write c) →
  step time_Parse time_Format act st = Some st' → descends_by R st st'.
Proof.
  intros Hact. destruct act as [userID username|ev|c message|c|c| |dt]; simpl.
  - intros [= <-].
    destruct (ServeWS_fields userID username st) as (Hfresh & cl & _ & _ & Hsend & ->).
    eapply descends_trans;
      [by apply (descends_alloc st (fresh (dom (heap st))) cl)|].
    by apply descends_same.
  - apply Run_descends.
  - unfold readPump. destruct (Unmarshal_WSMessage message).
    + apply handleMessage_descends.
    + intros [= <-]. apply descends_refl.
  - destruct (heap st !! c); [|done]. intros [= <-]. by apply descends_same.
  - by destruct (Hact c).
  - destruct (spawned st) as [|[roomID senderID] rest];
      [intros [= <-]; apply descends_refl|].
    intros Hs.
    eapply descends_trans; [by apply (descends_same st (set_spawned rest st))|].
    by eapply sendUnreadUpdates_descends.
  - intros [= <-]. by apply descends_same.
Qed.

Lemma Write_cases (c : addr) (st st' : State) :
  step time_Parse time_Format (Write c) st = Some st' →
  st' = st ∨
  ∃ cl x ch, heap st !! c = Some cl ∧ Chan.recv (send cl) = Some (x, ch) ∧
             st' = set_heap (<[c := set_send ch cl]> (heap st)) st.
Proof.
  simpl. unfold writePump. destruct (heap st !! c) as [cl|] eqn:Hc; simpl;
    [|intros [= <-]; by left].
  destruct (Chan.recv (send cl)) as [[x ch]|] eqn:Hr; simpl; intros [= <-];
    [|by left].
  right. by exists cl, x, ch.
Qed.

End lives.

Section lives_claims.

Variable time_Parse : string → option Z.
Variable time_Format : Z → string.

(** Every step of the server is a step in the life of its Clients. *)
Lemma step_client_steps (act : action) (st st' : State) :
  step time_Parse time_Format act st = Some st' → descends_by client_step st st'.
Proof.
  intros Hstep.
  assert (Hcase : (∃ c, act = Write c) ∨ ∀ c, act ≠ Write c)
    by (destruct act; (by left; eexists) || by right).
  destruct Hcase as [[c ->]|Hno].
  - destruct (Write_cases _ _ c st st' Hstep) as [->|(cl & x & ch & Hc & Hr & ->)].
    + apply descends_refl.
    + eapply descends_update; [done|]. by econstructor.
  - by eapply (step_descends _ _ client_step); [constructor| |].
Qed.

Lemma steps_client_steps (acts : list action) (st st' : State) :
  steps time_Parse time_Format acts st = Some st' → descends_by client_step st st'.
Proof.
  revert st. induction acts as [|act acts IH]; intros st; simpl.
  - intros [= <-]. apply descends_refl.
  - destruct (step time_Parse time_Format act st) as [s|] eqn:Hs; [|done]. simpl.
    intros Hr. eapply descends_trans; [by eapply step_client_steps|by apply IH].
Qed.

Lemma client_step_bounded (c c' : Client) :
  client_step c c' → bounded c → bounded c'.
Proof.
  intros Hstep [Hcap Hlen]. unfold bounded.
  destruct Hstep as [c1 c2 [c0 x ch Hs|c0 ch Hs|c0 r]|c0 x ch Hr]; simpl.
  - unfold Chan.try_send, Chan.full in Hs.
    destruct (Chan.closed (send c0)); [done|].
    destruct (Chan.cap (send c0) <=? length (Chan.buf (send c0)))%nat eqn:Hfull; [done|].
    injection Hs as <-. simpl. rewrite length_app. simpl.
    apply Nat.leb_gt in Hfull. lia.
  - unfold Chan.close in Hs. destruct (Chan.closed (send c0)); [done|].
    by injection Hs as <-.
  - done.
  - unfold Chan.recv in Hr. destruct (Chan.buf (send c0)) as [|y rest] eqn:Hb; [done|].
    injection Hr as _ <-. simpl in *. split; [done|lia].
Qed.

Lemma rtc_client_step_bounded (c c' : Client) :
  rtc client_step c c' → bounded c → bounded c'.
Proof. induction 1; eauto using client_step_bounded. Qed.

(** X1. In every state the server reaches, the outbound queue of every
    Client has capacity 256 and holds at most 256 frames. *)
Theorem queues_stay_bounded (st : State) (a : addr) (c : Client) :
  reachable time_Parse time_Format st → heap st !! a = Some c → bounded c.
Proof.
  intros Hreach. revert a c.
  induction Hreach as [db _|act st st1 _ IH Hstep]; intros a c Hc.
  - simpl in Hc. by rewrite lookup_empty in Hc.
  - destruct (step_client_steps act st st1 Hstep) as [_ Hd].
    specialize (Hd a c Hc). destruct (heap st !! a) as [c0|] eqn:Hc0.
    + eapply rtc_client_step_bounded; [done|]. by eapply IH.
    + destruct Hd as (c0 & Hnew & Hsteps).
      eapply rtc_client_step_bounded; [done|].
      unfold bounded. rewrite Hnew. simpl. split; [done|lia].
Qed.

Lemma grow_step_appended (c c' : Client) : grow_step c c' → appended_to c c'.
Proof.
  intros [c0 x ch Hs|c0 ch Hs|c0 r]; unfold appended_to; simpl.
  - unfold Chan.try_send in Hs. destruct (Chan.closed (send c0)); [done|].
    destruct (Chan.full (send c0)); [done|]. injection Hs as <-. by exists [x].
  - unfold Chan.close in Hs. destruct (Chan.closed (send c0)); [done|].
    injection Hs as <-. exists []. by rewrite app_nil_r.
  - exists []. by rewrite app_nil_r.
Qed.

Lemma rtc_grow_step_appended (c c' : Client) :
  rtc grow_step c c' → appended_to c c'.
Proof.
  induction 1 as [c|c c1 c2 Hstep _ [l2 IH]].
  - exists []. by rewrite app_nil_r.
  - destruct (grow_step_appended _ _ Hstep) as [l1 H1].
    exists (l1 ++ l2). by rewrite IH, H1, (assoc_L (++)).
Qed.

(** X2. One step of the server changes the queue of a Client only at its
    ends: frames are added behind the queued ones, in every step but the
    one of the Client's own writer, which takes the frame at the front
    and adds none.  Queued frames are not reordered, dropped or changed. *)
Theorem queue_is_fifo (act : action) (st st' : State) (a : addr) (c : Client) :
  step time_Parse time_Format act st = Some st' → heap st !! a = Some c →
  ∃ c', heap st' !! a = Some c' ∧
        (appended_to c c' ∨ (act = Write a ∧ front_taken c c')).
Proof.
  intros Hstep Hc.
  assert (Hcase : (∃ w, act = Write w) ∨ ∀ w, act ≠ Write w)
    by (destruct act; (by left; eexists) || by right).
  destruct Hcase as [[w ->]|Hno].
  - destruct (Write_cases _ _ w st st' Hstep) as [->|(cl & x & ch & Hw & Hr & ->)].
    + exists c. split; [done|]. left. exists []. by rewrite app_nil_r.
    + simpl. destruct (decide (w = a)) as [->|Hne].
      * rewrite lookup_insert_eq. eexists. split; [done|]. right. split; [done|].
        assert (cl = c) as -> by congruence.
        unfold Chan.recv in Hr. destruct (Chan.buf (send c)) as [|y rest] eqn:Hb; [done|].
        injection Hr as <- <-. exists y. by rewrite Hb.
      * rewrite lookup_insert_ne by done. exists c. split; [done|].
        left. exists []. by rewrite app_nil_r.
  - destruct (step_descends time_Parse time_Format grow_step (fun _ _ H => H)
                act st st' Hno Hstep) as [Halloc Hd].
    destruct (Halloc a) as [c' Hc']; [by eexists|].
    exists c'. split; [done|]. left.
    specialize (Hd a c' Hc'). rewrite Hc in Hd. by apply rtc_grow_step_appended.
Qed.

Lemma client_step_drained (c c' : Client) :
  client_step c c' → Chan.closed (send c) = true → drained c c'.
Proof.
  intros Hstep Hclosed. unfold drained.
  destruct Hstep as [c1 c2 [c0 x ch Hs|c0 ch Hs|c0 r]|c0 x ch Hr]; simpl.
  - unfold Chan.try_send in Hs. by rewrite Hclosed in Hs.
  - unfold Chan.close in Hs. by rewrite Hclosed in Hs.
  - split; [done|]. by exists 0%nat.
  - unfold Chan.recv in Hr. destruct (Chan.buf (send c0)) as [|y rest] eqn:Hb; [done|].
    injection Hr as _ <-. simpl. split; [done|]. by exists 1%nat.
Qed.

Lemma rtc_client_step_drained (c c' : Client) :
  rtc client_step c c' → Chan.closed (send c) = true → drained c c'.
Proof.
  induction 1 as [c|c c1 c2 Hstep _ IH]; intros Hclosed.
  - split; [done|]. by exists 0%nat.
  - destruct (client_step_drained _ _ Hstep Hclosed) as [Hcl1 [k1 Hk1]].
    destruct (IH Hcl1) as [Hcl2 [k2 Hk2]]. split; [done|].
    exists (k1 + k2)%nat. by rewrite Hk2, Hk1, drop_drop.
Qed.

(** X3. A Client whose queue is closed (a displaced, evicted or
    unregistered Session) stays closed through whatever the server does
    next without panicking, and no frame is queued for it any more: its
    queue only loses frames at the front. *)
Theorem closed_queue_is_final (acts : list action) (st st' : State) (a : addr)
    (c : Client) :
  steps time_Parse time_Format acts st = Some st' →
  heap st !! a = Some c → Chan.closed (send c) = true →
  ∃ c', heap st' !! a = Some c' ∧ drained c c'.
Proof.
  intros Hsteps Hc Hclosed.
  destruct (steps_client_steps acts st st' Hsteps) as [Halloc Hd].
  destruct (Halloc a) as [c' Hc']; [by eexists|].
  exists c'. split; [done|].
  specialize (Hd a c' Hc'). rewrite Hc in Hd. by apply rtc_client_step_drained.
Qed.

End lives_claims.

Section lives_witnesses.

Lemma st_full_reachable : reachable demo_Parse demo_Format st_full.
Proof.
  apply run_reachable; [apply reachable_init, demo_db_pk|].
  vm_compute. eexists. reflexivity.
Qed.

Lemma queues_stay_bounded_witness :
  reachable demo_Parse demo_Format st_full ∧
  heap st_full !! 0%nat = Some (session st_full 0%nat) ∧
  bounded (session st_full 0%nat) ∧
  length (Chan.buf (send (session st_full 0%nat))) = 256%nat.
Proof.
  assert (Hc : heap st_full !! 0%nat = Some (session st_full 0%nat))
    by (vm_compute; reflexivity).
  split; [exact st_full_reachable|]. split; [exact Hc|].
  split; [|vm_compute; reflexivity].
  exact (queues_stay_bounded demo_Parse demo_Format st_full 0%nat _
           st_full_reachable Hc).
Defined.

Lemma queue_is_fifo_witness :
  step demo_Parse demo_Format (Write 1%nat) st_two = Some (run [Write 1%nat] st_two) ∧
  heap st_two !! 1%nat = Some (session st_two 1%nat) ∧
  ∃ c', heap (run [Write 1%nat] st_two) !! 1%nat = Some c' ∧
        (appended_to (session st_two 1%nat) c' ∨
         (Write 1%nat = Write 1%nat ∧ front_taken (session st_two 1%nat) c')).
Proof.
  assert (Hs : step demo_Parse demo_Format (Write 1%nat) st_two
               = Some (run [Write 1%nat] st_two)) by (vm_compute; reflexivity).
  assert (Hc : heap st_two !! 1%nat = Some (session st_two 1%nat))
    by (vm_compute; reflexivity).
  split; [exact Hs|]. split; [exact Hc|].
  exact (queue_is_fifo demo_Parse demo_Format _ _ _ _ _ Hs Hc).
Defined.

Lemma closed_queue_is_final_witness :
  steps demo_Parse demo_Format after_closed st_closed
  = Some (run after_closed st_closed) ∧
  heap st_closed !! 0%nat = Some (session st_closed 0%nat) ∧
  Chan.closed (send (session st_closed 0%nat)) = true ∧
  ∃ c', heap (run after_closed st_closed) !! 0%nat = Some c' ∧
        drained (session st_closed 0%nat) c'.
Proof.
  assert (Hs : steps demo_Parse demo_Format after_closed st_closed
               = Some (run after_closed st_closed)) by (vm_compute; reflexivity).
  assert (Hc : heap st_closed !! 0%nat = Some (session st_closed 0%nat))
    by (vm_compute; reflexivity).
  assert (Hcl : Chan.closed (send (session st_closed 0%nat)) = true)
    by (vm_compute; reflexivity).
  split; [exact Hs|]. split; [exact Hc|]. split; [exact Hcl|].
  exact (closed_queue_is_final demo_Parse demo_Format _ _ _ _ _ Hs Hc Hcl).
Defined.

End lives_witnesses.

(** ** More of the Hub *)
Section hub_more.

Lemma hub_ok_NoDup_addrs (st : State) :
  hub_ok st → NoDup ((map_to_list (clients st)).*2).
Proof.
  intros Hok. apply NoDup_fmap_2_strong; [|apply NoDup_map_to_list].
  intros [u1 a1] [u2 a2] H1%elem_of_map_to_list H2%elem_of_map_to_list Heq.
  simpl in Heq. subst a2. f_equal. by eapply hub_ok_inj.
Qed.

Lemma foldM_close_send (l : list (string * addr)) (st : State) :
  NoDup (l.*2) →
  (∀ u a, (u, a) ∈ l → ∃ c, heap st !! a = Some c ∧ Chan.closed (send c) = false) →
  ∃ st', foldM (fun s '(_, a) => close_send a s) l st = Some st' ∧
    clients st' = clients st ∧ register st' = register st ∧
    unregister st' = unregister st ∧ broadcast st' = broadcast st ∧
    DB st' = DB st ∧ spawned st' = spawned st ∧
    ∀ a, heap st' !! a
         = if decide (a ∈ l.*2) then closed_client <$> heap st !! a
           else heap st !! a.
Proof.
  revert st. induction l as [|[u a] l IH]; intros st Hnd Hopen.
  - exists st. by repeat split.
  - rewrite fmap_cons in Hnd. apply NoDup_cons in Hnd as [Ha Hnd]. simpl in Ha.
    destruct (Hopen u a) as (c & Hc & Hcl); [left|].
    simpl. rewrite (close_send_open a st c Hc Hcl). simpl.
    destruct (IH (set_heap (<[a := closed_client c]> (heap st)) st) Hnd)
      as (st' & Hfold & Hcs & Hr & Hu & Hb & Hd & Hs & Hheap).
    { intros u' a' Hin. destruct (Hopen u' a') as (c' & Hc' & Hcl'); [by right|].
      exists c'. split; [|done]. simpl. rewrite lookup_insert_ne; [done|].
      intros ->. apply Ha. apply list_elem_of_fmap. by exists (u', a'). }
    exists st'. split; [done|]. do 6 (split; [done|]).
    intros b. rewrite Hheap. simpl.
    destruct (decide (b = a)) as [->|Hne].
    + rewrite decide_False by done. rewrite decide_True by left.
      by rewrite lookup_insert_eq, Hc.
    + rewrite lookup_insert_ne by done.
      destruct (decide (b ∈ l.*2)).
      * rewrite decide_True; [done|by right].
      * rewrite decide_False; [done|]. by intros [|]%elem_of_cons.
Qed.

(** X4. [Hub.Shutdown] in a state that satisfies the Hub's invariant
    closes the queue of every Session in the map and does not remove the
    Sessions from the map; from then on, the unregister case of [Hub.Run]
    for any of these Sessions panics, closing a closed channel. *)
Theorem Shutdown_then_unregister_panics (st : State) :
  hub_ok st →
  ∃ st', Shutdown st = Some st' ∧ clients st' = clients st ∧
    ∀ u a c, clients st !! u = Some a → heap st !! a = Some c →
      heap st' !! a = Some (closed_client c) ∧ Run_unregister a st' = None.
Proof.
  intros Hok. destruct (map_entries_facts st) as (_ & Hin & _).
  destruct (foldM_close_send (map_to_list (clients st)) st (hub_ok_NoDup_addrs st Hok))
    as (st' & Hfold & Hcs & _ & _ & _ & _ & _ & Hheap).
  { intros u a Hua%Hin. destruct (proj1 Hok u a Hua) as (c & Hc & _ & Hopen). eauto. }
  exists st'. split; [done|]. split; [done|].
  intros u a c Hu Hc.
  assert (Hc' : heap st' !! a = Some (closed_client c)).
  { rewrite Hheap, decide_True, Hc; [done|].
    apply list_elem_of_fmap. exists (u, a). split; [done|]. by apply Hin. }
  split; [done|].
  destruct (proj1 Hok u a Hu) as (c0 & Hc0 & Hid & _).
  assert (c0 = c) as -> by congruence.
  unfold Run_unregister. rewrite Hc'. simpl. rewrite Hcs, Hid, Hu.
  rewrite decide_True by done.
  unfold close_send. simpl. by rewrite Hc'.
Qed.

Lemma Shutdown_then_unregister_panics_witness :
  hub_ok st_two ∧
  ∃ st', Shutdown st_two = Some st' ∧ clients st' = clients st_two ∧
    heap st' !! 1%nat = Some (closed_client (session st_two 1%nat)) ∧
    Run_unregister 1%nat st' = None.
Proof.
  assert (Hok : hub_ok st_two) by exact (reachable_hub_ok _ _ _ st_two_reachable).
  split; [exact Hok|].
  destruct (Shutdown_then_unregister_panics st_two Hok) as (st' & Hs & Hc & Hall).
  exists st'. split; [exact Hs|]. split; [exact Hc|].
  exact (Hall "u2" 1%nat (session st_two 1%nat) eq_refl
           ltac:(vm_compute; reflexivity)).
Defined.

Lemma Run_Register_fields (st st' : State) (a : addr) (rest : list addr) :
  hub_ok st → register st = a :: rest → Run Register st = Some st' →
  unregister st' = unregister st ∧ broadcast st' = broadcast st ∧
  DB st' = DB st ∧ spawned st' = spawned st.
Proof.
  intros Hok Hreg.
  destruct (proj2 (proj2 Hok) a) as ((c & Ha & Hopen) & Hnl); [rewrite Hreg; left|].
  destruct (register_map_ok st a rest c Hok Hreg Ha)
    as (st1 & Heq & Ha1 & Hcl & Hok1 & Hr1 & Hu1 & Hb1 & Hd1 & Hs1 & _).
  destruct (broadcastPresence_spec (UserID c) (Username c) "online" _ Hok1)
    as (st2 & data & _ & Hbp & _ & _ & _ & _ & _ & Hu2 & Hb2 & Hd2 & Hs2).
  unfold Run. rewrite Hreg. unfold Run_register.
  change (heap (set_register rest st)) with (heap st).
  change (clients (set_register rest st)) with (clients st).
  rewrite Ha. simpl. rewrite Heq. simpl. rewrite Hbp. intros [= <-].
  rewrite Hu2, Hb2, Hd2, Hs2. simpl. by rewrite Hu1, Hb1, Hd1, Hs1.
Qed.

Lemma presence_frame_eq (userID username status : string) :
  NewWSMessage TypePresenceUpdate
    (Some (PPresenceUpdate (mkPresenceUpdatePayload userID username status)))
  = Some (presence_frame userID username status).
Proof. reflexivity. Qed.

Section visits.

Variable time_Parse : string → option Z.
Variable time_Format : Z → string.

(** X5. A connection that is accepted, registered and then ended, with
    no other registration or unregistration pending, leaves its user
    without a Session, also when the user had one before: that one is
    closed and gets no further frame.  The Session of every other user is
    offered the online frame and then the offline frame, and the queue of
    the ended connection holds its own online frame only. *)
Theorem visit_round_trip (userID username : string) (st : State) :
  hub_ok st → register st = [] → unregister st = [] →
  ∃ st' c,
    steps time_Parse time_Format (visit_of userID username st) st = Some st' ∧
    clients st' = delete userID (clients st) ∧
    heap st' !! fresh (dom (heap st)) = Some c ∧
    Chan.closed (send c) = true ∧
    Chan.buf (send c) = [presence_frame userID username "online"] ∧
    (∀ v b cb, v ≠ userID → clients st !! v = Some b → heap st !! b = Some cb →
       heap st' !! b
       = Some (enqueue (presence_frame userID username "offline")
                 (enqueue (presence_frame userID username "online") cb))) ∧
    (∀ b cb, clients st !! userID = Some b → heap st !! b = Some cb →
       heap st' !! b = Some (closed_client cb)).
Proof.
  intros Hok Hreg Hunreg. set (a := fresh (dom (heap st))).
  destruct (ServeWS_fields userID username st) as (Hfresh & cl & Hid & Hname & Hsend & Hserve).
  fold a in Hfresh, Hserve.
  pose proof (ServeWS_ok userID username st Hok) as Hok1.
  set (st1 := ServeWS userID username st) in *.
  assert (Hreg1 : register st1 = [a]) by (by rewrite Hserve; simpl; rewrite Hreg).
  destruct (Run_Register_spec st1 a [] Hok1 Hreg1)
    as (c & st2 & data & Hc & Hdata & Hrun & Hok2 & Hcl2 & Hreg2 & Ha2 & Hold2 & Hoth2).
  assert (c = cl) as ->.
  { rewrite Hserve in Hc. simpl in Hc. rewrite lookup_insert_eq in Hc. congruence. }
  rewrite Hid, Hname in *. rewrite presence_frame_eq in Hdata. injection Hdata as <-.
  destruct (Run_Register_fields st1 st2 a [] Hok1 Hreg1 Hrun) as (Hun2 & _).
  assert (Hcl1 : clients st1 = clients st) by (by rewrite Hserve).
  assert (Hun1 : unregister st1 = []) by (by rewrite Hserve).
  assert (Hheap1 : ∀ b, b ≠ a → heap st1 !! b = heap st !! b).
  { intros b Hb. rewrite Hserve. simpl. by rewrite lookup_insert_ne. }
  set (on := presence_frame userID username "online") in *.
  set (c2 := enqueue on cl) in *.
  assert (Hid2 : UserID c2 = userID).
  { unfold c2, enqueue. by destruct (Chan.full (send cl)). }
  assert (Hname2 : Username c2 = username).
  { unfold c2, enqueue. by destruct (Chan.full (send cl)). }
  set (s := set_unregister [] (readPump_exit a st2)).
  assert (Hoks : hub_ok s) by exact Hok2.
  assert (Has : heap s !! a = Some c2) by exact Ha2.
  destruct (Run_unregister_spec s a c2 Hoks Has)
    as (st' & data & Hdata & Hrun' & _ & Hcl' & Hlive' & Hdead' & _).
  rewrite Hid2, Hname2, presence_frame_eq in Hdata. injection Hdata as <-.
  set (off := presence_frame userID username "offline") in *.
  assert (Hun : unregistered a c2 s
                = set_heap (<[a := closed_client c2]> (heap s))
                    (set_clients (delete userID (clients s)) s)).
  { unfold unregistered. rewrite Hid2. rewrite decide_True; [done|].
    change (clients s) with (clients st2). rewrite Hcl2. by rewrite lookup_insert_eq. }
  rewrite Hun in Hcl', Hlive', Hdead'. simpl in Hcl', Hlive', Hdead'.
  assert (Hdel : delete userID (clients st2) = delete userID (clients st)).
  { rewrite Hcl2, Hcl1. by rewrite delete_insert_eq. }
  rewrite Hdel in Hcl', Hlive', Hdead'.
  assert (Hnl : ∀ b, (∀ v, v ≠ userID → clients st !! v ≠ Some b) →
                heap st' !! b = <[a := closed_client c2]> (heap st2) !! b).
  { intros b Hb. apply Hdead'. intros [v Hv]. simpl in Hv.
    apply lookup_delete_Some in Hv as [Hne Hv]. by eapply Hb. }
  assert (Hna : ∀ v, clients st !! v ≠ Some a).
  { intros v Hv. destruct (proj1 Hok v a Hv) as (cb & Hcb & _). congruence. }
  exists st', (closed_client c2).
  split.
  { unfold visit_of. fold a. cbn [steps step]. fold st1. cbn [mbind option_bind].
    rewrite Hrun. cbn [mbind option_bind]. rewrite Ha2. cbn [mbind option_bind].
    unfold Run. change (unregister (readPump_exit a st2)) with (unregister st2 ++ [a]).
    rewrite Hun2, Hun1. simpl. fold s. by rewrite Hrun'. }
  split; [done|].
  split. { rewrite Hnl; [by rewrite lookup_insert_eq|]. intros v _. apply Hna. }
  split; [done|].
  split.
  { unfold c2, enqueue. rewrite Hsend. reflexivity. }
  split.
  - intros v b cb Hne Hv Hb. apply (Hlive' v b).
    + by rewrite lookup_delete_ne.
    + assert (b ≠ a) by (intros ->; by eapply Hna).
      rewrite lookup_insert_ne by done.
      apply (Hoth2 v b cb); [done|by rewrite Hcl1|by rewrite Hheap1].
  - intros b cb Hu Hb.
    assert (b ≠ a) by (intros ->; by eapply Hna).
    rewrite Hnl.
    + rewrite lookup_insert_ne by done.
      apply (Hold2 b cb); [by rewrite Hcl1|by rewrite Hheap1].
    + intros v Hne Hv. apply Hne. by eapply (hub_ok_inj st).
Qed.

End visits.

Lemma visit_round_trip_witness :
  ∃ st' c,
    steps demo_Parse demo_Format (visit_of "u3" "carol" st_two) st_two = Some st' ∧
    clients st' = delete "u3" (clients st_two) ∧
    heap st' !! fresh (dom (heap st_two)) = Some c ∧
    Chan.closed (send c) = true ∧
    Chan.buf (send c) = [presence_frame "u3" "carol" "online"] ∧
    (∀ v b cb, v ≠ "u3" → clients st_two !! v = Some b → heap st_two !! b = Some cb →
       heap st' !! b
       = Some (enqueue (presence_frame "u3" "carol" "offline")
                 (enqueue (presence_frame "u3" "carol" "online") cb))) ∧
    (∀ b cb, clients st_two !! "u3" = Some b → heap st_two !! b = Some cb →
       heap st' !! b = Some (closed_client cb)).
Proof.
  apply (visit_round_trip demo_Parse demo_Format "u3" "carol" st_two).
  - exact (reachable_hub_ok _ _ _ st_two_reachable).
  - vm_compute; reflexivity.
  - vm_compute; reflexivity.
Defined.

End hub_more.

(** ** The tables under the server's steps *)
Section tables.

Variable time_Parse : string → option Z.
Variable time_Format : Z → string.

Lemma moves_refl (st : State) : moves st st.
Proof. apply rtc_refl. Qed.

Lemma moves_trans (st1 st2 st3 : State) : moves st1 st2 → moves st2 st3 → moves st1 st3.
Proof. unfold moves. intros. by etrans. Qed.

Lemma moves_same (st st' : State) : DB st' = DB st → moves st st'.
Proof. unfold moves. intros ->. apply rtc_refl. Qed.

Lemma offer_DB (a : addr) (data : json) (st st' : State) (sent : bool) :
  offer a data st = Some (sent, st') → DB st' = DB st.
Proof.
  unfold offer. destruct (heap st !! a) as [c|]; [|done]. simpl.
  destruct (Chan.try_send _ _); [| |done]; by intros [= _ <-].
Qed.

Lemma close_send_DB (a : addr) (st st' : State) :
  close_send a st = Some st' → DB st' = DB st.
Proof.
  unfold close_send. destruct (heap st !! a) as [c|]; [|done]. simpl.
  destruct (Chan.close _); [|done]. by intros [= <-].
Qed.

Lemma foldM_moves {A : Type} (f : State → A → option State) (l : list A) :
  (∀ s x s', f s x = Some s' → moves s s') →
  ∀ st st', foldM f l st = Some st' → moves st st'.
Proof.
  intros Hf. induction l as [|x l IH]; intros st st'; simpl.
  - intros [= <-]. apply moves_refl.
  - destruct (f st x) as [s1|] eqn:H1; [|done]. simpl. intros H2.
    eapply moves_trans; [by eapply Hf|by apply IH].
Qed.

Lemma broadcastPresence_moves (u n s : string) (st st' : State) :
  broadcastPresence u n s st = Some st' → moves st st'.
Proof.
  unfold broadcastPresence. destruct (NewWSMessage _ _) as [data|].
  - apply foldM_moves. intros s0 [v a] s'.
    destruct (offer a data s0) as [[sent s1]|] eqn:Ho; [|done]. simpl.
    intros [= <-]. apply moves_same. by eapply offer_DB.
  - intros [= <-]. apply moves_refl.
Qed.

Lemma Run_moves (ev : ready) (st st' : State) : Run ev st = Some st' → moves st st'.
Proof.
  destruct ev; simpl.
  - destruct (register st) as [|a rest]; [intros [= <-]; apply moves_refl|].
    unfold Run_register. destruct (heap _ !! a) as [c|]; [|done]. simpl.
    destruct (clients st !! UserID c) as [old|].
    + destruct (close_send old _) as [st1|] eqn:Hcl; [|done]. simpl.
      intros Hbp. eapply moves_trans; [|by eapply broadcastPresence_moves].
      apply moves_same. simpl. by rewrite (close_send_DB _ _ _ Hcl).
    + simpl. intros Hbp. eapply moves_trans; [|by eapply broadcastPresence_moves].
      by apply moves_same.
  - destruct (unregister st) as [|a rest]; [intros [= <-]; apply moves_refl|].
    unfold Run_unregister. destruct (heap _ !! a) as [c|]; [|done]. simpl.
    destruct (clients st !! UserID c) as [existing|]; [destruct (decide _)|].
    + destruct (close_send a _) as [st1|] eqn:Hcl; [|done]. simpl.
      intros Hbp. eapply moves_trans; [|by eapply broadcastPresence_moves].
      apply moves_same. by rewrite (close_send_DB _ _ _ Hcl).
    + simpl. intros Hbp. eapply moves_trans; [|by eapply broadcastPresence_moves].
      by apply moves_same.
    + simpl. intros Hbp. eapply moves_trans; [|by eapply broadcastPresence_moves].
      by apply moves_same.
  - destruct (broadcast st) as [|msg rest]; [intros [= <-]; apply moves_refl|].
    intros Hf. eapply moves_trans; [|eapply foldM_moves; [|exact Hf]].
    + by apply moves_same.
    + intros s [u a] s'. unfold deliver.
      destruct (decide _); [intros [= <-]; apply moves_refl|].
      destruct (heap s !! a) as [c|]; [|done]. simpl.
      destruct (decide _); [|intros [= <-]; apply moves_refl].
      destruct (offer a _ s) as [[sent s1]|] eqn:Ho; [|done]. simpl.
      pose proof (offer_DB _ _ _ _ _ Ho) as Hdb.
      destruct sent; [intros [= <-]; by apply moves_same|].
      destruct (close_send a s1) as [s2|] eqn:Hcl; [|done]. simpl.
      intros [= <-]. apply moves_same. simpl.
      by rewrite (close_send_DB _ _ _ Hcl).
Qed.

Lemma storage_moves {A : Type} (call : sqlDB → result A) (st : State) :
  (∀ db, db_call db (call db).2) → moves st (storage call st).2.
Proof.
  intros Hcall. rewrite storage_fields. simpl. apply rtc_once. apply Hcall.
Qed.

Lemma SendToUser_moves (userID : string) (data : json) (st st' : State) :
  SendToUser userID data st = Some st' → moves st st'.
Proof.
  unfold SendToUser. destruct (clients st !! userID) as [a|].
  - destruct (offer a data st) as [[sent st1]|] eqn:Ho; [|done].
    intros [= <-]. apply moves_same. by eapply offer_DB.
  - intros [= <-]. apply moves_refl.
Qed.

Lemma sendError_moves (c : addr) (message code : string) (st st' : State) :
  sendError c message code st = Some st' → moves st st'.
Proof.
  unfold sendError. destruct (offer c _ st) as [[sent st1]|] eqn:Ho; [|done].
  intros [= <-]. apply moves_same. by eapply offer_DB.
Qed.

Lemma HandleSendMessage_moves (c : addr) (p : SendMessagePayload) (st st' : State) :
  HandleSendMessage time_Format c p st = Some st' → moves st st'.
Proof.
  unfold HandleSendMessage. destruct (heap st !! c) as [cl|]; [|done]. simpl.
  destruct (_ || _); [apply sendError_moves|].
  pose proof (storage_moves (IsRoomMember (smp_RoomID p) (UserID cl)) st
                (fun db => call_IsRoomMember _ _ db)) as H1.
  destruct (storage (IsRoomMember _ _) st) as [isMember st1]. simpl in H1.
  destruct isMember as [[]|];
    try (intros; eapply moves_trans; [done|]; by eapply sendError_moves).
  pose proof (storage_moves (CreateMessage (smp_RoomID p) (UserID cl) (smp_Content p))
                st1 (fun db => call_CreateMessage _ _ _ db)) as H2.
  destruct (storage (CreateMessage _ _ _) st1) as [created st2]. simpl in H2.
  assert (moves st st2) by by eapply moves_trans.
  destruct created as [msg|];
    [|intros; eapply moves_trans; [done|]; by eapply sendError_moves].
  simpl. by intros [= <-].
Qed.

Lemma HandleRoomJoin_moves (c : addr) (p : RoomPayload) (st st' : State) :
  HandleRoomJoin c p st = Some st' → moves st st'.
Proof.
  unfold HandleRoomJoin. destruct (heap st !! c) as [cl|]; [|done]. simpl.
  pose proof (storage_moves (AddRoomMember (rp_RoomID p) (UserID cl)) st
                (fun db => call_AddRoomMember _ _ db)) as H1.
  destruct (storage _ st) as [r st1]. simpl in H1.
  by destruct r; intros [= <-].
Qed.

Lemma HandleRoomLeave_moves (c : addr) (p : RoomPayload) (st st' : State) :
  HandleRoomLeave c p st = Some st' → moves st st'.
Proof.
  unfold HandleRoomLeave. destruct (heap st !! c) as [cl|]; [|done]. simpl.
  pose proof (storage_moves (RemoveRoomMember (rp_RoomID p) (UserID cl)) st
                (fun db => call_RemoveRoomMember _ _ db)) as H1.
  destruct (storage _ st) as [r st1]. simpl in H1.
  by destruct r; intros [= <-].
Qed.

Lemma HandleTyping_moves (c : addr) (p : RoomPayload) (b : bool) (st st' : State) :
  HandleTyping c p b st = Some st' → moves st st'.
Proof.
  unfold HandleTyping. destruct (heap st !! c) as [cl|]; [|done]. simpl.
  intros [= <-]. by apply moves_same.
Qed.

Lemma HandleMessageRead_moves (c : addr) (p : ReadPayload) (st st' : State) :
  HandleMessageRead time_Parse c p st = Some st' → moves st st'.
Proof.
  unfold HandleMessageRead. destruct (heap st !! c) as [cl|]; [|done]. simpl.
  destruct (time_Parse _) as [t|]; [|intros [= <-]; apply moves_refl].
  pose proof (storage_moves (UpdateLastRead (rdp_RoomID p) (UserID cl) t) st
                (fun db => call_UpdateLastRead _ _ _ db)) as H1.
  destruct (storage _ st) as [r st1]. simpl in H1.
  destruct r; [|by intros [= <-]].
  intros Hs. eapply moves_trans; [done|].
  eapply moves_trans; [|by eapply SendToUser_moves]. by apply moves_same.
Qed.

Lemma sendUnreadUpdates_moves (roomID senderID : string) (st st' : State) :
  sendUnreadUpdates roomID senderID st = Some st' → moves st st'.
Proof.
  unfold sendUnreadUpdates.
  pose proof (storage_moves (GetRoomMembers roomID) st (fun db => call_GetRoomMembers _ db)) as H1.
  destruct (storage _ st) as [members st1]. simpl in H1.
  destruct members as [l|]; [|by intros [= <-]].
  intros Hf. eapply moves_trans; [done|].
  eapply foldM_moves; [|exact Hf].
  intros s member s'. unfold unread_for.
  destruct (decide _); [intros [= <-]; apply moves_refl|].
  pose proof (storage_moves (GetUnreadCount roomID (u_ID member)) s
                (fun db => call_GetUnreadCount _ _ db)) as H2.
  destruct (storage _ s) as [count s1]. simpl in H2.
  destruct count; [|by intros [= <-]].
  intros Hs. eapply moves_trans; [done|]. by eapply SendToUser_moves.
Qed.

Lemma handleMessage_moves (c : addr) (msg : WSMessage) (st st' : State) :
  handleMessage time_Parse time_Format c msg st = Some st' → moves st st'.
Proof.
  unfold handleMessage.
  repeat (destruct (decide _);
    [destruct (Unmarshal _ _) as [[]|];
       try (intros [= <-]; apply moves_refl);
       eauto using HandleSendMessage_moves, HandleRoomJoin_moves,
         HandleRoomLeave_moves, HandleTyping_moves, HandleMessageRead_moves|]).
  destruct (decide _); [|intros [= <-]; apply moves_refl].
  destruct (offer c _ st) as [[sent st1]|] eqn:Ho; [|done].
  intros [= <-]. apply moves_same. by eapply offer_DB.
Qed.

Lemma step_moves (act : action) (st st' : State) :
  step time_Parse time_Format act st = Some st' → moves st st'.
Proof.
  destruct act as [userID username|ev|c message|c|c| |dt]; simpl.
  - intros [= <-]. unfold ServeWS.
    pose proof (storage_moves (GetRoomsForUser userID) st (fun db => call_GetRoomsForUser _ db)) as H1.
    by destruct (storage _ st) as [r st1].
  - apply Run_moves.
  - unfold readPump. destruct (Unmarshal_WSMessage message);
      [apply handleMessage_moves|intros [= <-]; apply moves_refl].
  - destruct (heap st !! c); [|done]. intros [= <-]. by apply moves_same.
  - intros [= <-]. unfold writePump.
    destruct (heap st !! c) as [cl|]; [|apply moves_refl]. simpl.
    destruct (Chan.recv _) as [[x ch]|]; by apply moves_same.
  - destruct (spawned st) as [|[r s] rest]; [intros [= <-]; apply moves_refl|].
    intros Hs. eapply moves_trans; [|by eapply sendUnreadUpdates_moves].
    by apply moves_same.
  - intros [= <-]. apply rtc_once. apply clock_advances.
Qed.

Lemma steps_moves (acts : list action) (st st' : State) :
  steps time_Parse time_Format acts st = Some st' → moves st st'.
Proof.
  revert st. induction acts as [|act acts IH]; intros st; simpl.
  - intros [= <-]. apply moves_refl.
  - destruct (step _ _ act st) as [st1|] eqn:H1; [|done]. simpl. intros H2.
    eapply moves_trans; [by eapply step_moves|by apply IH].
Qed.

End tables.

Section tables_claims.

Variable time_Parse : string → option Z.
Variable time_Format : Z → string.

Lemma pk_rows_NoDup (rows : list Member) :
  pk_rows rows ↔ NoDup ((fun r => (rm_room_id r, rm_user_id r)) <$> rows).
Proof.
  split; [|apply NoDup_pk_rows].
  intros Hpk. apply NoDup_alt. intros i j k Hi Hj.
  rewrite list_lookup_fmap in Hi, Hj.
  destruct (rows !! i) as [r1|] eqn:H1; [|done].
  destruct (rows !! j) as [r2|] eqn:H2; [|done].
  simpl in Hi, Hj. eapply Hpk; eauto; congruence.
Qed.

Lemma existsb_is_key (roomID userID : string) (rows : list Member) :
  existsb (is_key roomID userID) rows = true
  ↔ (roomID, userID) ∈ (fun r => (rm_room_id r, rm_user_id r)) <$> rows.
Proof.
  rewrite existsb_exists, list_elem_of_fmap. split.
  - intros (rm & Hin & [<- <-]%is_key_true). exists rm. split; [done|].
    by apply list_elem_of_In.
  - intros (rm & [= -> ->] & Hin). exists rm. split; [by apply list_elem_of_In|].
    by apply is_key_true.
Qed.

Lemma round_trip_clock (db : sqlDB) : clock (round_trip db).2 = clock db.
Proof. unfold round_trip. by destruct (faults db). Qed.

Lemma AddRoomMember_pk (roomID userID : string) (db : sqlDB) :
  pk_room_members db → pk_room_members (AddRoomMember roomID userID db).2.
Proof.
  unfold pk_room_members, AddRoomMember. rewrite Exec_fields.
  destruct (round_trip_tables db) as (_ & Hrows & _).
  destruct (hd false (faults db)); simpl; [by rewrite Hrows|].
  destruct (existsb _ _) eqn:Hex; simpl; rewrite Hrows in *; [done|].
  rewrite !pk_rows_NoDup. rewrite fmap_app. intros Hnd.
  apply NoDup_app. split; [done|]. split; [|apply NoDup_singleton].
  intros k Hk ->%list_elem_of_singleton. simpl in Hk.
  apply existsb_is_key in Hk. congruence.
Qed.

Lemma RemoveRoomMember_pk (roomID userID : string) (db : sqlDB) :
  pk_room_members db → pk_room_members (RemoveRoomMember roomID userID db).2.
Proof.
  unfold pk_room_members, RemoveRoomMember. rewrite Exec_fields.
  destruct (round_trip_tables db) as (_ & Hrows & _).
  destruct (hd false (faults db)); simpl; rewrite Hrows; [done|].
  rewrite !pk_rows_NoDup. intros Hnd.
  eapply sublist_NoDup; [exact Hnd|apply fmap_sublist, sublist_filter].
Qed.

Lemma UpdateLastRead_pk (roomID userID : string) (t : Z) (db : sqlDB) :
  pk_room_members db → pk_room_members (UpdateLastRead roomID userID t db).2.
Proof.
  unfold pk_room_members, UpdateLastRead. rewrite Exec_fields.
  destruct (round_trip_tables db) as (_ & Hrows & _).
  destruct (hd false (faults db)); simpl; rewrite Hrows; [done|].
  rewrite !pk_rows_NoDup. rewrite <- list_fmap_compose.
  erewrite list_fmap_ext; [done|]. intros i rm _. simpl.
  by destruct (is_key _ _ rm).
Qed.

Lemma Query_tables {A : Type} (q : sqlDB → A) (db : sqlDB) :
  same_tables db (Query q db).2 ∧ clock (Query q db).2 = clock db.
Proof.
  rewrite Query_fields. pose proof (round_trip_tables db).
  pose proof (round_trip_clock db).
  by destruct (hd false (faults db)).
Qed.

Lemma CreateMessage_tables (roomID senderID content : string) (db : sqlDB) :
  users (CreateMessage roomID senderID content db).2 = users db ∧
  room_members (CreateMessage roomID senderID content db).2 = room_members db ∧
  clock (CreateMessage roomID senderID content db).2 = clock db ∧
  extends (messages db) (messages (CreateMessage roomID senderID content db).2).
Proof.
  unfold CreateMessage.
  destruct (round_trip_tables db) as (Hu & Hrows & Hm).
  pose proof (round_trip_clock db) as Hc.
  destruct (round_trip db) as [failed db1]. simpl in *.
  assert (extends (messages db) (messages db1)) by (exists []; by rewrite app_nil_r, Hm).
  destruct failed; [done|].
  destruct (List.find _ _); [|done]. simpl. do 3 (split; [done|]).
  eexists. by rewrite Hm.
Qed.

Lemma db_call_pk (db db' : sqlDB) :
  db_call db db' → pk_room_members db → pk_room_members db'.
Proof.
  unfold pk_room_members.
  destruct 1 as [r u db|r u db|r db|r u db|r s content db|r u t db|r u db|u db|dt db];
    try (unfold GetRoomMembers, IsRoomMember, GetUnreadCount, GetRoomsForUser;
         intros Hpk; by rewrite (proj1 (proj2 (proj1 (Query_tables _ db))))).
  - apply AddRoomMember_pk.
  - apply RemoveRoomMember_pk.
  - by rewrite (proj1 (proj2 (CreateMessage_tables r s content db))).
  - apply UpdateLastRead_pk.
  - done.
Qed.

(** X6. The primary key of [room_members] holds in every state the
    server reaches: no pair of room and user has two membership rows,
    whatever was joined, left or marked read on the way. *)
Theorem primary_key_is_kept (st : State) :
  reachable time_Parse time_Format st → pk_room_members (DB st).
Proof.
  induction 1 as [db Hpk|act st st1 _ IH Hstep]; [done|].
  pose proof (step_moves _ _ _ _ _ Hstep) as Hm. unfold moves in Hm.
  induction Hm as [|db1 db2 db3 Hcall _ IH']; [done|].
  apply IH'. by eapply db_call_pk.
Qed.

Lemma Exec_keeps (stmt : sqlDB → sqlDB) (db : sqlDB) :
  (∀ d, users (stmt d) = users d ∧ messages (stmt d) = messages d ∧
        clock (stmt d) = clock d) →
  users (Exec stmt db).2 = users db ∧ messages (Exec stmt db).2 = messages db ∧
  clock (Exec stmt db).2 = clock db.
Proof.
  intros Hstmt. rewrite Exec_fields.
  destruct (round_trip_tables db) as (Hu & _ & Hm).
  pose proof (round_trip_clock db) as Hc.
  destruct (hd false (faults db)); simpl; [done|].
  destruct (Hstmt (round_trip db).2) as (-> & -> & ->). done.
Qed.

Lemma db_call_history (db db' : sqlDB) :
  db_call db db' →
  users db' = users db ∧ extends (messages db) (messages db') ∧
  (clock db ≤ clock db')%Z.
Proof.
  assert (Hsame : ∀ d d', users d' = users d ∧ messages d' = messages d ∧
                          clock d' = clock d →
    users d' = users d ∧ extends (messages d) (messages d') ∧ (clock d ≤ clock d')%Z).
  { intros d d' (-> & Hm & ->). split; [done|]. split; [|lia].
    exists []. by rewrite app_nil_r. }
  destruct 1 as [r u db|r u db|r db|r u db|r s content db|r u t db|r u db|u db|dt db];
    try (apply Hsame;
         unfold GetRoomMembers, IsRoomMember, GetUnreadCount, GetRoomsForUser;
         match goal with
         | |- context [Query ?q ?d] =>
             destruct (Query_tables q d) as ((? & _ & ?) & ?)
         end; done).
  - apply Hsame. apply Exec_keeps. intros d. by destruct (existsb _ _).
  - apply Hsame. by apply Exec_keeps.
  - destruct (CreateMessage_tables r s content db) as (-> & _ & -> & Hext). done.
  - apply Hsame. by apply Exec_keeps.
  - simpl. split; [done|]. split; [exists []; by rewrite app_nil_r|lia].
Qed.

(** X7. Whatever the server does over its WebSocket connections, the
    stored messages only grow at the end: no stored message is removed,
    changed or reordered; the user rows stay as they are and the
    database clock does not go back. *)
Theorem messages_are_append_only (acts : list action) (st st' : State) :
  steps time_Parse time_Format acts st = Some st' →
  users (DB st') = users (DB st) ∧
  extends (messages (DB st)) (messages (DB st')) ∧
  (clock (DB st) ≤ clock (DB st'))%Z.
Proof.
  intros Hm%steps_moves. unfold moves in Hm.
  induction Hm as [db|db1 db2 db3 Hcall _ IH].
  - split; [done|]. split; [exists []; by rewrite app_nil_r|lia].
  - destruct (db_call_history _ _ Hcall) as (Hu & [a1 Ha1] & Hc).
    destruct IH as (Hu' & [a2 Ha2] & Hc').
    split; [congruence|]. split; [|lia].
    exists (a1 ++ a2). by rewrite Ha2, Ha1, app_assoc.
Qed.

End tables_claims.

Lemma primary_key_is_kept_witness : pk_room_members (DB st_fan_out).
Proof.
  apply (primary_key_is_kept demo_Parse demo_Format).
  apply run_reachable; [apply reachable_init, demo_db_pk|].
  vm_compute. eexists. reflexivity.
Defined.

Lemma messages_are_append_only_witness :
  users (DB st_sent) = users (DB st_two) ∧
  extends (messages (DB st_two)) (messages (DB st_sent)) ∧
  (clock (DB st_two) ≤ clock (DB st_sent))%Z.
Proof.
  apply (messages_are_append_only demo_Parse demo_Format
           [Read 1%nat send_hi; Hub Broadcast; Go; Tick 5%N]).
  vm_compute; reflexivity.
Defined.

(** ** More of storage *)
Section storage_more.

Lemma find_app_key (roomID userID : string) (l1 l2 : list Member) :
  List.find (is_key roomID userID) (l1 ++ l2)
  = match List.find (is_key roomID userID) l1 with
    | Some rm => Some rm
    | None => List.find (is_key roomID userID) l2
    end.
Proof.
  induction l1 as [|x l1 IH]; [done|]. simpl.
  by destruct (is_key roomID userID x).
Qed.

Lemma find_existsb_key (roomID userID : string) (rows : list Member) :
  existsb (is_key roomID userID) rows
  = bool_decide (is_Some (List.find (is_key roomID userID) rows)).
Proof.
  induction rows as [|x rows IH]; [done|]. simpl.
  by destruct (is_key roomID userID x).
Qed.

Lemma is_key_other (roomID userID r u : string) (rm : Member) :
  (r, u) ≠ (roomID, userID) → is_key roomID userID rm = true → is_key r u rm = false.
Proof.
  intros Hne [Hr Hu]%is_key_true. apply not_true_is_false.
  intros [Hr' Hu']%is_key_true. apply Hne. congruence.
Qed.

Lemma find_filter_key (roomID userID r u : string) (rows : list Member) :
  List.find (is_key r u) (filter (fun rm => is_key roomID userID rm = false) rows)
  = if decide ((r, u) = (roomID, userID)) then None
    else List.find (is_key r u) rows.
Proof.
  induction rows as [|x rows IH]; [by destruct (decide _)|].
  rewrite filter_cons. destruct (decide (is_key roomID userID x = false)) as [Hx|Hx].
  - simpl. rewrite IH. destruct (decide _) as [[= -> ->]|Hne]; [|done].
    by rewrite Hx.
  - rewrite IH. apply not_false_is_true in Hx.
    destruct (decide _) as [|Hne]; [done|]. simpl.
    by rewrite (is_key_other _ _ _ _ _ Hne Hx).
Qed.

Lemma AddRoomMember_rows (roomID userID : string) (db : sqlDB) :
  hd false (faults db) = false →
  (AddRoomMember roomID userID db).1 = Some tt ∧
  room_members (AddRoomMember roomID userID db).2
  = (if existsb (is_key roomID userID) (room_members db) then room_members db
     else room_members db ++ [mkMember roomID userID (clock db) (clock db)]) ∧
  messages (AddRoomMember roomID userID db).2 = messages db.
Proof.
  intros Hd. unfold AddRoomMember. rewrite Exec_fields, Hd.
  destruct (round_trip_tables db) as (_ & Hrows & Hm).
  pose proof (round_trip_clock db) as Hc.
  rewrite Hrows, Hc. by destruct (existsb _ _).
Qed.

(** X8. An answered [AddRoomMember] makes the user a member of the room
    and is idempotent: a membership row that exists is kept as it is (a
    repeated join does not reset [last_read_at]), a new row gets both
    timestamps from the database clock; the rows of every other key and
    the messages stay as they were, and a second call changes nothing. *)
Theorem AddRoomMember_spec (roomID userID : string) (db : sqlDB) :
  hd false (faults db) = false →
  let db' := (AddRoomMember roomID userID db).2 in
  (AddRoomMember roomID userID db).1 = Some tt ∧
  membership roomID userID db'
  = Some (default (mkMember roomID userID (clock db) (clock db))
                  (membership roomID userID db)) ∧
  (∀ r u, (r, u) ≠ (roomID, userID) → membership r u db' = membership r u db) ∧
  messages db' = messages db ∧
  room_members (AddRoomMember roomID userID db').2 = room_members db'.
Proof.
  intros Hf db'.
  destruct (AddRoomMember_rows roomID userID db Hf) as (Hr & Hrows & Hm).
  fold db' in Hrows, Hm.
  assert (Hkey : is_key roomID userID (mkMember roomID userID (clock db) (clock db))
                 = true) by (by apply is_key_true).
  split; [done|].
  split; [|split; [|split]].
  - unfold membership. rewrite Hrows, find_existsb_key.
    destruct (List.find _ (room_members db)) as [rm|] eqn:Hfind; simpl.
    + done.
    + rewrite find_app_key, Hfind. simpl. by rewrite Hkey.
  - intros r u Hne. unfold membership. rewrite Hrows, find_existsb_key.
    destruct (bool_decide _); [done|].
    rewrite find_app_key. destruct (List.find (is_key r u) _); [done|].
    simpl. by rewrite (is_key_other _ _ _ _ _ Hne Hkey).
  - done.
  - unfold AddRoomMember. rewrite Exec_fields.
    destruct (round_trip_tables db') as (_ & Hrows' & _).
    destruct (hd false (faults db')); simpl; [exact Hrows'|].
    rewrite Hrows'.
    assert (Hex : existsb (is_key roomID userID) (room_members db') = true).
    { rewrite Hrows. destruct (existsb _ (room_members db)) eqn:Hex; [done|].
      rewrite existsb_app. simpl. by rewrite Hkey, orb_true_r. }
    by rewrite Hex.
Qed.

Lemma AddRoomMember_spec_witness :
  let db' := (AddRoomMember "r1" "u2" demo_db).2 in
  (AddRoomMember "r1" "u2" demo_db).1 = Some tt ∧
  membership "r1" "u2" db'
  = Some (default (mkMember "r1" "u2" (clock demo_db) (clock demo_db))
                  (membership "r1" "u2" demo_db)) ∧
  (∀ r u, (r, u) ≠ ("r1", "u2") → membership r u db' = membership r u demo_db) ∧
  messages db' = messages demo_db ∧
  room_members (AddRoomMember "r1" "u2" db').2 = room_members db'.
Proof. apply (AddRoomMember_spec "r1" "u2" demo_db). reflexivity. Defined.

(** X9. An answered [RemoveRoomMember] leaves the user without a
    membership row in the room, so that nothing counts as unread there,
    and the rows of every other key as they were; joining again gives a
    new row stamped with the clock of the join: the earlier [last_read_at]
    is lost. *)
Theorem RemoveRoomMember_spec (roomID userID : string) (db : sqlDB) :
  hd false (faults db) = false →
  let db' := (RemoveRoomMember roomID userID db).2 in
  (RemoveRoomMember roomID userID db).1 = Some tt ∧
  membership roomID userID db' = None ∧
  unread_rows roomID userID db' = [] ∧
  (∀ r u, (r, u) ≠ (roomID, userID) → membership r u db' = membership r u db) ∧
  (hd false (faults db') = false →
   membership roomID userID (AddRoomMember roomID userID db').2
   = Some (mkMember roomID userID (clock db) (clock db))).
Proof.
  intros Hf db'.
  assert (Hrm : (RemoveRoomMember roomID userID db).1 = Some tt ∧
    room_members db'
    = filter (fun rm => is_key roomID userID rm = false) (room_members db) ∧
    messages db' = messages db ∧ clock db' = clock db).
  { unfold db', RemoveRoomMember. rewrite Exec_fields, Hf.
    destruct (round_trip_tables db) as (_ & Hrows & Hm).
    pose proof (round_trip_clock db) as Hc. by rewrite Hrows. }
  destruct Hrm as (Hr & Hrows & Hm & Hc).
  assert (Hnone : membership roomID userID db' = None).
  { unfold membership. rewrite Hrows, find_filter_key. by rewrite decide_True. }
  split; [done|]. split; [done|]. split; [|split].
  - unfold unread_rows. apply bind_all_nil, Forall_forall. intros m _.
    apply bind_all_nil, Forall_forall. intros rm Hin.
    rewrite Hrows in Hin. apply list_elem_of_filter in Hin as [Hkey _].
    destruct (bool_decide_reflect (m_RoomID m = roomID)) as [Hmr|];
      [|by rewrite !andb_false_r].
    rewrite Hmr. unfold is_key in Hkey. by rewrite Hkey.
  - intros r u Hne. unfold membership. rewrite Hrows, find_filter_key.
    by rewrite decide_False.
  - intros Hf'.
    destruct (AddRoomMember_rows roomID userID db' Hf') as (_ & Hadd & _).
    unfold membership in *. rewrite Hadd, find_existsb_key, Hnone. simpl.
    rewrite find_app_key, Hnone, Hc. simpl.
    by rewrite (proj2 (is_key_true roomID userID _)).
Qed.

Lemma RemoveRoomMember_spec_witness :
  let db' := (RemoveRoomMember "r1" "u2" demo_db).2 in
  (RemoveRoomMember "r1" "u2" demo_db).1 = Some tt ∧
  membership "r1" "u2" db' = None ∧
  unread_rows "r1" "u2" db' = [] ∧
  (∀ r u, (r, u) ≠ ("r1", "u2") → membership r u db' = membership r u demo_db) ∧
  (hd false (faults db') = false →
   membership "r1" "u2" (AddRoomMember "r1" "u2" db').2
   = Some (mkMember "r1" "u2" (clock demo_db) (clock demo_db))).
Proof. apply (RemoveRoomMember_spec "r1" "u2" demo_db). reflexivity. Defined.

(** X10. A stored message raises by one the unread count of exactly the
    members of its room other than the sender whose [last_read_at] lies
    before the database clock, and leaves every other unread count as it
    was; the stored row carries the room, the sender, the content and the
    clock. *)
Theorem CreateMessage_raises_unread (roomID senderID content : string) (db : sqlDB)
    (msg : MessageWithSender) (r u : string) (rm : Member) :
  pk_room_members db → membership r u db = Some rm →
  (CreateMessage roomID senderID content db).1 = Some msg →
  let db' := (CreateMessage roomID senderID content db).2 in
  let m := mws_Message msg in
  messages db' = messages db ++ [m] ∧
  m_RoomID m = roomID ∧ m_SenderID m = senderID ∧ m_Content m = content ∧
  m_CreatedAt m = clock db ∧
  length (unread_rows r u db')
  = (length (unread_rows r u db)
     + (if bool_decide (r = roomID ∧ u ≠ senderID ∧ (rm_last_read_at rm < clock db)%Z)
        then 1 else 0))%nat.
Proof.
  intros Hpk Hrm Hmsg db' m.
  assert (Hfields : messages db' = messages db ++ [m] ∧
    m_RoomID m = roomID ∧ m_SenderID m = senderID ∧ m_Content m = content ∧
    m_CreatedAt m = clock db ∧ room_members db' = room_members db).
  { unfold db', m. revert Hmsg. unfold CreateMessage.
    destruct (round_trip_tables db) as (_ & Hrows & Hm).
    pose proof (round_trip_clock db) as Hc.
    destruct (round_trip db) as [failed db1]. simpl in *.
    destruct failed; [done|]. destruct (List.find _ _); [|done]. simpl.
    intros [= <-]. simpl. by rewrite Hm, Hc. }
  destruct Hfields as (Hm & Hmr & Hms & Hmc & Hmt & Hrows).
  do 5 (split; [done|]).
  assert (Hpk' : pk_room_members db') by (unfold pk_room_members; by rewrite Hrows).
  assert (Hrm' : membership r u db' = Some rm) by (unfold membership; by rewrite Hrows).
  rewrite (unread_rows_length r u db' rm Hpk' Hrm').
  rewrite (unread_rows_length r u db rm Hpk Hrm).
  unfold unread_spec. rewrite Hm, filter_app, length_app. f_equal.
  rewrite filter_cons, filter_nil, Hmr, Hms, Hmt.
  destruct (bool_decide_reflect (r = roomID ∧ u ≠ senderID ∧ (rm_last_read_at rm < clock db)%Z))
    as [(-> & Hu & Hlt)|Hno].
  - by rewrite decide_True.
  - rewrite decide_False; [done|]. intros (-> & Hlt & Hs). apply Hno. by repeat split.
Qed.

Lemma CreateMessage_raises_unread_witness :
  let db' := (CreateMessage "r1" "u1" "hi" demo_db).2 in
  ∃ m, messages db' = messages demo_db ++ [m] ∧
    m_RoomID m = "r1" ∧ m_SenderID m = "u1" ∧ m_Content m = "hi" ∧
    m_CreatedAt m = clock demo_db ∧
    length (unread_rows "r1" "u2" db')
    = (length (unread_rows "r1" "u2" demo_db) + 1)%nat.
Proof.
  eexists.
  exact (CreateMessage_raises_unread "r1" "u1" "hi" demo_db _ "r1" "u2"
           (mkMember "r1" "u2" 2 10) demo_db_pk eq_refl eq_refl).
Defined.

End storage_more.

Section read_marks.

Variable time_Parse : string → option Z.

(** X11. A mark-read that succeeds tells the reader "count 0" whatever
    the timestamp was, while storage from then on counts as unread every
    message of the room sent by somebody else after that timestamp. *)
Theorem mark_read_reports_zero (c : addr) (p : ReadPayload) (st : State)
    (cl : Client) (t : Z) (rm : Member) :
  hub_ok st → heap st !! c = Some cl → clients st !! UserID cl = Some c →
  time_Parse (rdp_Timestamp p) = Some t →
  hd false (faults (DB st)) = false →
  pk_room_members (DB st) →
  membership (rdp_RoomID p) (UserID cl) (DB st) = Some rm →
  ∃ st', HandleMessageRead time_Parse c p st = Some st' ∧
    heap st' !! c = Some (enqueue (unread_frame (rdp_RoomID p) 0) cl) ∧
    length (unread_rows (rdp_RoomID p) (UserID cl) (DB st'))
    = unread_spec (rdp_RoomID p) (UserID cl) t (messages (DB st)).
Proof.
  intros Hok Hc Hlive Ht Hf Hpk Hrm.
  destruct (proj1 Hok _ _ Hlive) as (c0 & Hc0 & _ & Hopen).
  assert (c0 = cl) as -> by congruence.
  rewrite (HandleMessageRead_cases _ _ _ _ cl Hc), Ht. simpl.
  set (db' := (UpdateLastRead (rdp_RoomID p) (UserID cl) t (DB st)).2).
  assert (Hup : (UpdateLastRead (rdp_RoomID p) (UserID cl) t (DB st)).1 = Some tt ∧
    membership (rdp_RoomID p) (UserID cl) db' = Some (with_last_read t rm) ∧
    messages db' = messages (DB st)).
  { unfold db', UpdateLastRead, membership. rewrite Exec_fields, Hf.
    destruct (round_trip_tables (DB st)) as (_ & Hrows & Hm). simpl.
    rewrite Hrows.
    change (List.find ?k (?f <$> ?l))
      with (List.find k ((fun x => if is_key (rdp_RoomID p) (UserID cl) x
                                   then with_last_read t x else x) <$> l)).
    rewrite find_update_last_read. unfold membership in Hrm.
    rewrite Hrm. simpl. split; [done|]. split; [|done].
    apply find_some in Hrm as [_ ->]. done. }
  destruct Hup as (Hr & Hrm' & Hm). rewrite Hr.
  unfold SendToUser. simpl. rewrite Hlive.
  erewrite offer_open; [|exact Hc|exact Hopen]. simpl.
  eexists. split; [done|]. simpl. split; [by rewrite lookup_insert_eq|].
  fold db'.
  rewrite (unread_rows_length _ _ db' _ (UpdateLastRead_pk _ _ _ _ Hpk) Hrm').
  by rewrite Hm.
Qed.

End read_marks.

Lemma st_two_pk : pk_room_members (DB st_two).
Proof. apply NoDup_pk_rows. apply (bool_decide_unpack _). by vm_compute. Qed.

Lemma mark_read_reports_zero_witness :
  ∃ st', HandleMessageRead demo_Parse 1%nat early_read st_two = Some st' ∧
    heap st' !! 1%nat = Some (enqueue (unread_frame "r1" 0) (session st_two 1%nat)) ∧
    length (unread_rows "r1" "u2" (DB st')) = 1%nat.
Proof.
  exact (mark_read_reports_zero demo_Parse 1%nat early_read st_two
           (session st_two 1%nat) 5 (mkMember "r1" "u2" 2 10)
           (reachable_hub_ok _ _ _ st_two_reachable)
           ltac:(vm_compute; reflexivity) ltac:(vm_compute; reflexivity)
           ltac:(vm_compute; reflexivity) ltac:(vm_compute; reflexivity)
           st_two_pk ltac:(vm_compute; reflexivity)).
Defined.

(** ** Unread updates *)
Section unread_updates.

Lemma unread_for_spec (roomID senderID : string) (st : State) (member : User) :
  hub_ok st →
  ∃ st', unread_for roomID senderID st member = Some st' ∧ hub_ok st' ∧
    clients st' = clients st ∧ broadcast st' = broadcast st ∧
    ∀ u a, clients st !! u = Some a → u_ID member = senderID ∨ u ≠ u_ID member →
      heap st' !! a = heap st !! a.
Proof.
  intros Hok. unfold unread_for.
  destruct (decide _) as [Hs|Hs]; [exists st; split; [done|]; split; [done|]; by repeat split|].
  rewrite storage_fields.
  set (st1 := set_DB _ st).
  assert (Hok1 : hub_ok st1) by exact Hok.
  assert (Hsend : ∀ data, ∃ st', SendToUser (u_ID member) data st1 = Some st' ∧
    hub_ok st' ∧ clients st' = clients st ∧ broadcast st' = broadcast st ∧
    ∀ u a, clients st !! u = Some a → u_ID member = senderID ∨ u ≠ u_ID member →
      heap st' !! a = heap st !! a).
  { intros data. unfold SendToUser.
    change (clients st1) with (clients st).
    destruct (clients st !! u_ID member) as [b|] eqn:Hb.
    - destruct (proj1 Hok _ _ Hb) as (cb & Hcb & _ & Hopen).
      rewrite (offer_open b data st1 cb Hcb Hopen). simpl.
      eexists. split; [done|]. split; [|split; [done|split; [done|]]].
      + eapply hub_ok_evolves; [exact Hok1|].
        apply (evolves_update st1 b cb); [exact Hcb| |];
          unfold enqueue; destruct (Chan.full _); simpl; by rewrite ?Hopen.
      + intros u a Hu [?|Hne]; [done|]. simpl. rewrite lookup_insert_ne; [done|].
        intros ->. apply Hne. by eapply (hub_ok_inj st).
    - exists st1. split; [done|]. split; [exact Hok1|]. by repeat split. }
  destruct ((GetUnreadCount _ _ _).1); [apply Hsend|].
  exists st1. split; [done|]. split; [exact Hok1|]. by repeat split.
Qed.

Lemma foldM_unread_for (roomID senderID : string) (l : list User) (st : State) :
  hub_ok st →
  ∃ st', foldM (unread_for roomID senderID) l st = Some st' ∧ hub_ok st' ∧
    clients st' = clients st ∧ broadcast st' = broadcast st ∧
    ∀ u a, clients st !! u = Some a →
      Forall (fun m => u_ID m = senderID ∨ u ≠ u_ID m) l →
      heap st' !! a = heap st !! a.
Proof.
  revert st. induction l as [|m l IH]; intros st Hok.
  - exists st. split; [done|]. split; [done|]. by repeat split.
  - destruct (unread_for_spec roomID senderID st m Hok)
      as (st1 & H1 & Hok1 & Hcl1 & Hb1 & Hsame1).
    destruct (IH st1 Hok1) as (st' & H2 & Hok' & Hcl' & Hb' & Hsame').
    exists st'. simpl. rewrite H1. simpl.
    split; [done|]. split; [done|]. split; [congruence|]. split; [congruence|].
    intros u a Hu [Hm Hl]%Forall_cons.
    rewrite (Hsame' u a); [by apply (Hsame1 u a)| by rewrite Hcl1|done].
Qed.

Lemma GetRoomMembers_members (roomID : string) (db : sqlDB) (l : list User) :
  (GetRoomMembers roomID db).1 = Some l →
  ∀ m, m ∈ l → m ∈ users db ∧ is_member roomID (u_ID m) db = true.
Proof.
  unfold GetRoomMembers. rewrite Query_fields.
  destruct (round_trip_tables db) as (Hu & Hrows & _).
  destruct (hd false (faults db)); [done|]. simpl. intros [= <-] m.
  rewrite Hu, Hrows.
  intros (usr & (rm & Hin & Hrm)%list_elem_of_bind & Husr)%list_elem_of_bind.
  destruct (bool_decide_reflect (u_ID usr = rm_user_id rm)) as [Hid|]; [|by inversion Hin].
  destruct (bool_decide_reflect (rm_room_id rm = roomID)) as [Hr|]; [|by inversion Hin].
  simpl in Hin. apply list_elem_of_singleton in Hin as ->. split; [done|].
  unfold is_member. apply existsb_exists. exists rm.
  split; [by apply list_elem_of_In|]. by apply is_key_true.
Qed.

(** X12. A run of [sendUnreadUpdates] that returns, taken in one piece
    (no other goroutine touches the Hub in between), removes no Session
    from the map and queues no broadcast; it leaves untouched the Session
    of the sender and the Session of every user who is not a member of
    the room. *)
Theorem sendUnreadUpdates_recipients (roomID senderID : string) (st st' : State) :
  hub_ok st → sendUnreadUpdates roomID senderID st = Some st' →
  clients st' = clients st ∧ broadcast st' = broadcast st ∧
  ∀ u a, clients st !! u = Some a →
    u = senderID ∨ is_member roomID u (DB st) = false →
    heap st' !! a = heap st !! a.
Proof.
  intros Hok. unfold sendUnreadUpdates. rewrite storage_fields.
  destruct ((GetRoomMembers roomID (DB st)).1) as [l|] eqn:Hl.
  - set (st1 := set_DB _ st).
    destruct (foldM_unread_for roomID senderID l st1 Hok)
      as (st2 & Hfold & _ & Hcl & Hb & Hsame).
    rewrite Hfold. intros [= <-]. split; [done|]. split; [done|].
    intros u a Hu Hcase. rewrite (Hsame u a Hu); [done|].
    apply Forall_forall. intros m Hm.
    destruct (GetRoomMembers_members roomID (DB st) l Hl m Hm) as [_ Hmem].
    destruct (decide (u_ID m = senderID)); [by left|right].
    intros Heq. destruct Hcase as [Hs|Hno]; [congruence|].
    rewrite Heq in Hno. congruence.
  - intros [= <-]. by repeat split.
Qed.

Lemma sendUnreadUpdates_recipients_witness :
  ∃ st', sendUnreadUpdates "r1" "u1" st_two = Some st' ∧
    clients st' = clients st_two ∧ broadcast st' = broadcast st_two ∧
    ∀ u a, clients st_two !! u = Some a →
      u = "u1" ∨ is_member "r1" u (DB st_two) = false →
      heap st' !! a = heap st_two !! a.
Proof.
  pose (st' := default st_two (sendUnreadUpdates "r1" "u1" st_two)).
  assert (Hrun : sendUnreadUpdates "r1" "u1" st_two = Some st')
    by (vm_compute; reflexivity).
  exists st'. split; [exact Hrun|].
  exact (sendUnreadUpdates_recipients "r1" "u1" st_two st'
           (reachable_hub_ok _ _ _ st_two_reachable) Hrun).
Defined.

End unread_updates.

(** ** A domain operation followed by the Hub's turn *)
Section turns.

Variable time_Parse : string → option Z.
Variable time_Format : Z → string.

Lemma Run_queued_broadcast (st1 : State) (msg : BroadcastMessage) :
  hub_ok st1 → broadcast st1 = [msg] →
  ∃ st2, Run Broadcast st1 = Some st2 ∧ DB st2 = DB st1 ∧ broadcast st2 = [] ∧
    spawned st2 = spawned st1 ∧
    ∀ u a ca, clients st1 !! u = Some a → heap st1 !! a = Some ca →
      reached (targeted msg u ca) (Data msg) st2 u a ca.
Proof.
  intros Hok Hb.
  destruct (Run_broadcast_spec msg (set_broadcast [] st1) Hok)
    as (st2 & Hrun & _ & Hlive & _ & _ & _ & _ & Hb2 & Hdb & Hsp).
  exists st2. unfold Run. rewrite Hb. split; [done|]. split; [done|].
  split; [done|]. split; [done|].
  intros u a ca Hu Ha. destruct (Hlive u a ca Hu Ha) as [Hh Hc].
  exact (deliver_to_cases msg st2 u a ca Hh Hc).
Qed.


(** X14. A [room.leave] whose storage call is answered, followed by the
    Hub's turn on the broadcast it queued: the user is no member of the
    room in storage and the Session is no longer subscribed, so that the
    leaver's own Session is not offered the [room.member_left] frame. *)
Theorem leave_skips_leaver (c : addr) (p : RoomPayload) (st : State) (cl : Client) :
  hub_ok st → heap st !! c = Some cl → clients st !! UserID cl = Some c →
  broadcast st = [] → hd false (faults (DB st)) = false →
  ∃ st1 st2, HandleRoomLeave c p st = Some st1 ∧ Run Broadcast st1 = Some st2 ∧
    is_member (rp_RoomID p) (UserID cl) (DB st2) = false ∧
    untouched st2 (UserID cl) c (set_rooms (rooms cl ∖ {[rp_RoomID p]}) cl).
Proof.
  intros Hok Hc Hlive Hb Hf.
  assert (Hrm : (RemoveRoomMember (rp_RoomID p) (UserID cl) (DB st)).1 = Some tt ∧
    room_members (RemoveRoomMember (rp_RoomID p) (UserID cl) (DB st)).2
    = filter (fun rm => is_key (rp_RoomID p) (UserID cl) rm = false)
             (room_members (DB st))).
  { unfold RemoveRoomMember. rewrite Exec_fields, Hf.
    destruct (round_trip_tables (DB st)) as (_ & Hrows & _). by rewrite Hrows. }
  destruct Hrm as (Hr & Hrows).
  destruct (HandleRoomLeave c p st) as [st1|] eqn:Hleave.
  2: { revert Hleave. unfold HandleRoomLeave. rewrite Hc. simpl.
       rewrite storage_fields, Hr. done. }
  pose proof (hub_ok_evolves _ _ Hok (HandleRoomLeave_evolves _ _ _ _ Hleave)) as Hok1.
  revert Hleave. unfold HandleRoomLeave. rewrite Hc. simpl.
  rewrite storage_fields, Hr. intros [= Hst1].
  set (cl1 := set_rooms (rooms cl ∖ {[rp_RoomID p]}) cl) in *.
  set (msg := mkBroadcastMessage (rp_RoomID p)
                (member_frame TypeRoomMemberLeft (rp_RoomID p) (UserID cl) (Username cl))
                "").
  assert (Hb1 : broadcast st1 = [msg]) by (rewrite <- Hst1; simpl; by rewrite Hb).
  destruct (Run_queued_broadcast st1 msg Hok1 Hb1) as (st2 & Hrun & Hdb & _ & _ & Hall).
  exists st1, st2. split; [done|]. split; [done|]. split.
  - rewrite Hdb, <- Hst1. simpl. unfold is_member. rewrite Hrows.
    rewrite find_existsb_key, find_filter_key. by rewrite decide_True.
  - assert (Hto : targeted msg (UserID cl) cl1 = false).
    { unfold targeted. simpl. rewrite (bool_decide_false (_ ∈ _)).
      - apply andb_false_r.
      - intros [_ Hn]%elem_of_difference. apply Hn. by apply elem_of_singleton. }
    pose proof (Hall (UserID cl) c cl1) as Hre. rewrite Hto in Hre.
    apply Hre; rewrite <- Hst1; simpl; [done|by rewrite lookup_insert_eq].
Qed.

(** X15. A typing frame followed by the Hub's turn on the broadcast it
    queued: storage is not called at all, the typing update is offered to
    the Session of every other user subscribed to the room, and to no
    other Session; the sender's Session is never offered it. *)
Theorem typing_reaches_others (c : addr) (p : RoomPayload) (isTyping : bool)
    (st : State) (cl : Client) :
  hub_ok st → heap st !! c = Some cl → broadcast st = [] →
  ∃ st1 st2, HandleTyping c p isTyping st = Some st1 ∧ Run Broadcast st1 = Some st2 ∧
    DB st2 = DB st ∧
    ∀ u a ca, clients st !! u = Some a → heap st !! a = Some ca →
      reached (bool_decide (u ≠ UserID cl ∧ rp_RoomID p ∈ rooms ca))
        (typing_frame (rp_RoomID p) (UserID cl) (Username cl) isTyping) st2 u a ca.
Proof.
  intros Hok Hc Hb.
  set (msg := mkBroadcastMessage (rp_RoomID p)
                (typing_frame (rp_RoomID p) (UserID cl) (Username cl) isTyping)
                (UserID cl)).
  set (st1 := BroadcastToRoom (rp_RoomID p) (Data msg) (UserID cl) st).
  assert (Hrun1 : HandleTyping c p isTyping st = Some st1).
  { unfold HandleTyping. by rewrite Hc. }
  assert (Hok1 : hub_ok st1) by exact Hok.
  assert (Hb1 : broadcast st1 = [msg]) by (unfold st1; simpl; by rewrite Hb).
  destruct (Run_queued_broadcast st1 msg Hok1 Hb1) as (st2 & Hrun & Hdb & _ & _ & Hall).
  exists st1, st2. split; [done|]. split; [done|]. split; [done|].
  intros u a ca Hu Ha. pose proof (Hall u a ca Hu Ha) as Hre.
  replace (targeted msg u ca)
    with (bool_decide (u ≠ UserID cl ∧ rp_RoomID p ∈ rooms ca)) in Hre; [done|].
  unfold targeted. simpl.
  destruct (bool_decide_reflect (u = UserID cl)) as [->|Hne]; simpl.
  - apply bool_decide_eq_false. by intros [? _].
  - apply bool_decide_ext. split; [by intros [_ ?]|by split].
Qed.

(** X16. A valid [message.send] that storage accepts (the sender is
    reported a member and the message is stored), followed by the Hub's
    turn on the broadcast it queued: the [message.new] frame carrying the
    stored row and the sender's name is offered to every Session
    subscribed to the room, the sender's own included, and to no other;
    the unread updates are started for the room with the sender as the
    user to skip. *)
Theorem send_reaches_room (c : addr) (p : SendMessagePayload) (st : State)
    (cl : Client) (msg : MessageWithSender) :
  hub_ok st → heap st !! c = Some cl → valid_send p → broadcast st = [] →
  let r1 := IsRoomMember (smp_RoomID p) (UserID cl) (DB st) in
  let r2 := CreateMessage (smp_RoomID p) (UserID cl) (smp_Content p) r1.2 in
  r1.1 = Some true → r2.1 = Some msg →
  ∃ st1 st2, HandleSendMessage time_Format c p st = Some st1 ∧
    Run Broadcast st1 = Some st2 ∧ DB st2 = r2.2 ∧
    spawned st2 = spawned st ++ [(smp_RoomID p, UserID cl)] ∧
    ∀ u a ca, clients st !! u = Some a → heap st !! a = Some ca →
      reached (bool_decide (u ≠ "" ∧ smp_RoomID p ∈ rooms ca))
        (message_frame time_Format msg) st2 u a ca.
Proof.
  intros Hok Hc Hvalid Hb r1 r2 H1 H2.
  pose proof (HandleSendMessage_cases time_Format c p st cl Hc Hvalid) as Hcases.
  cbv zeta in Hcases. fold r1 in Hcases. rewrite H1 in Hcases.
  fold r2 in Hcases. rewrite H2 in Hcases.
  set (bm := mkBroadcastMessage (smp_RoomID p) (message_frame time_Format msg) "").
  match type of Hcases with _ = Some ?s => set (st1 := s) in * end.
  assert (Hok1 : hub_ok st1) by exact Hok.
  assert (Hb1 : broadcast st1 = [bm]) by (unfold st1; simpl; by rewrite Hb).
  destruct (Run_queued_broadcast st1 bm Hok1 Hb1) as (st2 & Hrun & Hdb & _ & Hsp & Hall).
  exists st1, st2. split; [done|]. split; [done|]. split; [done|]. split; [done|].
  intros u a ca Hu Ha. pose proof (Hall u a ca Hu Ha) as Hre.
  replace (targeted bm u ca)
    with (bool_decide (u ≠ "" ∧ smp_RoomID p ∈ rooms ca)) in Hre; [done|].
  unfold targeted. simpl.
  destruct (bool_decide_reflect (u = "")) as [->|Hne]; simpl.
  - first [done | apply bool_decide_eq_false; by intros [? _]].
  - apply bool_decide_ext. split; [by intros [_ ?]|by split].
Qed.

End turns.

(** C8. A broadcast handled by the Hub whose Sessions all have non-empty
    user ids: with an empty [ExcludeUserID] the payload is offered, by a
    non-blocking send, to every Session in the map subscribed to the room
    (appended to its queue, or the Session evicted when the queue is
    full), the sender's own Session included; with a non-empty one the
    same holds for every subscribed Session but the one stored under that
    user id, which is skipped; Sessions not subscribed are left alone.
    [HandleSendMessage] queues no broadcast but its [message.new] for the
    room with the empty [ExcludeUserID]; and when a stored member sends a
    valid message that storage accepts, that broadcast is queued and the
    Hub's turn on it offers the [message.new] frame to every Session
    subscribed to the room, the sender's own Session among them when it
    is the one in the map and is subscribed, and leaves the others
    alone. *)
Theorem broadcast_recipients (msg : BroadcastMessage) (st : State) :
  hub_ok st →
  (∀ u a, clients st !! u = Some a → u ≠ "") →
  (∃ st', Run_broadcast msg st = Some st' ∧
     ∀ u a c, clients st !! u = Some a → heap st !! a = Some c →
       (RoomID msg ∉ rooms c → untouched st' u a c) ∧
       (RoomID msg ∈ rooms c → ExcludeUserID msg = "" →
          enqueued_or_evicted (Data msg) st' u a c) ∧
       (RoomID msg ∈ rooms c → ExcludeUserID msg ≠ "" →
          if decide (u = ExcludeUserID msg) then untouched st' u a c
          else enqueued_or_evicted (Data msg) st' u a c)) ∧
  (∀ time_Format c payload s s',
     HandleSendMessage time_Format c payload s = Some s' →
     broadcast s' = broadcast s ∨
     ∃ data, broadcast s' = broadcast s ++ [mkBroadcastMessage (smp_RoomID payload) data ""]) ∧
  (∀ time_Format c payload cl m,
     heap st !! c = Some cl → valid_send payload → broadcast st = [] →
     (IsRoomMember (smp_RoomID payload) (UserID cl) (DB st)).1 = Some true →
     (CreateMessage (smp_RoomID payload) (UserID cl) (smp_Content payload)
        (IsRoomMember (smp_RoomID payload) (UserID cl) (DB st)).2).1 = Some m →
     ∃ s1 s2, HandleSendMessage time_Format c payload st = Some s1 ∧
       broadcast s1
       = [mkBroadcastMessage (smp_RoomID payload) (message_frame time_Format m) ""] ∧
       Run Broadcast s1 = Some s2 ∧
       (∀ u a ca, clients st !! u = Some a → heap st !! a = Some ca →
          if decide (smp_RoomID payload ∈ rooms ca)
          then enqueued_or_evicted (message_frame time_Format m) s2 u a ca
          else untouched s2 u a ca) ∧
       (clients st !! UserID cl = Some c → smp_RoomID payload ∈ rooms cl →
          enqueued_or_evicted (message_frame time_Format m) s2 (UserID cl) c cl)).
Proof.
  intros Hok Hne. split; [|split].
  - destruct (Run_broadcast_spec msg st Hok) as (st' & Hrun & _ & Hl & _).
    exists st'. split; [done|]. intros u a c Hu Hc.
    destruct (Hl u a c Hu Hc) as [Hh Hm].
    pose proof (deliver_to_cases msg st' u a c Hh Hm) as Hcases.
    unfold targeted in Hcases.
    split; [|split].
    + intros Hr. by rewrite (bool_decide_false _ Hr), andb_false_r in Hcases.
    + intros Hr He. rewrite (bool_decide_true _ Hr) in Hcases.
      rewrite bool_decide_false in Hcases; [done|].
      rewrite He. by eapply Hne.
    + intros Hr He. rewrite (bool_decide_true _ Hr) in Hcases.
      destruct (decide (u = ExcludeUserID msg)) as [Heq|Hneq].
      * by rewrite (bool_decide_true _ Heq) in Hcases.
      * by rewrite (bool_decide_false _ Hneq) in Hcases.
  - intros time_Format c payload s s'. unfold HandleSendMessage.
    destruct (heap s !! c) as [cl|]; [|done]. simpl.
    assert (Hse : ∀ m code s0 s1, sendError c m code s0 = Some s1 →
                                  broadcast s1 = broadcast s0).
    { intros m code s0 s1. unfold sendError, offer.
      destruct (heap s0 !! c) as [cl0|]; [|done]. simpl.
      destruct (Chan.try_send _ _); by intros [= <-]. }
    destruct (_ || _); [intros Hs; left; by eapply Hse|].
    rewrite !storage_fields.
    destruct ((IsRoomMember _ _ _).1) as [[]|];
      try (intros Hs; left; by rewrite (Hse _ _ _ _ Hs)).
    destruct ((CreateMessage _ _ _ _).1) as [m|];
      [|intros Hs; left; by rewrite (Hse _ _ _ _ Hs)].
    intros [= <-]. right. eexists. reflexivity.
  - intros time_Format c payload cl m Hc Hvalid Hb H1 H2.
    pose proof (HandleSendMessage_cases time_Format c payload st cl Hc Hvalid) as Hcases.
    cbv zeta in Hcases. rewrite H1, H2 in Hcases.
    set (bm := mkBroadcastMessage (smp_RoomID payload) (message_frame time_Format m) "").
    match type of Hcases with _ = Some ?s => set (s1 := s) in * end.
    assert (Hok1 : hub_ok s1) by exact Hok.
    assert (Hb1 : broadcast s1 = [bm]) by (unfold s1; simpl; by rewrite Hb).
    destruct (Run_queued_broadcast s1 bm Hok1 Hb1) as (s2 & Hrun & _ & _ & _ & Hall).
    assert (Hto : ∀ u a ca, clients st !! u = Some a → heap st !! a = Some ca →
              if decide (smp_RoomID payload ∈ rooms ca)
              then enqueued_or_evicted (message_frame time_Format m) s2 u a ca
              else untouched s2 u a ca).
    { intros u a ca Hu Ha. pose proof (Hall u a ca Hu Ha) as Hre.
      unfold reached, targeted in Hre. simpl in Hre.
      rewrite (bool_decide_false (u = "")) in Hre by (by eapply Hne).
      simpl in Hre. destruct (decide (smp_RoomID payload ∈ rooms ca)) as [Hin|Hout].
      - by rewrite (bool_decide_true _ Hin) in Hre.
      - by rewrite (bool_decide_false _ Hout) in Hre. }
    exists s1, s2. split; [done|]. split; [done|]. split; [done|].
    split; [exact Hto|].
    intros Hlive Hin. pose proof (Hto (UserID cl) c cl Hlive Hc) as Hme.
    by destruct (decide (smp_RoomID payload ∈ rooms cl)).
Qed.

(** Bob, connected and subscribed to [r1], sends [hi] to it: the frame is
    appended to the queue of his own Session. *)
Lemma broadcast_recipients_witness :
  let msg := mkBroadcastMessage "r1" ping_frame "" in
  let hi := mkMessageWithSender (mkMessage "m4" "r1" "u2" "hi" 30) "bob" in
  hub_ok st_two ∧ (∀ u a, clients st_two !! u = Some a → u ≠ "") ∧
  (∃ st', Run_broadcast msg st_two = Some st' ∧
     ∀ u a c, clients st_two !! u = Some a → heap st_two !! a = Some c →
       (RoomID msg ∉ rooms c → untouched st' u a c) ∧
       (RoomID msg ∈ rooms c → ExcludeUserID msg = "" →
          enqueued_or_evicted (Data msg) st' u a c) ∧
       (RoomID msg ∈ rooms c → ExcludeUserID msg ≠ "" →
          if decide (u = ExcludeUserID msg) then untouched st' u a c
          else enqueued_or_evicted (Data msg) st' u a c)) ∧
  Chan.full (send (session st_two 1%nat)) = false ∧
  ∃ s1 s2,
    HandleSendMessage demo_Format 1%nat (mkSendMessagePayload "r1" "hi") st_two = Some s1 ∧
    broadcast s1 = [mkBroadcastMessage "r1" (message_frame demo_Format hi) ""] ∧
    Run Broadcast s1 = Some s2 ∧
    enqueued_or_evicted (message_frame demo_Format hi) s2
      (UserID (session st_two 1%nat)) 1%nat (session st_two 1%nat).
Proof.
  intros msg hi.
  assert (Hok : hub_ok st_two) by exact (reachable_hub_ok _ _ _ st_two_reachable).
  assert (Hids : ∀ u a, clients st_two !! u = Some a → u ≠ "").
  { intros u a Hu ->. vm_compute in Hu. discriminate. }
  destruct (broadcast_recipients msg st_two Hok Hids) as (Hrun & _ & Hsend).
  split; [exact Hok|]. split; [exact Hids|]. split; [exact Hrun|].
  split; [vm_compute; reflexivity|].
  destruct (Hsend demo_Format 1%nat (mkSendMessagePayload "r1" "hi")
              (session st_two 1%nat) hi
              ltac:(vm_compute; reflexivity)
              ltac:(split; vm_compute; discriminate)
              ltac:(vm_compute; reflexivity) ltac:(vm_compute; reflexivity)
              ltac:(vm_compute; reflexivity))
    as (s1 & s2 & H1 & H2 & H3 & _ & Hme).
  exists s1, s2. split; [exact H1|]. split; [exact H2|]. split; [exact H3|].
  apply Hme.
  - vm_compute; reflexivity.
  - apply (bool_decide_unpack _). vm_compute; reflexivity.
Defined.


Lemma leave_skips_leaver_witness :
  ∃ st1 st2, HandleRoomLeave 1%nat (mkRoomPayload "r1") st_two = Some st1 ∧
    Run Broadcast st1 = Some st2 ∧
    is_member "r1" (UserID (session st_two 1%nat)) (DB st2) = false ∧
    untouched st2 (UserID (session st_two 1%nat)) 1%nat
      (set_rooms (rooms (session st_two 1%nat) ∖ {["r1"]}) (session st_two 1%nat)).
Proof.
  exact (leave_skips_leaver 1%nat (mkRoomPayload "r1") st_two (session st_two 1%nat)
           (reachable_hub_ok _ _ _ st_two_reachable)
           ltac:(vm_compute; reflexivity) ltac:(vm_compute; reflexivity)
           ltac:(vm_compute; reflexivity) ltac:(vm_compute; reflexivity)).
Defined.

Lemma typing_reaches_others_witness :
  ∃ st1 st2, HandleTyping 1%nat (mkRoomPayload "r1") true st_two = Some st1 ∧
    Run Broadcast st1 = Some st2 ∧ DB st2 = DB st_two ∧
    ∀ u a ca, clients st_two !! u = Some a → heap st_two !! a = Some ca →
      reached (bool_decide (u ≠ UserID (session st_two 1%nat) ∧ "r1" ∈ rooms ca))
        (typing_frame "r1" (UserID (session st_two 1%nat))
           (Username (session st_two 1%nat)) true) st2 u a ca.
Proof.
  exact (typing_reaches_others 1%nat (mkRoomPayload "r1") true st_two
           (session st_two 1%nat)
           (reachable_hub_ok _ _ _ st_two_reachable)
           ltac:(vm_compute; reflexivity) ltac:(vm_compute; reflexivity)).
Defined.

Lemma send_reaches_room_witness :
  ∃ msg st1 st2,
    m_Content (mws_Message msg) = "hi" ∧
    HandleSendMessage demo_Format 1%nat (mkSendMessagePayload "r1" "hi") st_two
    = Some st1 ∧
    Run Broadcast st1 = Some st2 ∧
    spawned st2 = spawned st_two ++ [("r1", UserID (session st_two 1%nat))] ∧
    ∀ u a ca, clients st_two !! u = Some a → heap st_two !! a = Some ca →
      reached (bool_decide (u ≠ "" ∧ "r1" ∈ rooms ca))
        (message_frame demo_Format msg) st2 u a ca.
Proof.
  pose (msg := mkMessageWithSender (mkMessage "m4" "r1" "u2" "hi" 30) "bob").
  destruct (send_reaches_room demo_Format 1%nat (mkSendMessagePayload "r1" "hi") st_two
              (session st_two 1%nat) msg
              (reachable_hub_ok _ _ _ st_two_reachable)
              ltac:(vm_compute; reflexivity)
              ltac:(split; vm_compute; discriminate)
              ltac:(vm_compute; reflexivity) ltac:(vm_compute; reflexivity)
              ltac:(vm_compute; reflexivity))
    as (st1 & st2 & H1 & H2 & _ & H3 & H4).
  exists msg, st1, st2. split; [reflexivity|]. split; [exact H1|].
  split; [exact H2|]. split; [exact H3|exact H4].
Defined.

(** ** What the browser sends *)
Section wire.

Variable time_Parse : string → option Z.
Variable time_Format : Z → string.

Lemma browser_frames_dispatch (c : addr) (st : State) :
  (∀ roomId content,
     readPump time_Parse time_Format c (sendMessage roomId content) st
     = HandleSendMessage time_Format c
         (mkSendMessagePayload (coerce roomId) (coerce content)) st) ∧
  (∀ id,
     readPump time_Parse time_Format c (joinRoom id) st
     = HandleRoomJoin c (mkRoomPayload (coerce id)) st) ∧
  (∀ roomId,
     readPump time_Parse time_Format c (startTyping roomId) st
     = HandleTyping c (mkRoomPayload (coerce roomId)) true st) ∧
  (∀ roomId,
     readPump time_Parse time_Format c (stopTyping roomId) st
     = HandleTyping c (mkRoomPayload (coerce roomId)) false st) ∧
  (∀ roomId,
     readPump time_Parse time_Format c (markAsRead roomId) st
     = HandleMessageRead time_Parse c (mkReadPayload (coerce roomId) "") st).
Proof. repeat split; intros; reflexivity. Qed.

(** X17. The mark-read frame as the browser sends it carries a room id
    and no timestamp; the server reads the missing timestamp as the empty
    string, which is no RFC 3339 time, and drops the frame: the state of
    the server, storage included, is left exactly as it was. *)
Theorem browser_mark_read_is_dropped (c : addr) (roomId : string) (st : State)
    (cl : Client) :
  time_Parse "" = None → heap st !! c = Some cl →
  readPump time_Parse time_Format c (markAsRead roomId) st = Some st.
Proof.
  intros Hparse Hc.
  rewrite (proj2 (proj2 (proj2 (proj2 (browser_frames_dispatch c st))))).
  unfold HandleMessageRead. rewrite Hc. simpl. by rewrite Hparse.
Qed.

End wire.

Lemma browser_mark_read_is_dropped_witness :
  readPump demo_Parse demo_Format 1%nat (markAsRead "r1") st_two = Some st_two.
Proof.
  apply (browser_mark_read_is_dropped demo_Parse demo_Format 1%nat "r1" st_two
           (session st_two 1%nat)).
  - vm_compute; reflexivity.
  - vm_compute; reflexivity.
Defined.

(** ** The message history *)
Section paging.

#[local] Instance newer_total : Total newer.
Proof. intros x y. unfold newer. lia. Qed.

#[local] Instance newer_trans : Transitive newer.
Proof. intros x y z. unfold newer. lia. Qed.

Lemma history_rows_elem (roomID : string) (before : Z) (db : sqlDB)
    (x : MessageWithSender) :
  x ∈ history_rows roomID before db ↔
  mws_Message x ∈ messages db ∧ m_RoomID (mws_Message x) = roomID ∧
  (m_CreatedAt (mws_Message x) < before)%Z ∧
  ∃ u, u ∈ users db ∧ u_ID u = m_SenderID (mws_Message x) ∧
       u_Username u = mws_SenderUsername x.
Proof.
  unfold history_rows. rewrite list_elem_of_bind. split.
  - intros (m & (u & Hx & Hu)%list_elem_of_bind & Hm).
    destruct (bool_decide_reflect (m_SenderID m = u_ID u)) as [Hs|]; [|by inversion Hx].
    destruct (bool_decide_reflect (m_RoomID m = roomID)) as [Hr|]; [|by inversion Hx].
    destruct (Z.ltb_spec (m_CreatedAt m) before) as [Hlt|]; [|by inversion Hx].
    simpl in Hx. apply list_elem_of_singleton in Hx as ->. simpl.
    do 3 (split; [done|]). by exists u.
  - intros (Hm & Hr & Hlt & u & Hu & Hid & Hname).
    exists (mws_Message x). split; [|done].
    apply list_elem_of_bind. exists u. split; [|done].
    rewrite !bool_decide_true by done. simpl.
    apply Z.ltb_lt in Hlt. rewrite Hlt. destruct x as [m n]. simpl in *.
    subst n. by apply list_elem_of_singleton.
Qed.

Lemma GetMessages_rows (roomID : string) (before limit : Z) (db : sqlDB)
    (page : list MessageWithSender) :
  (GetMessages roomID before limit db).1 = Some page →
  (0 ≤ limit)%Z ∧
  page = take (Z.to_nat limit)
              (sorting.merge_sort newer (history_rows roomID before db)).
Proof.
  unfold GetMessages.
  destruct (round_trip_tables db) as (Hu & _ & Hm).
  assert (Hrows : history_rows roomID before (round_trip db).2
                  = history_rows roomID before db).
  { unfold history_rows. by rewrite Hu, Hm. }
  destruct (round_trip db) as [failed db1]. simpl in Hrows.
  destruct failed; [done|]. simpl.
  destruct (Z.ltb_spec limit 0) as [|Hlim]; [done|]. simpl. intros [= <-].
  by rewrite Hrows.
Qed.



Section handler_claims.

Variable strconv_Atoi : string → option Z.
Variable time_Parse : string → option Z.
Variable time_Now : Z.

Lemma limit_of_range (limitStr : string) :
  (1 ≤ limit_of strconv_Atoi limitStr ≤ 100)%Z.
Proof.
  unfold limit_of. destruct (decide _); [lia|].
  destruct (strconv_Atoi limitStr) as [l|]; [|lia].
  destruct (Z.ltb_spec 0 l); simpl; [|lia].
  destruct (Z.leb_spec l 100); lia.
Qed.

(** X19. The history handler answers with messages only when storage
    reports the caller a member of the room; a page has at most 100
    messages, and at most 50 unless the request names a limit between 1
    and 100; every message of the page is a stored message of the room,
    older than the [before] of the request, or than the server's clock
    when the request names none that parses. *)
Theorem GetMessages_handler_page (roomID userID beforeStr limitStr : string)
    (db : sqlDB) (page : list MessageWithSender) :
  (GetMessages_handler strconv_Atoi time_Parse time_Now roomID userID beforeStr
     limitStr db).1 = OK page →
  is_member roomID userID db = true ∧
  (length page ≤ 100)%nat ∧
  ((∀ l, strconv_Atoi limitStr = Some l → ¬ (1 ≤ l ≤ 100)%Z) → (length page ≤ 50)%nat) ∧
  ∀ x, x ∈ page →
    m_RoomID (mws_Message x) = roomID ∧ mws_Message x ∈ messages db ∧
    (m_CreatedAt (mws_Message x) < before_of time_Parse time_Now beforeStr)%Z.
Proof.
  unfold GetMessages_handler.
  pose proof (IsRoomMember_answer roomID userID db) as Hans.
  assert (Htab : same_tables db (IsRoomMember roomID userID db).2).
  { unfold IsRoomMember. apply Query_tables. }
  destruct (IsRoomMember roomID userID db) as [isMember db1]. simpl in Hans, Htab.
  destruct isMember as [[]|]; try done.
  destruct (GetMessages roomID _ _ db1) as [r db2] eqn:Hget.
  destruct r as [msgs|]; [|done]. simpl. intros [= ->].
  destruct (GetMessages_rows roomID (before_of time_Parse time_Now beforeStr)
              (limit_of strconv_Atoi limitStr) db1 page) as (_ & Hpage);
    [by rewrite Hget|].
  pose proof (limit_of_range limitStr) as Hrange.
  assert (Hlen : (Z.of_nat (length page) ≤ limit_of strconv_Atoi limitStr)%Z).
  { rewrite Hpage, length_take. lia. }
  split. { destruct (hd false (faults db)); congruence. }
  split; [lia|]. split.
  - intros Hno. assert (limit_of strconv_Atoi limitStr = 50%Z) as Heq; [|lia].
    unfold limit_of. destruct (decide _); [done|].
    destruct (strconv_Atoi limitStr) as [l|]; [|done].
    destruct (Z.ltb_spec 0 l); simpl; [|done].
    destruct (Z.leb_spec l 100); [|done]. destruct (Hno l eq_refl). lia.
  - intros x Hx. rewrite Hpage in Hx. apply elem_of_take in Hx as (i & Hx & _).
    apply list_elem_of_lookup_2 in Hx. rewrite sorting.merge_sort_Permutation in Hx.
    apply history_rows_elem in Hx as (Hm & Hr & Hlt & _).
    destruct Htab as (_ & _ & Hmsgs). rewrite Hmsgs in Hm. done.
Qed.

End handler_claims.

Lemma GetMessages_handler_page_witness :
  ∃ page,
    (GetMessages_handler demo_Atoi demo_Parse 40 "r1" "u2" "1970-01-01T00:00:15Z"
       "500" demo_db).1 = OK page ∧
    is_member "r1" "u2" demo_db = true ∧
    (length page ≤ 100)%nat ∧
    ((∀ l, demo_Atoi "500" = Some l → ¬ (1 ≤ l ≤ 100)%Z) → (length page ≤ 50)%nat) ∧
    ∀ x, x ∈ page →
      m_RoomID (mws_Message x) = "r1" ∧ mws_Message x ∈ messages demo_db ∧
      (m_CreatedAt (mws_Message x)
       < before_of demo_Parse 40 "1970-01-01T00:00:15Z")%Z.
Proof.
  eexists. split; [vm_compute; reflexivity|].
  apply (GetMessages_handler_page demo_Atoi demo_Parse 40 "r1" "u2"
           "1970-01-01T00:00:15Z" "500" demo_db).
  vm_compute; reflexivity.
Defined.

End paging.

(** ** The browser's unread counts *)
Section listeners.

(** X20. The [unread.update] frame the server builds carries the count
    in the member [count]; the browser's listener reads [unread_count],
    which the frame does not have: whatever the count, the listener
    leaves the room of the frame with an undefined unread count, and the
    other rooms as they were. *)
Theorem browser_loses_unread_count (roomID : string) (count : Z)
    (rooms : list RoomView) :
  onmessage_rooms
    (ignore_err (NewWSMessage TypeUnreadUpdate
       (Some (PUnreadUpdate (mkUnreadUpdatePayload roomID count))))) rooms
  = Some ((fun r => if String.eqb (rv_id r) (coerce roomID)
                    then mkRoomView (rv_id r) None else r) <$> rooms).
Proof.
  change (ignore_err _) with (unread_frame roomID count).
  destruct rooms as [|r rooms]; [reflexivity|].
  set (l := r :: rooms). unfold onmessage_rooms, on_unread, unread_frame.
  cbn [prop rev app List.find fst snd String.eqb Ascii.eqb Bool.eqb fmap option_fmap
       option_map].
  subst l. cbn [fmap list_fmap]. reflexivity.
Qed.

End listeners.

(** ** Panics *)
Section safety.

Variable time_Parse : string → option Z.
Variable time_Format : Z → string.

(** X22. A Session whose queue has been closed and whose connection
    still delivers a frame the server answers directly makes the server
    panic, sending on a closed channel: a [ping], or a [message.send]
    with an empty content. *)
Theorem closed_session_panics (c : addr) (st : State) (cl : Client) :
  heap st !! c = Some cl → Chan.closed (send cl) = true →
  readPump time_Parse time_Format c keepalive st = None ∧
  ∀ roomId, readPump time_Parse time_Format c (sendMessage roomId "") st = None.
Proof.
  intros Hc Hclosed.
  assert (Hoffer : ∀ data, offer c data st = None).
  { intros data. unfold offer, Chan.try_send. rewrite Hc. simpl. by rewrite Hclosed. }
  split.
  - change (readPump time_Parse time_Format c keepalive st)
      with ('(_, st1) ← offer c (ignore_err (NewWSMessage TypePong None)) st; Some st1).
    by rewrite Hoffer.
  - intros roomId.
    rewrite (proj1 (browser_frames_dispatch time_Parse time_Format c st)).
    unfold HandleSendMessage. rewrite Hc. simpl.
    unfold sendError. by rewrite Hoffer.
Qed.

(** X23. A frame whose type is none of the seven the server handles is
    ignored, and so is a frame that is no envelope: the state is left as
    it was.  In particular a client cannot have the server relay a frame
    of a server type, such as [message.new]. *)
Theorem foreign_frames_are_ignored (c : addr) (message : json) (st : State) :
  (∀ msg, Unmarshal_WSMessage message = Some msg → Type_ msg ∉ inbound_tags) →
  readPump time_Parse time_Format c message st = Some st.
Proof.
  intros Hforeign. unfold readPump.
  destruct (Unmarshal_WSMessage message) as [msg|]; [|done].
  pose proof (Hforeign msg eq_refl) as Hno. unfold handleMessage.
  repeat (destruct (decide _) as [Heq|_];
    [destruct Hno; rewrite Heq; unfold inbound_tags;
       repeat (first [by left | right])|]).
  done.
Qed.

End safety.

Lemma closed_session_panics_witness :
  readPump demo_Parse demo_Format 0%nat keepalive st_closed = None ∧
  ∀ roomId, readPump demo_Parse demo_Format 0%nat (sendMessage roomId "") st_closed = None.
Proof.
  apply (closed_session_panics demo_Parse demo_Format 0%nat st_closed
           (session st_closed 0%nat)).
  - vm_compute; reflexivity.
  - vm_compute; reflexivity.
Defined.

Lemma foreign_frames_are_ignored_witness :
  readPump demo_Parse demo_Format 1%nat message_new_hi st_two = Some st_two.
Proof.
  apply (foreign_frames_are_ignored demo_Parse demo_Format 1%nat message_new_hi st_two).
  intros msg Hmsg. vm_compute in Hmsg. injection Hmsg as <-.
  unfold inbound_tags. intros Hin.
  repeat (apply elem_of_cons in Hin as [Hin|Hin]; [discriminate|]).
  by apply elem_of_nil in Hin.
Defined.

(** ** Presence as the browsers see it *)
Section views.

Lemma online_after_presence (frames : list json) (userID username status : string)
    (S : gset string) :
  online_after (frames ++ [presence_frame userID username status]) S
  = if String.eqb (coerce status) "online"
    then {[coerce userID]} ∪ online_after frames S
    else online_after frames S ∖ {[coerce userID]}.
Proof. unfold online_after. by rewrite foldl_app. Qed.

Lemma enqueue_buf (data : json) (c : Client) :
  Chan.full (send c) = false →
  Chan.buf (send (enqueue data c)) = Chan.buf (send c) ++ [data].
Proof. intros Hfull. unfold enqueue. by rewrite Hfull. Qed.

(** X24. When the Hub registers a Client, the browser of every other
    user with a Session whose queue has room sees the new user online
    once it has handled the frames queued for it: its set of online users
    is the one it would have had, with the new user added. *)
Theorem registration_shows_online (st : State) (a : addr) (rest : list addr)
    (c : Client) (v : string) (b : addr) (cb : Client) :
  hub_ok st → register st = a :: rest → heap st !! a = Some c →
  v ≠ UserID c → clients st !! v = Some b → heap st !! b = Some cb →
  Chan.full (send cb) = false →
  ∃ st' cb', Run Register st = Some st' ∧ heap st' !! b = Some cb' ∧
    ∀ S, online_after (Chan.buf (send cb')) S
         = {[coerce (UserID c)]} ∪ online_after (Chan.buf (send cb)) S.
Proof.
  intros Hok Hreg Ha Hv Hb Hcb Hroom.
  destruct (Run_Register_spec st a rest Hok Hreg)
    as (c0 & st' & data & Ha0 & Hdata & Hrun & _ & _ & _ & _ & _ & Hothers).
  assert (c0 = c) as -> by congruence.
  rewrite presence_frame_eq in Hdata. injection Hdata as <-.
  exists st', (enqueue (presence_frame (UserID c) (Username c) "online") cb).
  split; [done|]. split; [by apply (Hothers v b cb)|].
  intros S. by rewrite enqueue_buf, online_after_presence.
Qed.

(** X25. When the Hub unregisters the Session of a user, the browser of
    every other user with a Session whose queue has room sees that user
    offline once it has handled the frames queued for it: the user is
    removed from the set of online users it would have had. *)
Theorem unregistration_shows_offline (st : State) (a : addr) (rest : list addr)
    (c : Client) (v : string) (b : addr) (cb : Client) :
  hub_ok st → unregister st = a :: rest → heap st !! a = Some c →
  clients st !! UserID c = Some a →
  v ≠ UserID c → clients st !! v = Some b → heap st !! b = Some cb →
  Chan.full (send cb) = false →
  ∃ st' cb', Run Unregister st = Some st' ∧ heap st' !! b = Some cb' ∧
    ∀ S, online_after (Chan.buf (send cb')) S
         = online_after (Chan.buf (send cb)) S ∖ {[coerce (UserID c)]}.
Proof.
  intros Hok Hun Ha Hlive Hv Hb Hcb Hroom.
  destruct (Run_unregister_spec (set_unregister rest st) a c Hok Ha)
    as (st' & data & Hdata & Hrun & _ & _ & Hothers & _).
  rewrite presence_frame_eq in Hdata. injection Hdata as <-.
  exists st', (enqueue (presence_frame (UserID c) (Username c) "offline") cb).
  split; [by unfold Run; rewrite Hun|]. split.
  - apply (Hothers v b cb); unfold unregistered;
      (rewrite decide_True by exact Hlive); simpl.
    + by rewrite lookup_delete_ne.
    + rewrite lookup_insert_ne; [done|]. intros ->. apply Hv.
      symmetry. by eapply (hub_ok_inj st).
  - intros S. by rewrite enqueue_buf, online_after_presence.
Qed.

End views.

Lemma registration_shows_online_witness :
  ∃ st' cb', Run Register st_joining = Some st' ∧ heap st' !! 0%nat = Some cb' ∧
    ∀ S, online_after (Chan.buf (send cb')) S
         = {[coerce (UserID (session st_joining 1%nat))]}
           ∪ online_after (Chan.buf (send (session st_joining 0%nat))) S.
Proof.
  assert (Hr : reachable demo_Parse demo_Format st_joining).
  { apply run_reachable; [apply reachable_init, demo_db_pk|].
    vm_compute. eexists. reflexivity. }
  exact (registration_shows_online st_joining 1%nat [] (session st_joining 1%nat)
           "u1" 0%nat (session st_joining 0%nat)
           (reachable_hub_ok _ _ _ Hr)
           ltac:(vm_compute; reflexivity) ltac:(vm_compute; reflexivity)
           ltac:(vm_compute; discriminate) ltac:(vm_compute; reflexivity)
           ltac:(vm_compute; reflexivity) ltac:(vm_compute; reflexivity)).
Defined.

Lemma unregistration_shows_offline_witness :
  ∃ st' cb', Run Unregister st_leaving = Some st' ∧ heap st' !! 0%nat = Some cb' ∧
    ∀ S, online_after (Chan.buf (send cb')) S
         = online_after (Chan.buf (send (session st_leaving 0%nat))) S
           ∖ {[coerce (UserID (session st_leaving 1%nat))]}.
Proof.
  assert (Hr : reachable demo_Parse demo_Format st_leaving).
  { apply run_reachable; [exact st_two_reachable|].
    vm_compute. eexists. reflexivity. }
  exact (unregistration_shows_offline st_leaving 1%nat [] (session st_leaving 1%nat)
           "u1" 0%nat (session st_leaving 0%nat)
           (reachable_hub_ok _ _ _ Hr)
           ltac:(vm_compute; reflexivity) ltac:(vm_compute; reflexivity)
           ltac:(vm_compute; reflexivity)
           ltac:(vm_compute; discriminate) ltac:(vm_compute; reflexivity)
           ltac:(vm_compute; reflexivity) ltac:(vm_compute; reflexivity)).
Defined.

(** ** Rooms *)
Section rooms.

Variable text_ok : string → bool.

Lemma round_trip_quiet (t : sqlDB) : faults t = [] → round_trip t = (false, t).
Proof. unfold round_trip. by intros ->. Qed.

Lemma with_tables_id (db : pgDB) : with_tables (tables db) db = db.
Proof. by destruct db. Qed.

Lemma is_member_elem (roomID userID : string) (t : sqlDB) :
  is_member roomID userID t = true ↔
  ∃ rm, rm ∈ room_members t ∧ rm_room_id rm = roomID ∧ rm_user_id rm = userID.
Proof.
  unfold is_member. rewrite existsb_exists. split.
  - intros (rm & Hin & [? ?]%is_key_true). exists rm. by rewrite list_elem_of_In.
  - intros (rm & Hin & Hr & Hu). exists rm. rewrite <- list_elem_of_In.
    split; [done|]. by apply is_key_true.
Qed.

(** An answered [AddRoomMember] by the rows it leaves. *)
Lemma AddRoomMember_grows (roomID userID : string) (t : sqlDB) :
  faults t = [] →
  let t' := (AddRoomMember roomID userID t).2 in
  (AddRoomMember roomID userID t).1 = Some tt ∧ faults t' = [] ∧
  users t' = users t ∧ messages t' = messages t ∧ clock t' = clock t ∧
  is_member roomID userID t' = true ∧
  (∀ rm, rm ∈ room_members t → rm ∈ room_members t') ∧
  (∀ rm, rm ∈ room_members t' → rm ∈ room_members t ∨ rm_room_id rm = roomID).
Proof.
  intros Hq t'. unfold t', AddRoomMember, Exec. rewrite (round_trip_quiet t Hq).
  unfold is_member. destruct (existsb _ (room_members t)) eqn:Hex; simpl.
  - rewrite Hex. repeat split; auto.
  - rewrite existsb_app. simpl.
    rewrite (proj2 (is_key_true roomID userID _)) by done.
    rewrite orb_true_r. do 6 (split; [done|]). split.
    + intros rm Hrm. apply elem_of_app. by left.
    + intros rm [?| ->%list_elem_of_singleton]%elem_of_app; [by left|by right].
Qed.

Lemma dm_candidates_elem (u1 u2 : string) (db : pgDB) (x : string) :
  x ∈ dm_candidates u1 u2 db ↔
  ∃ rm1 rm2 r, rm1 ∈ room_members (tables db) ∧ rm2 ∈ room_members (tables db) ∧
    r ∈ rooms_table db ∧ rm_room_id rm1 = x ∧ rm_room_id rm2 = x ∧ r_ID r = x ∧
    rm_user_id rm1 = u1 ∧ rm_user_id rm2 = u2 ∧ r_Type r = "dm".
Proof.
  unfold dm_candidates. rewrite list_elem_of_bind. split.
  - intros (rm1 & (rm2 & (r & Hx & Hr)%list_elem_of_bind & H2)%list_elem_of_bind & H1).
    destruct (bool_decide_reflect (rm_room_id rm1 = rm_room_id rm2)); [|by inversion Hx].
    destruct (bool_decide_reflect (r_ID r = rm_room_id rm1)); [|by inversion Hx].
    destruct (bool_decide_reflect (rm_user_id rm1 = u1)); [|by inversion Hx].
    destruct (bool_decide_reflect (rm_user_id rm2 = u2)); [|by inversion Hx].
    destruct (bool_decide_reflect (r_Type r = "dm")); [|by inversion Hx].
    simpl in Hx. apply list_elem_of_singleton in Hx as ->.
    exists rm1, rm2, r. repeat split; congruence.
  - intros (rm1 & rm2 & r & H1 & H2 & Hr & Hx1 & Hx2 & Hxr & Hu1 & Hu2 & Ht).
    exists rm1. split; [|done]. apply list_elem_of_bind. exists rm2. split; [|done].
    apply list_elem_of_bind. exists r. split; [|done].
    rewrite !bool_decide_true by congruence. simpl.
    apply list_elem_of_singleton. done.
Qed.

Lemma head_all_equal {A : Type} (l : list A) (x : A) :
  x ∈ l → (∀ y, y ∈ l → y = x) → ∃ rest, l = x :: rest.
Proof.
  destruct l as [|y rest]; [by intros ?%elem_of_nil|].
  intros _ Hall. exists rest. f_equal. apply Hall. left.
Qed.

(** X26. A DM room that [GetOrCreateDMRoom] creates, with no driver
    error due, is of type [dm] and has both users as members; asking
    again for the same pair, in either order, returns this very room and
    changes nothing. *)
Theorem dm_room_is_reused (u1 u2 : string) (db db' : pgDB) (room : Room) :
  faults (tables db) = [] →
  dm_candidates u1 u2 db = [] →
  GetOrCreateDMRoom text_ok u1 u2 db = (Some (Some room), db') →
  r_Type room = "dm" ∧
  is_member (r_ID room) u1 (tables db') = true ∧
  is_member (r_ID room) u2 (tables db') = true ∧
  GetOrCreateDMRoom text_ok u1 u2 db' = (Some (Some room), db') ∧
  GetOrCreateDMRoom text_ok u2 u1 db' = (Some (Some room), db').
Proof.
  intros Hq Hnone. unfold GetOrCreateDMRoom at 1.
  rewrite (round_trip_quiet _ Hq), with_tables_id, Hnone.
  unfold CreateRoom. rewrite (round_trip_quiet _ Hq), with_tables_id.
  destruct (_ && _) eqn:Hchecks; [|done].
  set (new := mkRoom (fresh (room_ids db)) "" "dm" u1 (clock (tables db))).
  unfold lift. cbn [tables rooms_table r_ID new].
  destruct (AddRoomMember_grows (fresh (room_ids db)) u1 (tables db) Hq)
    as (Hr1 & Hq1 & Hu1 & _ & _ & Hm1 & Hold1 & Hnew1).
  destruct (AddRoomMember (fresh (room_ids db)) u1 (tables db)) as [r1 t1].
  simpl in Hr1, Hq1, Hu1, Hm1, Hold1, Hnew1. subst r1.
  cbn [with_tables tables rooms_table].
  destruct (AddRoomMember_grows (fresh (room_ids db)) u2 t1 Hq1)
    as (Hr2 & Hq2 & Hu2 & _ & _ & Hm2 & Hold2 & Hnew2).
  destruct (AddRoomMember (fresh (room_ids db)) u2 t1) as [r2 t2].
  simpl in Hr2, Hq2, Hu2, Hm2, Hold2, Hnew2. subst r2.
  cbn [with_tables tables rooms_table]. intros [= <- <-].
  unfold with_tables. cbn [tables rooms_table r_ID r_Type new].
  assert (Hmem1 : is_member (fresh (room_ids db)) u1 t2 = true).
  { apply is_member_elem in Hm1 as (rm & Hin & Hr & Hu).
    apply is_member_elem. exists rm. auto. }
  split; [done|]. split; [done|]. split; [done|].
  assert (Hfresh : ∀ r, r ∈ rooms_table db → r_ID r ≠ fresh (room_ids db)).
  { intros r Hr Heq. apply (is_fresh (room_ids db)). rewrite <- Heq.
    unfold room_ids. apply elem_of_list_to_set, list_elem_of_fmap. by exists r. }
  set (db' := mkPG (rooms_table db ++ [new]) t2).
  assert (Hfind : GetRoomByID (fresh (room_ids db)) db' = (Some (Some new), db')).
  { unfold GetRoomByID, db'. cbn [tables]. rewrite (round_trip_quiet _ Hq2).
    cbn [with_tables rooms_table]. do 2 f_equal. induction (rooms_table db) as [|r l IH]; simpl.
    - by rewrite bool_decide_true.
    - rewrite bool_decide_false by (apply Hfresh; left).
      apply IH. intros r' Hr'. apply Hfresh. by right. }
  assert (Hcands : ∀ a b, dm_candidates a b db = [] → dm_candidates b a db = []).
  { intros a b Hab. destruct (dm_candidates b a db) as [|x l] eqn:Hba; [done|].
    assert (x ∈ dm_candidates b a db) as Hx by (rewrite Hba; left).
    apply dm_candidates_elem in Hx
      as (rm1 & rm2 & r & H1 & H2 & Hr & Hx1 & Hx2 & Hxr & Ha & Hb & Ht).
    assert (x ∈ dm_candidates a b db) as Hx'.
    { apply dm_candidates_elem. exists rm2, rm1, r. by repeat split. }
    rewrite Hab in Hx'. by apply elem_of_nil in Hx'. }
  assert (Hhead : ∀ a b, dm_candidates a b db = [] →
            is_member (fresh (room_ids db)) a t2 = true →
            is_member (fresh (room_ids db)) b t2 = true →
            ∃ rest, dm_candidates a b db' = fresh (room_ids db) :: rest).
  { intros a b Hab Ha Hb. apply head_all_equal.
    - apply is_member_elem in Ha as (rm1 & Hin1 & Hr1 & Hua).
      apply is_member_elem in Hb as (rm2 & Hin2 & Hr2 & Hub).
      apply dm_candidates_elem. exists rm1, rm2, new.
      repeat split; try done. unfold db'. cbn [rooms_table].
      apply elem_of_app. right. left.
    - intros y (rm1 & rm2 & r & H1 & H2 & Hr & Hx1 & Hx2 & Hxr & Hua & Hub & Ht)%dm_candidates_elem.
      unfold db' in H1, H2, Hr. cbn [tables rooms_table] in H1, H2, Hr.
      apply elem_of_app in Hr as [Hr| ->%list_elem_of_singleton]; [|by rewrite <- Hxr].
      destruct (Hnew2 rm1 H1) as [H1'|H1']; [|congruence].
      destruct (Hnew1 rm1 H1') as [H1''|H1'']; [|congruence].
      destruct (Hnew2 rm2 H2) as [H2'|H2']; [|congruence].
      destruct (Hnew1 rm2 H2') as [H2''|H2'']; [|congruence].
      assert (y ∈ dm_candidates a b db) as Hy.
      { apply dm_candidates_elem. exists rm1, rm2, r. by repeat split. }
      rewrite Hab in Hy. by apply elem_of_nil in Hy. }
  split.
  - destruct (Hhead u1 u2 Hnone Hmem1 Hm2) as [rest Hrest].
    unfold GetOrCreateDMRoom. change (tables db') with t2.
    rewrite (round_trip_quiet _ Hq2).
    change (with_tables t2 db') with db'. rewrite Hrest. exact Hfind.
  - destruct (Hhead u2 u1 (Hcands _ _ Hnone) Hm2 Hmem1) as [rest Hrest].
    unfold GetOrCreateDMRoom. change (tables db') with t2.
    rewrite (round_trip_quiet _ Hq2).
    change (with_tables t2 db') with db'. rewrite Hrest. exact Hfind.
Qed.

(** X27. [handlers.JoinRoom] lets any authenticated user into any room
    that exists, whatever its type, a [dm] room included: with no driver
    error due the caller becomes a member, and the history handler then
    serves the caller the page of the room's messages it serves to its
    members. *)
Theorem any_room_can_be_joined (roomID userID : string) (db : pgDB) (room : Room) :
  faults (tables db) = [] →
  List.find (fun r => bool_decide (r_ID r = roomID)) (rooms_table db) = Some room →
  ∃ db', JoinRoom roomID userID db = (StatusOK, db') ∧
    is_member roomID userID (tables db') = true ∧
    ∀ strconv_Atoi time_Parse time_Now beforeStr limitStr,
      (GetMessages_handler strconv_Atoi time_Parse time_Now roomID userID beforeStr
         limitStr (tables db')).1
      = OK (take (Z.to_nat (limit_of strconv_Atoi limitStr))
              (sorting.merge_sort newer
                 (history_rows roomID (before_of time_Parse time_Now beforeStr)
                    (tables db)))).
Proof.
  intros Hq Hfind. unfold JoinRoom, GetRoomByID.
  rewrite (round_trip_quiet _ Hq), with_tables_id, Hfind. unfold lift.
  destruct (AddRoomMember_grows roomID userID (tables db) Hq)
    as (Hr & Hq' & Hu & Hm & _ & Hmem & _).
  destruct (AddRoomMember roomID userID (tables db)) as [r t']. simpl in *. subst r.
  eexists. split; [done|]. cbn [with_tables tables]. split; [done|].
  intros atoi tp now b l. unfold GetMessages_handler, IsRoomMember, Query.
  rewrite (round_trip_quiet _ Hq'). unfold is_member in Hmem. rewrite Hmem.
  unfold GetMessages. rewrite (round_trip_quiet _ Hq'). simpl.
  pose proof (limit_of_range atoi l) as Hrange.
  destruct (Z.ltb_spec (limit_of atoi l) 0) as [|_]; [lia|]. simpl.
  unfold history_rows. by rewrite Hu, Hm.
Qed.

End rooms.

Lemma dm_room_is_reused_witness :
  ∃ room db',
    GetOrCreateDMRoom demo_text_ok "u2" "u3" demo_pg = (Some (Some room), db') ∧
    r_Type room = "dm" ∧
    is_member (r_ID room) "u2" (tables db') = true ∧
    is_member (r_ID room) "u3" (tables db') = true ∧
    GetOrCreateDMRoom demo_text_ok "u2" "u3" db' = (Some (Some room), db') ∧
    GetOrCreateDMRoom demo_text_ok "u3" "u2" db' = (Some (Some room), db').
Proof.
  assert (Hres : ∃ room db',
    GetOrCreateDMRoom demo_text_ok "u2" "u3" demo_pg = (Some (Some room), db'))
    by (vm_compute; eexists _, _; reflexivity).
  destruct Hres as (room & db' & Hres). exists room, db'. split; [exact Hres|].
  apply (dm_room_is_reused demo_text_ok "u2" "u3" demo_pg db' room);
    [reflexivity|vm_compute; reflexivity|exact Hres].
Defined.

Lemma any_room_can_be_joined_witness :
  ∃ db', JoinRoom "r2" "u2" demo_pg = (StatusOK, db') ∧
    is_member "r2" "u2" (tables db') = true ∧
    ∀ strconv_Atoi time_Parse time_Now beforeStr limitStr,
      (GetMessages_handler strconv_Atoi time_Parse time_Now "r2" "u2" beforeStr
         limitStr (tables db')).1
      = OK (take (Z.to_nat (limit_of strconv_Atoi limitStr))
              (sorting.merge_sort newer
                 (history_rows "r2" (before_of time_Parse time_Now beforeStr)
                    (tables demo_pg)))).
Proof.
  apply (any_room_can_be_joined "r2" "u2" demo_pg (mkRoom "r2" "" "dm" "u1" 0));
    reflexivity.
Defined.

(** ** The list of rooms *)
Section listing.




End listing.


(** ** Who is online *)
Section online.

Variable time_Parse : string → option Z.
Variable time_Format : Z → string.


End online.


Section presence.

Import Presence.

Variable lapsed : Z → Z → bool.
Hypothesis lapsed_after : ∀ now t, (t < now)%Z → lapsed now t = true.
Hypothesis lapsed_before : ∀ now t, (now < t)%Z → lapsed now t = false.

Lemma presence_key_ne (u : string) : presence_key u ≠ "online_users".
Proof. unfold presence_key. simpl. discriminate. Qed.

Lemma entry_at_listed (u : string) (r : redis) (M : gset string) :
  rkeys r !! "online_users" = Some (mkEntry (Members M) None) →
  entry_at lapsed "online_users" r = Some (mkEntry (Members M) None).
Proof. intros HS. unfold entry_at. by rewrite HS. Qed.

Lemma exec_spares (u : string) (c : command) (r : redis) :
  spares u c → listed u r → listed u (exec lapsed c r).2.
Proof.
  intros Hc (M & HS & Hu). unfold listed.
  destruct c as [key member|key v ttl|key member|key|key ttl]; simpl in Hc; simpl.
  - destruct (decide (key = "online_users")) as [->|Hkey].
    + rewrite (entry_at_listed u r M HS). simpl. rewrite lookup_insert_eq.
      exists ({[member]} ∪ M). split; [done|]. apply elem_of_union. by right.
    + exists M. split; [|done].
      destruct (entry_at lapsed key r) as [[[x|M'] t]|]; simpl;
        first [exact HS | by rewrite lookup_insert_ne].
  - exists M. split; [|done]. by rewrite lookup_insert_ne.
  - destruct (decide (key = "online_users")) as [->|Hkey].
    + rewrite (entry_at_listed u r M HS). simpl.
      assert (Hstays : u ∈ M ∖ {[member]}).
      { apply elem_of_difference. split; [done|].
        intros ->%elem_of_singleton. by destruct (Hc eq_refl). }
      destruct (decide (M ∖ {[member]} = ∅)) as [Hempty|_].
      * rewrite Hempty in Hstays. by apply not_elem_of_empty in Hstays.
      * simpl. rewrite lookup_insert_eq. by exists (M ∖ {[member]}).
    + exists M. split; [|done].
      destruct (entry_at lapsed key r) as [[[x|M'] t]|]; simpl; [exact HS| |exact HS].
      destruct (decide _); simpl;
        [by rewrite lookup_delete_ne|by rewrite lookup_insert_ne].
  - exists M. split; [|done]. by rewrite lookup_delete_ne.
  - exists M. split; [|done].
    destruct (entry_at lapsed key r) as [e|]; simpl; [|exact HS].
    by rewrite lookup_insert_ne.
Qed.

Lemma carry_out_spares (u : string) (cmds : list command) (r : redis) :
  Forall (spares u) cmds → listed u r → listed u (carry_out lapsed cmds r).2.
Proof.
  intros Hcmds. revert r. induction Hcmds as [|c cmds Hc _ IH]; intros r Hr; [done|].
  simpl. pose proof (exec_spares u c r Hc Hr) as Hr1.
  destruct (exec lapsed c r) as [ok r1]. simpl in Hr1.
  specialize (IH r1 Hr1). by destruct (carry_out lapsed cmds r1) as [oks r2].
Qed.

Lemma next_fate_keys (r : redis) :
  rkeys (next_fate r).2 = rkeys r ∧ rnow (next_fate r).2 = rnow r.
Proof. unfold next_fate. by destruct (rlink r). Qed.

Lemma exchange_spares (u : string) (cmds : list command) (r : redis) :
  Forall (spares u) cmds → listed u r → listed u (exchange lapsed cmds r).2.
Proof.
  intros Hcmds Hr. unfold exchange.
  pose proof (next_fate_keys r) as [Hkeys _].
  destruct (next_fate r) as [[|reached] r1]; simpl in Hkeys.
  - assert (Hr1 : listed u r1) by (unfold listed; by rewrite Hkeys).
    pose proof (carry_out_spares u cmds r1 Hcmds Hr1) as H2.
    by destruct (carry_out lapsed cmds r1) as [ok r2].
  - simpl. apply carry_out_spares; [by apply Forall_take|].
    unfold listed. by rewrite Hkeys.
Qed.

Lemma happen_keeps_online (e : event) (u : string) (r : redis) :
  e ≠ Offline u → listed u r → listed u (happen lapsed e r).
Proof.
  intros He Hu. destruct e as [v|v|v|ms]; simpl.
  - apply exchange_spares; [|done].
    repeat constructor. simpl. apply presence_key_ne.
  - apply exchange_spares; [|done].
    repeat constructor; simpl; [|apply presence_key_ne].
    intros _ ->. by destruct He.
  - apply exchange_spares; [|done].
    repeat constructor. simpl. apply presence_key_ne.
  - exact Hu.
Qed.

Lemma after_keeps_online (es : list event) (u : string) (r : redis) :
  Forall (fun e => e ≠ Offline u) es → listed u r → listed u (after lapsed es r).
Proof.
  intros Hes. revert r. unfold after.
  induction Hes as [|e es He _ IH]; intros r Hr; [done|].
  simpl. apply IH. by apply happen_keeps_online.
Qed.

Lemma GetOnlineUsers_listed (u : string) (r : redis) :
  listed u r →
  match (GetOnlineUsers lapsed r).1 with
  | Some M => u ∈ M
  | None => ¬ answers r
  end.
Proof.
  intros (M & HS & Hu). unfold GetOnlineUsers, answers.
  pose proof (next_fate_keys r) as [Hkeys _].
  destruct (next_fate r) as [[|reached] r1]; simpl in *; [|done].
  unfold SMembers. rewrite (entry_at_listed u r1 M); [done|by rewrite Hkeys].
Qed.

Lemma SetOnline_answered (u : string) (r r1 : redis) :
  (∀ e, rkeys r !! "online_users" = Some e → expires e = None) →
  SetOnline lapsed u r = (Some tt, r1) →
  listed u r1 ∧ rnow r1 = rnow r ∧
  rkeys r1 !! presence_key u
  = Some (mkEntry (Str "online") (Some (rnow r + presenceTTL)%Z)).
Proof.
  intros Hexp. pose proof (next_fate_keys r) as [Hkeys Hnow].
  unfold SetOnline, exchange.
  destruct (next_fate r) as [[|reached] r0]; simpl in Hkeys, Hnow; [|done].
  cbn [carry_out exec].
  assert (Hat : entry_at lapsed "online_users" r0 = rkeys r !! "online_users").
  { unfold entry_at. rewrite Hkeys.
    destruct (rkeys r !! "online_users") as [e|] eqn:He; [|done]. simpl.
    by rewrite (Hexp e eq_refl). }
  rewrite Hat.
  destruct (rkeys r !! "online_users") as [[[x|M] t]|] eqn:He; [done| |].
  - pose proof (Hexp _ eq_refl) as Ht. simpl in Ht. subst t. simpl.
    intros [= <-]. simpl. rewrite lookup_insert_eq, Hnow.
    split; [|done]. exists ({[u]} ∪ M). simpl.
    rewrite lookup_insert_ne by apply presence_key_ne.
    rewrite lookup_insert_eq. split; [done|].
    apply elem_of_union. left. by apply elem_of_singleton.
  - simpl. intros [= <-]. simpl. rewrite lookup_insert_eq, Hnow.
    split; [|done]. exists {[u]}. simpl.
    rewrite lookup_insert_ne by apply presence_key_ne.
    rewrite lookup_insert_eq. split; [done|]. by apply elem_of_singleton.
Qed.

Lemma entry_at_ext (key : string) (r r' : redis) :
  rkeys r' = rkeys r → rnow r' = rnow r →
  entry_at lapsed key r' = entry_at lapsed key r.
Proof. intros Hk Hn. unfold entry_at. by rewrite Hk, Hn. Qed.

Lemma SetOffline_answered (u : string) (r r1 : redis) :
  SetOffline lapsed u r = (Some tt, r1) →
  ∃ M, SMembers lapsed "online_users" r1 = Some M ∧ u ∉ M.
Proof.
  unfold SetOffline, exchange.
  destruct (next_fate r) as [[|reached] r0]; [|done].
  cbn [carry_out exec]. unfold SMembers.
  destruct (entry_at lapsed "online_users" r0) as [[[x|M] t]|] eqn:He; [done| |].
  - destruct (decide (M ∖ {[u]} = ∅)) as [Hempty|Hmore]; simpl; intros [= <-].
    + exists ∅. split; [|apply not_elem_of_empty].
      unfold entry_at. simpl.
      rewrite lookup_delete_ne by apply presence_key_ne.
      by rewrite lookup_delete_eq.
    + assert (Hout : u ∉ M ∖ {[u]}).
      { intros [_ Hu]%elem_of_difference. apply Hu. by apply elem_of_singleton. }
      unfold entry_at. simpl.
      rewrite lookup_delete_ne by apply presence_key_ne.
      rewrite lookup_insert_eq. simpl.
      destruct t as [t|]; [|by exists (M ∖ {[u]})].
      destruct (lapsed (rnow r0) t); [|by exists (M ∖ {[u]})].
      exists ∅. split; [done|apply not_elem_of_empty].
  - simpl. intros [= <-]. exists ∅. split; [|apply not_elem_of_empty].
    assert (Hsame : entry_at lapsed "online_users"
                      (with_keys (delete (presence_key u) (rkeys r0)) r0)
                    = entry_at lapsed "online_users" r0).
    { unfold entry_at. simpl. by rewrite lookup_delete_ne by apply presence_key_ne. }
    by rewrite Hsame, He.
Qed.

(** X30. A [SetOnline] of a user that returns no error, in a store whose
    set [online_users] has no expiry, and after it any calls of the
    package, answered or lost, and any passing of time, but no
    [SetOffline] of that user: a [GetOnlineUsers] that returns no error
    lists the user, and it returns an error only when its exchange is
    lost.  The presence key is another matter: it holds [online] until
    120 seconds have passed, and once more than 120 seconds have passed
    without a refresh it is gone, and a [RefreshPresence] then changes
    no key and, when it is answered, returns no error.  A [SetOffline]
    of the user that returns no error takes the user off the list. *)
Theorem presence_outlives_its_key (u : string) (es : list event) (r r1 : redis) :
  (∀ e, rkeys r !! "online_users" = Some e → expires e = None) →
  SetOnline lapsed u r = (Some tt, r1) →
  Forall (fun e => e ≠ Offline u) es →
  match (GetOnlineUsers lapsed (after lapsed es r1)).1 with
  | Some M => u ∈ M
  | None => ¬ answers (after lapsed es r1)
  end ∧
  (∀ ms, (Z.of_N ms < presenceTTL)%Z →
     entry_at lapsed (presence_key u) (after lapsed [Elapse ms] r1)
     = Some (mkEntry (Str "online") (Some (rnow r + presenceTTL)%Z))) ∧
  (∀ ms, (presenceTTL < Z.of_N ms)%Z →
    let r' := after lapsed [Elapse ms] r1 in
    entry_at lapsed (presence_key u) r' = None ∧
    rkeys (RefreshPresence lapsed u r').2 = rkeys r' ∧
    (answers r' → (RefreshPresence lapsed u r').1 = Some tt)) ∧
  ∀ r2 r3, SetOffline lapsed u r2 = (Some tt, r3) →
    match (GetOnlineUsers lapsed r3).1 with
    | Some M => u ∉ M
    | None => ¬ answers r3
    end.
Proof.
  intros Hexp Hon Hes.
  destruct (SetOnline_answered u r r1 Hexp Hon) as (Hl & Hnow & Hkey).
  split; [|split; [|split]]; cycle 3.
  { intros r2 r3 Hoff.
    destruct (SetOffline_answered u r2 r3 Hoff) as (M & HM & Hu).
    unfold GetOnlineUsers, answers.
    pose proof (next_fate_keys r3) as [Hk3 Hn3].
    destruct (next_fate r3) as [[|n] r4]; simpl in *; [|done].
    unfold SMembers in *. by rewrite (entry_at_ext _ r3 r4 Hk3 Hn3), HM. }
  - apply GetOnlineUsers_listed. by apply after_keeps_online.
  - intros ms Hms. unfold after, entry_at. simpl. rewrite Hkey. simpl.
    by rewrite lapsed_before by lia.
  - intros ms Hms r'.
    assert (Hgone : entry_at lapsed (presence_key u) r' = None).
    { unfold r', after, entry_at. simpl. rewrite Hkey. simpl.
      by rewrite lapsed_after by lia. }
    split; [exact Hgone|].
    unfold RefreshPresence, exchange, answers.
    pose proof (next_fate_keys r') as [Hk' Hn'].
    assert (Hgone' : entry_at lapsed (presence_key u) (next_fate r').2 = None).
    { revert Hgone. unfold entry_at. by rewrite Hk', Hn'. }
    destruct (next_fate r') as [[|n] r2]; simpl in *.
    + rewrite Hgone'. simpl. split; [exact Hk'|done].
    + split; [|done]. destruct n as [|n]; simpl; [exact Hk'|].
      rewrite Hgone'. simpl. rewrite take_nil. exact Hk'.
Qed.

End presence.

Lemma presence_outlives_its_key_witness :
  let lapsed := fun now t : Z => (t <? now)%Z in
  let r := Presence.mkRedis ∅ 0 [Presence.Answered; Presence.Lost 1] in
  let es := [Presence.Elapse 200000; Presence.Refresh "u1"; Presence.Online "u2";
             Presence.Offline "u2"] in
  "u1" ∈ default ∅
           (Presence.GetOnlineUsers lapsed
              (Presence.after lapsed es (Presence.SetOnline lapsed "u1" r).2)).1 ∧
  Presence.entry_at lapsed (Presence.presence_key "u1")
    (Presence.after lapsed [Presence.Elapse 120001] (Presence.SetOnline lapsed "u1" r).2)
  = None.
Proof.
  intros lapsed r es.
  assert (Hafter : ∀ now t : Z, (t < now)%Z → lapsed now t = true)
    by (intros now t Hlt; apply Z.ltb_lt; lia).
  assert (Hbefore : ∀ now t : Z, (now < t)%Z → lapsed now t = false)
    by (intros now t Hlt; apply Z.ltb_ge; lia).
  destruct (presence_outlives_its_key lapsed Hafter Hbefore "u1" es r
              (Presence.SetOnline lapsed "u1" r).2
              ltac:(intros e He; vm_compute in He; discriminate)
              ltac:(vm_compute; reflexivity)
              ltac:(repeat first [apply Forall_nil_2 | apply Forall_cons_2];
                    by intros [=]))
    as (Hlisted & _ & Hgone & _).
  split.
  - destruct (Presence.GetOnlineUsers lapsed _).1 as [M|] eqn:HM; [exact Hlisted|].
    vm_compute in HM. discriminate.
  - exact (proj1 (Hgone 120001%N ltac:(vm_compute; reflexivity))).
Defined.

